(** * alias-panel: the layout and text-shaping engine, embedded in Rocq

    The development follows the Go sources of the repository:
    package [parser] (the content model and the merge of sections) and
    package [panel] (text shaping, box rendering and the column packer).

    Conventions of the embedding.
    - A Go [int] is a [Z]; every arithmetic operation wraps around at 64 bits
      (module [GoInt]); division and remainder by zero are run-time panics.
    - A Go [string] is the [string] of its bytes, and [len] its byte length.
      Its runes are taken one per byte ([runes]), which is what [[]rune(s)]
      and [range] yield for a text of single-byte characters
      ([single_byte]); how the code cuts and draws a text with multi-byte
      characters, where it indexes runes by byte counts, is outside the
      embedding.
    - A Go [map[string]V] is the list of its entries in the order in which
      [range] yields them in the run at hand ([gomap]).
    - A pure function that may panic returns an [option]; a function that
      draws or logs returns an [outcome]: the calls it made on the terminal
      surface and on the logger, and how it ended. *)

From Stdlib Require Import ZArith List String Ascii Bool Lia.
From Stdlib Require Import Permutation Sorted OrderedTypeEx.
Import ListNotations.

Local Open Scope Z_scope.

(* ================================================================= *)
(** ** Go integers *)

Module GoInt.

Definition modulus : Z := 18446744073709551616.
Definition min_int : Z := -9223372036854775808.
Definition max_int : Z := 9223372036854775807.

(** Two's-complement reduction of a mathematical integer to an [int]. *)
Definition wrap (z : Z) : Z := (z - min_int) mod modulus + min_int.

Definition in_int (z : Z) : Prop := min_int <= z <= max_int.

Definition add (x y : Z) : Z := wrap (x + y).
Definition sub (x y : Z) : Z := wrap (x - y).
Definition mul (x y : Z) : Z := wrap (x * y).

(** [x / y]: truncated towards zero, a panic when [y] is zero. *)
Definition quo (x y : Z) : option Z :=
  if y =? 0 then None else Some (wrap (Z.quot x y)).

(** [x % y]: the sign follows the dividend, a panic when [y] is zero. *)
Definition rem (x y : Z) : option Z :=
  if y =? 0 then None else Some (Z.rem x y).

End GoInt.

Import GoInt.

(* ================================================================= *)
(** ** Strings, sorting and maps *)

Definition len (s : string) : Z := Z.of_nat (String.length s).

(** [[]rune(s)], for a text of single-byte characters: one rune per byte. *)
Definition runes (s : string) : list ascii := list_ascii_of_string s.

(** The texts whose characters are one byte each (below 0x80 in UTF-8). *)
Definition single_byte (s : string) : Prop :=
  Forall (fun c => (nat_of_ascii c < 128)%nat) (list_ascii_of_string s).

Definition obind {A B : Type} (o : option A) (k : A -> option B) : option B :=
  match o with
  | Some a => k a
  | None => None
  end.

Notation "'let?' x ':=' e 'in' k" := (obind e (fun x => k))
  (at level 10, x name, e at level 100, k at level 200).

(** [sort.Strings]: ascending byte-wise lexicographic order.  The order is
    total and antisymmetric, so the sorted list is unique and any sorting
    algorithm returns it; insertion sort is used here. *)
Fixpoint insertString (x : string) (l : list string) : list string :=
  match l with
  | [] => [x]
  | y :: l' => if String.leb x y then x :: l else y :: insertString x l'
  end.

Fixpoint sortStrings (l : list string) : list string :=
  match l with
  | [] => []
  | x :: l' => insertString x (sortStrings l')
  end.

Definition gomap (V : Type) : Type := list (string * V).

Definition keys {V : Type} (m : gomap V) : list string := map fst m.

(** [m[k]] with the comma-ok form. *)
Fixpoint lookup {V : Type} (k : string) (m : gomap V) : option V :=
  match m with
  | [] => None
  | (k', v) :: m' => if String.eqb k k' then Some v else lookup k m'
  end.

(** [m[k] = v] *)
Fixpoint store {V : Type} (k : string) (v : V) (m : gomap V) : gomap V :=
  match m with
  | [] => [(k, v)]
  | (k', v') :: m' =>
      if String.eqb k k' then (k, v) :: m' else (k', v') :: store k v m'
  end.

(** [delete(m, k)] *)
Fixpoint delete {V : Type} (k : string) (m : gomap V) : gomap V :=
  match m with
  | [] => []
  | (k', v) :: m' =>
      if String.eqb k k' then delete k m' else (k', v) :: delete k m'
  end.

(** [_, ok := m[k]] *)
Definition has {V : Type} (m : gomap V) (k : string) : bool :=
  match lookup k m with
  | Some _ => true
  | None => false
  end.

(** Two representations hold the same mapping. *)
Definition same_map {V : Type} (m1 m2 : gomap V) : Prop :=
  NoDup (keys m1) /\ NoDup (keys m2) /\ forall k, lookup k m1 = lookup k m2.

(** The byte-wise lexicographic order of Go's [<=] on strings. *)
Definition lex_le (s1 s2 : string) : Prop := String.leb s1 s2 = true.

(* ================================================================= *)
(** ** The terminal surface and the logger *)

Inductive glyph : Type :=
| Rune (c : ascii)
| RuneHLine
| RuneVLine
| RuneULCorner
| RuneURCorner
| RuneLLCorner
| RuneLRCorner.

Inductive style : Type :=
| ColorWhite
| ColorRed.

(** What a run does to the outside: cells set on the screen, flushes, and log
    entries.  [Placement] and [Item] are not calls of the program: they mark,
    in the trace, the call of [drawSection] for a block (with the column it
    is made in) and the rendering of one item of a block. *)
Inductive event : Type :=
| SetContent (x y : Z) (mainc : glyph) (comb : list ascii) (st : style)
| Show
| LogError (msg : string)
| LogInfo (msg : string)
| Placement (c : Z) (label : string) (x y w h : Z)
| Item (name : string).

Inductive outcome (A : Type) : Type :=
| Done (tr : list event) (a : A)
| Panic (tr : list event)
| Hang (tr : list event).

Arguments Done {A} tr a.
Arguments Panic {A} tr.
Arguments Hang {A} tr.

Definition trace {A : Type} (o : outcome A) : list event :=
  match o with
  | Done tr _ => tr
  | Panic tr => tr
  | Hang tr => tr
  end.

Definition after {A : Type} (pre : list event) (o : outcome A) : outcome A :=
  match o with
  | Done tr a => Done (pre ++ tr) a
  | Panic tr => Panic (pre ++ tr)
  | Hang tr => Hang (pre ++ tr)
  end.

Definition ret {A : Type} (a : A) : outcome A := Done [] a.

Definition bind {A B : Type} (m : outcome A) (k : A -> outcome B) : outcome B :=
  match m with
  | Done tr a => after tr (k a)
  | Panic tr => Panic tr
  | Hang tr => Hang tr
  end.

Definition emit (evs : list event) : outcome unit := Done evs tt.

(** A pure computation inside a drawing one: its panic ends the run. *)
Definition lift {A : Type} (o : option A) : outcome A :=
  match o with
  | Some a => Done [] a
  | None => Panic []
  end.

Notation "'let*' x ':=' e 'in' k" := (bind e (fun x => k))
  (at level 10, x name, e at level 100, k at level 200).
Notation "e ';;' k" := (bind e (fun _ => k))
  (at level 100, k at level 200, right associativity).

(** The blocks handed to [drawSection], in order, and the items rendered. *)
Record placement : Type := mkPlacement {
  column : Z;
  block_label : string;
  origin_x : Z;
  origin_y : Z;
  width : Z;
  height : Z
}.

Fixpoint placements (tr : list event) : list placement :=
  match tr with
  | [] => []
  | Placement c l x y w h :: tr' => mkPlacement c l x y w h :: placements tr'
  | _ :: tr' => placements tr'
  end.

Fixpoint items (tr : list event) : list string :=
  match tr with
  | [] => []
  | Item n :: tr' => n :: items tr'
  | _ :: tr' => items tr'
  end.

(** The items rendered for a block: those marked in the trace before the
    next block is handed over. *)
Fixpoint block_items (tr : list event) : list string :=
  match tr with
  | [] => []
  | Placement _ _ _ _ _ _ :: _ => []
  | Item n :: tr' => n :: block_items tr'
  | _ :: tr' => block_items tr'
  end.

(** The blocks of a pass, each with the items rendered in it, in order. *)
Fixpoint rendered (tr : list event) : list (string * list string) :=
  match tr with
  | [] => []
  | Placement _ l _ _ _ _ :: tr' => (l, block_items tr') :: rendered tr'
  | _ :: tr' => rendered tr'
  end.

Definition is_placement (e : event) : bool :=
  match e with
  | Placement _ _ _ _ _ _ => true
  | _ => false
  end.

(** The calls on the terminal surface. *)
Definition is_drawing (e : event) : bool :=
  match e with
  | SetContent _ _ _ _ _ | Show => true
  | _ => false
  end.

Definition drawing_only (tr : list event) : Prop :=
  Forall (fun e => is_drawing e = true) tr.

Definition unplaced (tr : list event) : Prop :=
  Forall (fun e => is_placement e = false) tr.

(** An [error] value: [None] is [nil]. *)
Definition error : Type := option string.

(* ================================================================= *)
(** ** Package parser: the content model and the merge of sections *)

Module parser.

Record Alias : Type := mkAlias {
  Name : string;
  Cmd : string;
  Desc : string
}.

(** The Go type is called [Section], a reserved word here. *)
Record Section_ : Type := mkSection {
  Label : string;
  Aliases : gomap Alias
}.

(** The zero value a map read yields for a missing key. *)
Definition zeroAlias : Alias := mkAlias EmptyString EmptyString EmptyString.
Definition zeroSection : Section_ := mkSection EmptyString [].

(** The loop of [mergeSections] over the entries of [b.Aliases], writing
    into the map [am] of [a]. *)
Fixpoint mergeAliases (entries : gomap Alias) (am : gomap Alias)
  : outcome (gomap Alias) :=
  match entries with
  | [] => ret am
  | (bk, ba) :: rest =>
      (match lookup bk am with
       | Some _ => emit [LogInfo ("Redefined alias found: " ++ bk)]
       | None => ret tt
       end) ;;
      mergeAliases rest (store bk ba am)
  end.

(** [mergeSections] returns the union of two Sections. *)
Definition mergeSections (a b : Section_) : outcome Section_ :=
  let* am := mergeAliases (Aliases b) (Aliases a) in
  ret (mkSection (Label a) am).

(** [mergeSectionMaps] returns the map of merged Sections from [a] and [b]. *)
Fixpoint mergeSectionMaps (a b : gomap Section_) : outcome (gomap Section_) :=
  match b with
  | [] => ret a
  | (bk, bs) :: rest =>
      let* a' :=
        match lookup bk a with
        | Some as_ =>
            let* merged := mergeSections as_ bs in
            ret (store bk merged a)
        | None => ret (store bk bs a)
        end in
      mergeSectionMaps a' rest
  end.

(** The second loop of [parseFiles], over the entries of the merged map:
  remove empty sections. *)
Fixpoint deleteEmpty (entries : gomap Section_) (sm : gomap Section_)
: outcome (gomap Section_) :=
match entries with
| [] => ret sm
| (sl, s) :: rest =>
    match Aliases s with
    | [] =>
        emit [LogInfo ("Deleting empty section " ++ Label s)] ;;
        deleteEmpty rest (delete sl sm)
    | _ :: _ => deleteEmpty rest sm
    end
end.

Section Files.

(** [parseFile], which reads and scans the file at a path: its result is
  taken as given. *)
Variable parseFile : string -> outcome (gomap Section_).

(** The first loop of [parseFiles]: merge the sections of the files. *)
Fixpoint mergeFiles (files : list string) (sm : gomap Section_)
: outcome (gomap Section_) :=
match files with
| [] => ret sm
| f :: files' =>
    let* parsed := parseFile f in
    let* sm' := mergeSectionMaps sm parsed in
    mergeFiles files' sm'
end.

(** [parseFiles] parses files, returning a map of discovered Sections. *)
Definition parseFiles (files : list string) : outcome (gomap Section_) :=
let* sm := mergeFiles files [] in
deleteEmpty sm sm.

End Files.

(** Two groups, and two group collections, that are equal as mappings,
    whatever the order of their entries. *)
Definition same_section (s1 s2 : Section_) : Prop :=
  Label s1 = Label s2 /\ same_map (Aliases s1) (Aliases s2).

Definition same_sections (sm1 sm2 : gomap Section_) : Prop :=
  NoDup (keys sm1) /\ NoDup (keys sm2)
  /\ forall l,
      match lookup l sm1, lookup l sm2 with
      | Some s1, Some s2 => same_section s1 s2
      | None, None => True
      | _, _ => False
      end.

End parser.

Import parser.

(* ================================================================= *)
(** ** Package panel: text shaping, box rendering, column packing *)

Module panel.

Definition minWindowWidth : Z := 10.
Definition minWindowHeight : Z := 10.
Definition minPanelWidth : Z := 40.
Definition maxPanelWidth : Z := 50.

(** [rs[i]]: an index out of range is a panic. *)
Definition index (rs : list ascii) (i : Z) : option ascii :=
  if i <? 0 then None else nth_error rs (Z.to_nat i).

(** [for ; i < bound; i++ { b.WriteRune(rs[i]) }] with [n] iterations to
    go; returns the counter and the builder's content. *)
Fixpoint writeRunes (n : nat) (rs : list ascii) (i : Z) (b : string)
  : option (Z * string) :=
  match n with
  | O => Some (i, b)
  | S n' =>
      let? c := index rs i in
      writeRunes n' rs (add i 1) (b ++ String c EmptyString)
  end.

(** [minHeight] reports the minimum height required to display text [t]
    within a horizontal span of [w] spaces. *)
Definition minHeight (w : Z) (t : string) : option Z :=
  let? h := quo (len t) w in
  let? r := rem (len t) w in
  Some (if r >? 0 then add h 1 else h).

(** [maxColumns] calculates the number of columns a [w]-wide window can
    support, for a minimum and maximum width [miw] and [maw]. *)
Definition maxColumns (w miw maw : Z) : option Z :=
  let as_ := sub w 2 in
  let? x1 := quo as_ (add miw 2) in
  let? x2 := quo as_ (add maw 2) in
  let nc := 0 in
  let nc := if x1 >? x2 then x1 else nc in
  let nc := x2 in
  let nc := if nc =? 0 then 1 else nc in
  Some nc.

(** [maxColumnWidth] returns a recommended width for a panel on a [w]-wide
    window for [nc] columns with a margin of [m] in between each panel. *)
Definition maxColumnWidth (w nc m : Z) : option Z :=
  quo (sub w (mul (add 1 nc) m)) nc.

(** The texts of a block: one "name: command" line per item. *)
Definition btext (a : Alias) : string := (Name a ++ ": " ++ Cmd a)%string.

(** [bh := 0; for _, a := range sm[sl].Aliases { bh += minHeight(aw, btext) }] *)
Fixpoint bodyHeight (aw : Z) (entries : gomap Alias) (bh : Z) : option Z :=
  match entries with
  | [] => Some bh
  | (_, a) :: rest =>
      let? h := minHeight aw (btext a) in
      bodyHeight aw rest (add bh h)
  end.

(** [sn.Aliases[an]] and [sm[sl]]: the zero value when the key is absent. *)
Definition getAlias (m : gomap Alias) (an : string) : Alias :=
  match lookup an m with
  | Some a => a
  | None => zeroAlias
  end.

Definition getSection (sm : gomap Section_) (sl : string) : Section_ :=
  match lookup sl sm with
  | Some s => s
  | None => zeroSection
  end.

(** The successive values of a loop counter: [n] of them from [start]. *)
Fixpoint upfrom (start : Z) (n : nat) : list Z :=
  match n with
  | O => []
  | S n' => start :: upfrom (start + 1) n'
  end.

(** [for i := lo; i <= hi; i++ { body }]: with [hi] the largest [int] the
    counter wraps around and the loop never ends. *)
Definition forLe (lo hi : Z) (body : Z -> list event) : outcome unit :=
  if hi <? lo then ret tt
  else if hi =? max_int then Hang (flat_map body (upfrom lo (Z.to_nat (hi - lo + 1))))
  else emit (flat_map body (upfrom lo (Z.to_nat (hi - lo + 1)))).

(** [for i := lo; i < hi; i++ { body }] *)
Definition forLt (lo hi : Z) (body : Z -> list event) : outcome unit :=
  emit (flat_map body (upfrom lo (Z.to_nat (hi - lo)))).

(** [drawBox] draws a ([lw] x [lh]) box with the UL corner at ([lx], [ly]). *)
Definition drawBox (lx ly lw lh : Z) (st : style) : outcome unit :=
  let x1 := lx in
  let x2 := sub (add lx lw) 1 in
  let y1 := ly in
  let y2 := sub (add ly lh) 1 in
  forLe x1 x2 (fun col =>
    [SetContent col y1 RuneHLine [] st; SetContent col y2 RuneHLine [] st]) ;;
  forLt (add y1 1) y2 (fun row =>
    [SetContent x1 row RuneVLine [] st; SetContent x2 row RuneVLine [] st]) ;;
  emit [SetContent x1 y1 RuneULCorner [] st;
        SetContent x2 y1 RuneURCorner [] st;
        SetContent x1 y2 RuneLLCorner [] st;
        SetContent x2 y2 RuneLRCorner [] st;
        Show].

Section Surface.

(** [runewidth.RuneWidth], of the go-runewidth library. *)
Variable RuneWidth : ascii -> Z.

(** [b.Cap()] of a fresh [strings.Builder] after [b.Grow(n)], of the Go
    library and runtime: [Grow] guarantees room for [n] bytes, so the
    capacity is at least [n]; a runtime that rounds an allocation up to
    its size class gives more. *)
Variable BuilderCap : Z -> Z.

(** [truncate] shortens [s] to fit within [w] characters, appending "..."
    at the end of the result if possible.  Both loops run up to
    [b.Cap()]; writing a single-byte rune into a builder with room left
    does not change its capacity, which stays what it is after
    [b.Grow(w)]. *)
Definition truncate (s : string) (w : Z) : option (string * error) :=
  if w <? 0 then Some (EmptyString, Some "w cannot be negative"%string)
  else if len s <=? w then Some (s, None)
  else
    let rs := runes s in
    let cap := BuilderCap w in
    let? r := writeRunes (Z.to_nat (sub cap 3)) rs 0 EmptyString in
    if len (snd r) >? 0 then Some ((snd r ++ "...")%string, None)
    else
      let? r' := writeRunes (Z.to_nat (cap - fst r)) rs (fst r) (snd r) in
      Some (snd r', None).

(** The body of the loop of [emitStr] over the runes of the string. *)
Fixpoint emitRunes (x y : Z) (st : style) (cs : list ascii) : list event :=
  match cs with
  | [] => []
  | c :: cs' =>
      let w := RuneWidth c in
      if w =? 0
      then SetContent x y (Rune " "%char) [c] st :: emitRunes (add x 1) y st cs'
      else SetContent x y (Rune c) [] st :: emitRunes (add x w) y st cs'
  end.

(** [emitStr] prints [str] at ([x], [y]) in style [st]. *)
Definition emitStr (x y : Z) (st : style) (str : string) : outcome unit :=
  emit (emitRunes x y st (runes str) ++ [Show]).

(** The loop of [drawTextBox] over the lines: each turn takes up to [w]
    runes, prints them and moves one row down.  With [w = 0] no turn
    consumes a rune and the loop never ends. *)
Fixpoint textLines (fuel : nat) (x y w : Z) (st : style) (rs : list ascii)
  : outcome unit :=
  match rs with
  | [] => ret tt
  | _ :: _ =>
      match fuel with
      | O => Hang []
      | S fuel' =>
          emitStr x y st (string_of_list_ascii (firstn (Z.to_nat w) rs)) ;;
          textLines fuel' x (add y 1) w st (skipn (Z.to_nat w) rs)
      end
  end.

(** [drawTextBox] draws a body text [t] to fit within a ([w] x [h]) area
    located at ([x], [y]). *)
Definition drawTextBox (x y w h : Z) (st : style) (t : string) : outcome error :=
  if (w <? 0) || (h <? 0) then ret (Some "w and h cannot be negative"%string)
  else
    let* r := lift (truncate t (mul h w)) in
    match snd r with
    | Some e => ret (Some e)
    | None =>
        textLines (String.length (fst r)) x y w st (runes (fst r)) ;;
        ret None
    end.

(** The loop of [drawSection] over the sorted item names. *)
Fixpoint drawAliases (y h : Z) (sn : Section_) (ax ay aw : Z)
         (names : list string) : outcome unit :=
  match names with
  | [] => ret tt
  | an :: names' =>
      let a := getAlias (Aliases sn) an in
      let* ah := lift (minHeight aw (btext a)) in
      if sub (add ay ah) y >=? h then ret tt
      else
        emit [Item an] ;;
        let* err := drawTextBox ax ay aw ah ColorRed (btext a) in
        (match err with
         | Some e =>
             emit [LogError ("drawSection: Issue parsing (" ++ e ++ ")")]
         | None => ret tt
         end) ;;
        drawAliases y h sn ax (add ay ah) aw names'
  end.

(** [drawSection] draws a single ([w] x [h]) sized box for the section,
    with the UL corner at ([x], [y]), a label, and body text. *)
Definition drawSection (x y w h : Z) (sn : Section_) : outcome error :=
  if (x <? 0) || (y <? 0) || (w <? 0) || (h <? 0)
  then ret (Some "x, y, w, and h cannot be negative"%string)
  else
    drawBox x y w h ColorWhite ;;
    let* r := lift (truncate (Label sn) (sub w 4)) in
    match snd r with
    | Some e => emit [LogError e] ;; ret (Some e)
    | None =>
        let label := ("[" ++ fst r ++ "]")%string in
        let* hpadding := lift (quo (sub w (len label)) 2) in
        let lx := add x hpadding in
        emitStr lx y ColorRed label ;;
        emit [Show] ;;
        let ax := add x 1 in
        let ay := add y 1 in
        let aw := sub w 2 in
        drawAliases y h sn ax ay aw (sortStrings (keys (Aliases sn))) ;;
        ret None
    end.

(** How the inner loop of [drawPanels] leaves a column: to the next
    column with the cursor where it stands ([continue loop], or the
    column is full), or out of the pass ([break loop], [return]). *)
Inductive leave : Type :=
| NextColumn (rest : list string)
| EndPass.

(** The inner loop of [drawPanels], [for py < h].  The cursor [p] into the
    sorted labels is kept as the labels from [p] on: [p >= len(sm)] is
    the empty list, [sls[p]] its head, [p++] its tail. *)
Fixpoint fillColumn (h : Z) (sm : gomap Section_) (pw c px py : Z)
         (rest : list string) : outcome leave :=
  match rest with
  | [] => if py <? h then ret EndPass else ret (NextColumn rest)
  | sl :: rest' =>
      if py <? h then
        let* bh := lift (bodyHeight (sub pw 2) (Aliases (getSection sm sl)) 0) in
        if sub (add py bh) 1 >=? sub h 2 then ret (NextColumn rest)
        else
          emit [Placement c sl px py pw (add bh 2)] ;;
          let* err := drawSection px py pw (add bh 2) (getSection sm sl) in
          match err with
          | Some e => emit [LogError e] ;; ret EndPass
          | None => fillColumn h sm pw c px (add py (add bh 2)) rest'
          end
      else ret (NextColumn rest)
  end.

(** The outer loop of [drawPanels], [for c := 0; c < nc; c++], with [n]
    columns to go. *)
Fixpoint fillColumns (n : nat) (h : Z) (sm : gomap Section_) (pw m c : Z)
         (rest : list string) : outcome unit :=
  match n with
  | O => ret tt
  | S n' =>
      let py := m in
      let px := add m (mul (add pw m) c) in
      let* r := fillColumn h sm pw c px py rest in
      match r with
      | EndPass => ret tt
      | NextColumn rest' => fillColumns n' h sm pw m (add c 1) rest'
      end
  end.

(** [drawPanels] draws the panels, one for each section of [sm], with
    margin [m], on a screen of size ([w], [h]). *)
Definition drawPanels (w h : Z) (sm : gomap Section_) (m : Z) : outcome unit :=
  if (w <? minWindowWidth) || (h <? minWindowHeight) then ret tt
  else
    let msg := "Press [Q]uit to exit"%string in
    emitStr (sub w (len msg)) 0 ColorWhite msg ;;
    let* nc := lift (maxColumns w minPanelWidth maxPanelWidth) in
    let* pw := lift (maxColumnWidth w nc m) in
    let sls := sortStrings (keys sm) in
    fillColumns (Z.to_nat nc) h sm pw m 0 sls.

End Surface.

End panel.

(** The earlier revision of package panel that the repository keeps: the
    column count without the fall-back, which [maxPanels] applies. *)
Module panel0.

Definition maxColumns (w miw maw : Z) : option Z :=
  let as_ := sub w 2 in
  let? x1 := quo as_ (add miw 2) in
  let? x2 := quo as_ (add maw 2) in
  if x1 >? x2 then Some x1 else Some x2.

Definition maxPanels (w m : Z) : option (Z * Z) :=
  let? np := maxColumns w panel.minPanelWidth panel.maxPanelWidth in
  let np := if np =? 0 then 1 else np in
  let? pw := quo (sub w (mul (add 1 np) m)) np in
  Some (np, pw).

End panel0.

Import panel.

(* ================================================================= *)
(** ** Vocabulary of the properties *)

(** The items of a rendered block follow the sorted names of its group. *)
Definition sorted_items_of (sm : gomap Section_)
           (b : string * list string) : Prop :=
  exists rest,
    snd b ++ rest = sortStrings (keys (Aliases (getSection sm (fst b)))).

(** The number of characters of the lines of a block. *)
Fixpoint textLength (entries : gomap Alias) : Z :=
  match entries with
  | [] => 0
  | (_, a) :: rest => len (btext a) + textLength rest
  end.

(** Sizes with which no [int] of a pass wraps around: a viewport of at most
    2^20 cells each way, a margin above -2^20, and at most 2^32 characters in
    a block. *)
Definition max_dimension : Z := 1048576.
Definition max_text : Z := 4294967296.

Definition small_texts (sm : gomap Section_) : Prop :=
  Forall (fun kv => textLength (Aliases (snd kv)) <= max_text) sm.

Definition modest (w h m : Z) (sm : gomap Section_) : Prop :=
  w <= max_dimension /\ h <= max_dimension /\ - max_dimension <= m
  /\ small_texts sm.

(** What the packer guarantees for a block it hands over in column [c] of
    width [pw] at abscissa [px]: the origin is at or below the margin, the
    height is the summed body height plus the two rows of the frame, and the
    frame ends within the [h] rows of the viewport. *)
Definition placed_in (h m : Z) (sm : gomap Section_) (pw c px : Z)
           (p : placement) : Prop :=
  column p = c /\ origin_x p = px /\ width p = pw /\ m <= origin_y p < h
  /\ exists bh,
      bodyHeight (sub pw 2) (Aliases (getSection sm (block_label p))) 0
      = Some bh
      /\ height p = bh + 2
      /\ origin_y p + bh + 2 <= h.

(** The bounds as the specification words them: no block ends below row
    [h - 1] or right of column [w]; no block is placed when that would take
    the cursor of its column to [h - 2] or beyond. *)
Definition spec_within_viewport (w h : Z) (ps : list placement) : Prop :=
  forall p, In p ps ->
            origin_y p + height p <= h - 1 /\ origin_x p + width p <= w.

Definition spec_cursor_below_limit (h : Z) (ps : list placement) : Prop :=
  forall p, In p ps -> origin_y p + height p < h - 2.

(** *** The packing, as a function of the sizes *)

(** The block of [sl] passes the test of the packer under the cursor [py]:
    the cursor is above the last row of the viewport and
    [py + bh - 1 < h - 2] for the body height [bh] of the block. *)
Definition fits_at (h : Z) (sm : gomap Section_) (pw py : Z) (sl : string)
  : Prop :=
  py < h
  /\ exists bh,
      bodyHeight (sub pw 2) (Aliases (getSection sm sl)) 0 = Some bh
      /\ py + bh - 1 < h - 2.

(** One column of the packing: from the cursor [py] on, the blocks of the
    labels are stacked for as long as the next one passes the test; the
    first that does not is left, with the labels after it, for the next
    column. *)
Fixpoint packColumn (h : Z) (sm : gomap Section_) (pw c px py : Z)
         (rest : list string) : list placement * list string :=
  match rest with
  | [] => ([], [])
  | sl :: rest' =>
      if py <? h then
        match bodyHeight (sub pw 2) (Aliases (getSection sm sl)) 0 with
        | None => ([], rest)
        | Some bh =>
            if py + bh - 1 >=? h - 2 then ([], rest)
            else
              let (ps, left) := packColumn h sm pw c px (py + bh + 2) rest' in
              (mkPlacement c sl px py pw (bh + 2) :: ps, left)
        end
      else ([], rest)
  end.

(** The columns, left to right, each from the margin [m] on and with the
    labels the columns before it have left. *)
Fixpoint packColumns (n : nat) (h : Z) (sm : gomap Section_) (pw m c : Z)
         (rest : list string) : list placement :=
  match n with
  | O => []
  | S n' =>
      let (ps, left) :=
        packColumn h sm pw c (add m (mul (add pw m) c)) m rest in
      ps ++ packColumns n' h sm pw m (c + 1) left
  end.

(** The packing of the groups of [sm] in a viewport of [w] by [h] cells with
    margin [m]: nothing in a viewport below the minimum, else the sorted
    labels in the columns of the computed count and width. *)
Definition pack (w h : Z) (sm : gomap Section_) (m : Z) : list placement :=
  if (w <? minWindowWidth) || (h <? minWindowHeight) then []
  else
    match maxColumns w minPanelWidth maxPanelWidth with
    | None => []
    | Some nc =>
        match maxColumnWidth w nc m with
        | None => []
        | Some pw =>
            packColumns (Z.to_nat nc) h sm pw m 0 (sortStrings (keys sm))
        end
    end.

(** How a block follows the block before it: in the same column directly
    below it, or, when it does not pass the test under it, at the margin of
    the next column. *)
Definition follows (h m : Z) (sm : gomap Section_) (p q : placement) : Prop :=
  (column q = column p /\ origin_y q = origin_y p + height p)
  \/ (column q = column p + 1 /\ origin_y q = m
      /\ ~ fits_at h sm (width p) (origin_y p + height p) (block_label q)).

(** *** The screen *)

(** The glyph a run leaves in a cell: the last one set there. *)
Definition at_cell (cx cy : Z) (e : event) : option glyph :=
  match e with
  | SetContent x y g _ _ => if (x =? cx) && (y =? cy) then Some g else None
  | _ => None
  end.

Fixpoint cell (tr : list event) (cx cy : Z) : option glyph :=
  match tr with
  | [] => None
  | e :: tr' =>
      match cell tr' cx cy with
      | Some g => Some g
      | None => at_cell cx cy e
      end
  end.

(** Every cell set lies in the area of [w] by [h] cells at ([x], [y]). *)
Definition in_area (x y w h : Z) (e : event) : Prop :=
  match e with
  | SetContent cx cy _ _ _ => x <= cx < x + w /\ y <= cy < y + h
  | _ => True
  end.

Definition within (x y w h : Z) (tr : list event) : Prop :=
  Forall (in_area x y w h) tr.

(** Every cell set lies in the rows from [lo] to [hi]. *)
Definition in_rows (lo hi : Z) (e : event) : Prop :=
  match e with
  | SetContent _ cy _ _ _ => lo <= cy <= hi
  | _ => True
  end.

(** The glyphs of a frame of [w] by [h] cells at ([x], [y]), and no glyph
    elsewhere. *)
Definition frame_glyph (x y w h cx cy : Z) : option glyph :=
  let x2 := x + w - 1 in
  let y2 := y + h - 1 in
  if (cx <? x) || (x2 <? cx) || (cy <? y) || (y2 <? cy) then None
  else if cx =? x then
    Some (if cy =? y then RuneULCorner
          else if cy =? y2 then RuneLLCorner else RuneVLine)
  else if cx =? x2 then
    Some (if cy =? y then RuneURCorner
          else if cy =? y2 then RuneLRCorner else RuneVLine)
  else if (cy =? y) || (cy =? y2) then Some RuneHLine
  else None.

(** The calls of [drawBox] for the box from ([x1], [y1]) to ([x2], [y2]):
    the horizontal lines, the vertical lines, the corners, the flush. *)
Definition box_lines (x1 x2 y1 y2 : Z) (st : style) : list event :=
  flat_map (fun col => [SetContent col y1 RuneHLine [] st;
                        SetContent col y2 RuneHLine [] st])
           (upfrom x1 (Z.to_nat (x2 - x1 + 1)))
  ++ flat_map (fun row => [SetContent x1 row RuneVLine [] st;
                           SetContent x2 row RuneVLine [] st])
              (upfrom (y1 + 1) (Z.to_nat (y2 - (y1 + 1))))
  ++ [SetContent x1 y1 RuneULCorner [] st;
      SetContent x2 y1 RuneURCorner [] st;
      SetContent x1 y2 RuneLLCorner [] st;
      SetContent x2 y2 RuneLRCorner [] st;
      Show].

(** The runes a run writes, in order: the rune of each cell, or the
    combining runes put on it. *)
Definition runes_of (e : event) : list ascii :=
  match e with
  | SetContent _ _ g comb _ =>
      match comb, g with
      | [], Rune c => [c]
      | _, _ => comb
      end
  | _ => []
  end.

Definition written (tr : list event) : list ascii := flat_map runes_of tr.

(** The log entries of a run. *)
Definition logged (tr : list event) : list event :=
  filter (fun e => match e with
                   | LogError _ | LogInfo _ => true
                   | _ => false
                   end) tr.

(** Runes one cell wide, or zero-width runes, which [emitStr] puts on a
    cell of their own. *)
Definition narrow_runes (RuneWidth : ascii -> Z) : Prop :=
  forall c, 0 <= RuneWidth c <= 1.

(** Runes one cell wide each. *)
Definition one_cell_runes (RuneWidth : ascii -> Z) : Prop :=
  forall c, RuneWidth c = 1.

(** What Go guarantees of a builder: after [Grow(n)] there is room for
    [n] bytes. *)
Definition grows (BuilderCap : Z -> Z) : Prop :=
  forall n, 0 <= n -> n <= BuilderCap n.

(** A text within the embedding: single-byte characters, and as long as
    a Go string can be. *)
Definition plain (s : string) : Prop := single_byte s /\ len s <= max_int.

(** Coordinates and texts with which no [int] of [drawSection] wraps
    around: at most 2^60 for a coordinate or a size, at most 2^32 bytes in
    a text. *)
Definition max_coordinate : Z := 1152921504606846976.

Definition short (s : string) : Prop := single_byte s /\ len s <= max_text.

Definition short_texts (sn : Section_) : Prop :=
  short (Label sn) /\ Forall (fun kv => short (btext (snd kv))) (Aliases sn).

(** The rows that the blocks of [labels] take when stacked in one column,
    each with its frame. *)
Fixpoint stackHeight (pw : Z) (sm : gomap Section_) (labels : list string)
  : option Z :=
  match labels with
  | [] => Some 0
  | sl :: rest =>
      let? bh := bodyHeight (sub pw 2) (Aliases (getSection sm sl)) 0 in
      let? t := stackHeight pw sm rest in
      Some (bh + 2 + t)
  end.

(** The groups of a collection as the parser builds them: texts within the
    embedding, and one item per name. *)
Definition plain_sections (sm : gomap Section_) : Prop :=
  Forall (fun kv => short_texts (snd kv) /\ NoDup (keys (Aliases (snd kv))))
         sm.

(** Labels that fit between the corners of a frame [pw] cells wide, with a
    cell to spare on each side: [drawSection] does not cut them. *)
Definition labels_fit (pw : Z) (sm : gomap Section_) : Prop :=
  Forall (fun kv => len (Label (snd kv)) <= pw - 4) sm.

(** A rendered block that shows every item of its group. *)
Definition shown_in_full (sm : gomap Section_)
           (b : string * list string) : Prop :=
  snd b = sortStrings (keys (Aliases (getSection sm (fst b)))).

(* ================================================================= *)
(** ** Sample content *)

Module sample.

(** Every character one cell wide. *)
Definition narrow : ascii -> Z := fun _ => 1.

(** Two capacities of a builder after [Grow(n)].  A runtime that allocates
    what is asked for: *)
Definition exact : Z -> Z := fun n => n.

(** and the runtime of the current Go toolchains, which rounds the request
    up to a size class of its allocator, or to whole pages of 8192 bytes
    above the largest class; [Grow(0)] allocates nothing. *)
Definition size_classes : list Z :=
  [8; 16; 24; 32; 48; 64; 80; 96; 112; 128; 144; 160; 176; 192; 208; 224;
   240; 256; 288; 320; 352; 384; 416; 448; 480; 512; 576; 640; 704; 768;
   896; 1024; 1152; 1280; 1408; 1536; 1792; 2048; 2304; 2688; 3072; 3200;
   3456; 4096; 4864; 5120; 5376; 6144; 6528; 6784; 6912; 8192; 9472; 9728;
   10240; 10880; 12288; 13568; 14336; 16384; 18432; 19072; 20480; 21760;
   24576; 27264; 28672; 32768].

Definition size_class (n : Z) : Z :=
  if n <=? 0 then 0
  else match find (fun c => n <=? c) size_classes with
       | Some c => c
       | None => (n + 8191) / 8192 * 8192
       end.

Definition alias (n c : string) : string * Alias :=
  (n, mkAlias n c EmptyString).

Definition git : Section_ :=
  mkSection "git" [alias "gs" "git status"; alias "gl" "git log"].

Definition veggies : Section_ :=
  mkSection "Veggies" [alias "carv" "carrot --version"].

(** The same mapping twice, its entries in two different orders. *)
Definition sections : gomap Section_ :=
  [("git"%string, git); ("Veggies"%string, veggies)].

Definition git' : Section_ :=
  mkSection "git" [alias "gl" "git log"; alias "gs" "git status"].

Definition sections' : gomap Section_ :=
  [("Veggies"%string, veggies); ("git"%string, git')].

(** A later definition of [gs], and a new item. *)
Definition git_local : Section_ :=
  mkSection "git" [alias "gs" "git status -sb"; alias "gd" "git diff"].

(** Four items of one line each, and six. *)
Definition four : Section_ :=
  mkSection "A"
    [alias "a" "w"; alias "b" "x"; alias "c" "y"; alias "d" "z"].

Definition six : Section_ :=
  mkSection "A"
    [alias "a" "u"; alias "b" "v"; alias "c" "w";
     alias "d" "x"; alias "e" "y"; alias "f" "z"].

(** Three blocks for two columns of twelve rows: "A" and "B" of four
    lines each, "C" of nine. *)
Definition four_b : Section_ :=
  mkSection "B"
    [alias "a" "w"; alias "b" "x"; alias "c" "y"; alias "d" "z"].

Definition nine : Section_ :=
  mkSection "C"
    [alias "a" "r"; alias "b" "s"; alias "c" "t"; alias "d" "u";
     alias "e" "v"; alias "f" "w"; alias "g" "x"; alias "h" "y";
     alias "i" "z"].

Definition three_blocks : gomap Section_ :=
  [("B"%string, four_b); ("C"%string, nine); ("A"%string, four)].

(** One group under a label of thirty characters. *)
Definition long_label : gomap Section_ :=
  [("abcdefghijklmnopqrstuvwxyz0123"%string,
    mkSection "abcdefghijklmnopqrstuvwxyz0123" [alias "a" "x"])].

Definition two_blocks : gomap Section_ :=
  [("A"%string, mkSection "A" [alias "a" "x"]);
   ("B"%string, mkSection "B" [alias "b" "y"])].

End sample.

(* ================================================================= *)
(** * Properties *)

(** ** Go integers: when nothing wraps *)

Lemma wrap_small (z : Z) : in_int z -> wrap z = z.
Proof.
  unfold in_int, wrap, min_int, max_int, modulus. intros Hz.
  rewrite Z.mod_small; lia.
Qed.

Lemma wrap_in_int (z : Z) : in_int (wrap z).
Proof.
  unfold in_int, wrap, min_int, max_int, modulus.
  pose proof (Z.mod_pos_bound (z - -9223372036854775808) 18446744073709551616).
  lia.
Qed.

Lemma wrap_wrap_add (x y : Z) : wrap (wrap x + y) = wrap (x + y).
Proof.
  unfold wrap.
  replace ((x - min_int) mod modulus + min_int + y - min_int)
    with ((x - min_int) mod modulus + y) by lia.
  replace (x + y - min_int) with ((x - min_int) + y) by lia.
  rewrite Zplus_mod_idemp_l. reflexivity.
Qed.

Lemma add_comm_assoc (x y z : Z) : add (add x y) z = add (add x z) y.
Proof.
  unfold add. rewrite !wrap_wrap_add. f_equal. lia.
Qed.

Lemma add_small (x y : Z) : in_int (x + y) -> add x y = x + y.
Proof. apply wrap_small. Qed.

Lemma sub_small (x y : Z) : in_int (x - y) -> sub x y = x - y.
Proof. apply wrap_small. Qed.

Lemma mul_small (x y : Z) : in_int (x * y) -> mul x y = x * y.
Proof. apply wrap_small. Qed.

Lemma quo_eq (x y : Z) : y <> 0 -> quo x y = Some (wrap (Z.quot x y)).
Proof.
  intros Hy. unfold quo. destruct (Z.eqb_spec y 0); [contradiction|reflexivity].
Qed.

Lemma quo_small (x y : Z) :
  y <> 0 -> in_int (Z.quot x y) -> quo x y = Some (Z.quot x y).
Proof. intros Hy Hr. rewrite quo_eq by assumption. now rewrite wrap_small. Qed.

(** From here on the arithmetic of [int] is used through the lemmas above
    only; concrete values are computed with [vm_compute]. *)
#[global] Opaque wrap add sub mul.

Lemma quo_pos (x y : Z) :
  0 <= x <= max_int -> 0 < y -> quo x y = Some (x / y).
Proof.
  intros Hx Hy. unfold quo.
  destruct (Z.eqb_spec y 0) as [E|_]; [lia|].
  rewrite Z.quot_div_nonneg by lia.
  rewrite wrap_small; [reflexivity|].
  pose proof (Z.div_pos x y). pose proof (Z.div_le_upper_bound x y x).
  unfold in_int, min_int. split; [lia|].
  assert (x / y <= x) by (apply Z.div_le_upper_bound; nia). lia.
Qed.

Lemma rem_pos (x y : Z) : 0 <= x -> 0 < y -> rem x y = Some (x mod y).
Proof.
  intros Hx Hy. unfold rem.
  destruct (Z.eqb_spec y 0) as [E|_]; [lia|].
  rewrite Z.rem_mod_nonneg by lia. reflexivity.
Qed.

Lemma Some_eq {A : Type} (a b : A) : Some a = Some b -> a = b.
Proof. now intros [= ->]. Qed.

Ltac int_range := unfold in_int, min_int, max_int in *; lia.

(** Replace the operations of [int] by those of [Z] wherever the result is
    seen to be in range. *)
Ltac unwrap :=
  repeat match goal with
         | |- context [add ?a ?b] => rewrite (add_small a b) by int_range
         | |- context [sub ?a ?b] => rewrite (sub_small a b) by int_range
         | |- context [mul ?a ?b] => rewrite (mul_small a b) by int_range
         end.

Ltac unwrap_in H :=
  repeat match type of H with
         | context [add ?a ?b] => rewrite (add_small a b) in H by int_range
         | context [sub ?a ?b] => rewrite (sub_small a b) in H by int_range
         | context [mul ?a ?b] => rewrite (mul_small a b) in H by int_range
         end.

(** ** Strings *)

Lemma len_nonneg (s : string) : 0 <= len s.
Proof. unfold len. lia. Qed.

Lemma length_append (s1 s2 : string) :
  String.length (s1 ++ s2) = (String.length s1 + String.length s2)%nat.
Proof. induction s1 as [|c s1 IH]; simpl; [reflexivity|now rewrite IH]. Qed.

Lemma len_append (s1 s2 : string) : len (s1 ++ s2) = len s1 + len s2.
Proof. unfold len. rewrite length_append. lia. Qed.

Lemma length_runes (s : string) : List.length (runes s) = String.length s.
Proof. induction s as [|c s IH]; simpl; [reflexivity|now rewrite IH]. Qed.

Lemma length_string_of_list_ascii (l : list ascii) :
  String.length (string_of_list_ascii l) = List.length l.
Proof. induction l as [|c l IH]; simpl; [reflexivity|now rewrite IH]. Qed.

Lemma substring_firstn (k : nat) (s : string) :
  substring 0 k s = string_of_list_ascii (firstn k (runes s)).
Proof.
  revert s. induction k as [|k IH]; intros [|c s]; simpl; try reflexivity.
  now rewrite IH.
Qed.

Lemma string_of_list_ascii_app (l1 l2 : list ascii) :
  string_of_list_ascii (l1 ++ l2)
  = (string_of_list_ascii l1 ++ string_of_list_ascii l2)%string.
Proof. induction l1 as [|c l1 IH]; simpl; [reflexivity|now rewrite IH]. Qed.

Lemma append_assoc (s1 s2 s3 : string) :
  ((s1 ++ s2) ++ s3 = s1 ++ (s2 ++ s3))%string.
Proof. induction s1 as [|c s1 IH]; simpl; [reflexivity|now rewrite IH]. Qed.

Lemma append_empty_r (s : string) : (s ++ EmptyString)%string = s.
Proof. induction s as [|c s IH]; simpl; [reflexivity|now rewrite IH]. Qed.

(** ** Maps *)

Lemma lookup_store {V : Type} (k k' : string) (v : V) (m : gomap V) :
  lookup k (store k' v m) = if String.eqb k k' then Some v else lookup k m.
Proof.
  induction m as [|[k0 v0] m IH]; simpl.
  - reflexivity.
  - destruct (String.eqb_spec k' k0) as [->|Hne]; simpl.
    + destruct (String.eqb_spec k k0); reflexivity.
    + destruct (String.eqb_spec k k0) as [->|Hne'].
      * destruct (String.eqb_spec k0 k') as [E|_]; [congruence|reflexivity].
      * exact IH.
Qed.

Lemma lookup_None {V : Type} (k : string) (m : gomap V) :
  lookup k m = None <-> ~ In k (keys m).
Proof.
  induction m as [|[k0 v0] m IH]; simpl.
  - tauto.
  - destruct (String.eqb_spec k k0) as [->|Hne].
    + split; [discriminate|]. intros H. exfalso. apply H. now left.
    + rewrite IH. split.
      * intros H [E|Hin]; [congruence|tauto].
      * tauto.
Qed.

Lemma lookup_In {V : Type} (k : string) (v : V) (m : gomap V) :
  NoDup (keys m) -> (lookup k m = Some v <-> In (k, v) m).
Proof.
  induction m as [|[k0 v0] m IH]; simpl; intros Hnd.
  - split; [discriminate|tauto].
  - inversion Hnd as [|? ? Hnotin Hnd']; subst.
    destruct (String.eqb_spec k k0) as [->|Hne].
    + split.
      * intros [= ->]. now left.
      * intros [[= ->]|Hin]; [reflexivity|].
        exfalso. apply Hnotin. unfold keys. apply in_map_iff.
        exists (k0, v). split; [reflexivity|assumption].
    + rewrite (IH Hnd'). split.
      * intros H. now right.
      * intros [[= -> ->]|Hin]; [congruence|assumption].
Qed.


(** ** Sorting *)

Lemma leb_trans (s1 s2 s3 : string) :
  lex_le s1 s2 -> lex_le s2 s3 -> lex_le s1 s3.
Proof.
  unfold lex_le, String.leb. intros H12 H23.
  destruct (String.compare s1 s2) eqn:E12; try discriminate.
  - apply String_as_OT.cmp_eq in E12. subst. exact H23.
  - destruct (String.compare s2 s3) eqn:E23; try discriminate.
    + apply String_as_OT.cmp_eq in E23. subst. now rewrite E12.
    + apply String_as_OT.cmp_lt in E12, E23.
      pose proof (String_as_OT.lt_trans _ _ _ E12 E23) as H13.
      apply String_as_OT.cmp_lt in H13. unfold String_as_OT.cmp in H13.
      now rewrite H13.
Qed.

Lemma leb_false_le (s1 s2 : string) : String.leb s1 s2 = false -> lex_le s2 s1.
Proof.
  intros H. destruct (String.leb_total s1 s2) as [H'|H']; [congruence|exact H'].
Qed.

Lemma insertString_perm (x : string) (l : list string) :
  Permutation (insertString x l) (x :: l).
Proof.
  induction l as [|y l IH]; simpl; [apply Permutation_refl|].
  destruct (String.leb x y); [apply Permutation_refl|].
  apply perm_trans with (y :: x :: l); [now apply perm_skip|apply perm_swap].
Qed.

Lemma sortStrings_perm (l : list string) : Permutation (sortStrings l) l.
Proof.
  induction l as [|x l IH]; simpl; [apply perm_nil|].
  apply perm_trans with (x :: sortStrings l);
    [apply insertString_perm|now apply perm_skip].
Qed.

Lemma insertString_sorted (x : string) (l : list string) :
  StronglySorted lex_le l -> StronglySorted lex_le (insertString x l).
Proof.
  induction l as [|y l IH]; simpl; intros Hs.
  - constructor; [constructor|constructor].
  - apply StronglySorted_inv in Hs as [Hs Hall].
    destruct (String.leb x y) eqn:E.
    + constructor; [constructor; assumption|].
      constructor; [exact E|].
      eapply Forall_impl; [|exact Hall].
      intros z Hz. eapply leb_trans; [exact E|exact Hz].
    + constructor; [apply IH; assumption|].
      apply (Permutation_Forall (Permutation_sym (insertString_perm x l))).
      constructor; [now apply leb_false_le|exact Hall].
Qed.

Lemma sortStrings_sorted (l : list string) :
  StronglySorted lex_le (sortStrings l).
Proof.
  induction l as [|x l IH]; simpl;
    [constructor|now apply insertString_sorted].
Qed.

(** A list has one sorted arrangement. *)
Lemma sorted_perm_unique (l1 : list string) :
  forall l2,
    StronglySorted lex_le l1 -> StronglySorted lex_le l2 ->
    Permutation l1 l2 -> l1 = l2.
Proof.
  induction l1 as [|a l1 IH]; intros l2 H1 H2 Hp.
  - apply Permutation_nil in Hp. now subst.
  - destruct l2 as [|b l2];
      [apply Permutation_sym, Permutation_nil in Hp; discriminate|].
    apply StronglySorted_inv in H1 as [H1 Ha].
    apply StronglySorted_inv in H2 as [H2 Hb].
    assert (a = b) as ->.
    { assert (In a (b :: l2)) as Hin1
          by (apply (Permutation_in _ Hp); now left).
      assert (In b (a :: l1)) as Hin2
          by (apply (Permutation_in _ (Permutation_sym Hp)); now left).
      rewrite Forall_forall in Ha, Hb.
      destruct Hin1 as [->|Hin1]; [reflexivity|].
      destruct Hin2 as [->|Hin2]; [reflexivity|].
      apply String.leb_antisym; [apply Ha|apply Hb]; assumption. }
    f_equal. apply IH; try assumption.
    now apply Permutation_cons_inv in Hp.
Qed.

(** The sorted labels do not depend on the order of iteration of the map. *)
Lemma sortStrings_perm_eq (l1 l2 : list string) :
  Permutation l1 l2 -> sortStrings l1 = sortStrings l2.
Proof.
  intros Hp. apply sorted_perm_unique; try apply sortStrings_sorted.
  apply perm_trans with l1; [apply sortStrings_perm|].
  apply perm_trans with l2; [exact Hp|apply Permutation_sym, sortStrings_perm].
Qed.

(** ** Equal mappings *)

Lemma same_map_keys {V : Type} (m1 m2 : gomap V) :
  same_map m1 m2 -> Permutation (keys m1) (keys m2).
Proof.
  intros (Hnd1 & Hnd2 & Hlk).
  apply NoDup_Permutation; try assumption.
  intros k. pose proof (lookup_None k m1) as H1.
  pose proof (lookup_None k m2) as H2. rewrite Hlk in H1.
  destruct (in_dec string_dec k (keys m1)) as [Hi1|Hn1];
    destruct (in_dec string_dec k (keys m2)) as [Hi2|Hn2]; tauto.
Qed.

Lemma same_map_entries {V : Type} (m1 m2 : gomap V) :
  same_map m1 m2 -> Permutation m1 m2.
Proof.
  intros (Hnd1 & Hnd2 & Hlk).
  apply NoDup_Permutation.
  - eapply NoDup_map_inv. exact Hnd1.
  - eapply NoDup_map_inv. exact Hnd2.
  - intros [k v]. rewrite <- !lookup_In by assumption. now rewrite Hlk.
Qed.

Lemma same_map_refl {V : Type} (m : gomap V) : NoDup (keys m) -> same_map m m.
Proof. intros H. repeat split; assumption. Qed.

Lemma same_sections_keys (sm1 sm2 : gomap Section_) :
  same_sections sm1 sm2 -> Permutation (keys sm1) (keys sm2).
Proof.
  intros (Hnd1 & Hnd2 & Hlk).
  apply NoDup_Permutation; try assumption.
  intros k. pose proof (lookup_None k sm1) as H1.
  pose proof (lookup_None k sm2) as H2. specialize (Hlk k).
  destruct (lookup k sm1), (lookup k sm2); try contradiction.
  - split; intros _.
    + destruct (in_dec string_dec k (keys sm2)) as [Hi|Hn]; [exact Hi|].
      apply H2 in Hn. discriminate.
    + destruct (in_dec string_dec k (keys sm1)) as [Hi|Hn]; [exact Hi|].
      apply H1 in Hn. discriminate.
  - split; intros Hin; exfalso; [apply (proj1 H1)|apply (proj1 H2)];
      auto.
Qed.

Lemma same_sections_get (sm1 sm2 : gomap Section_) (sl : string) :
  same_sections sm1 sm2 ->
  same_section (getSection sm1 sl) (getSection sm2 sl).
Proof.
  intros (_ & _ & Hlk). specialize (Hlk sl). unfold getSection.
  destruct (lookup sl sm1), (lookup sl sm2); try contradiction.
  - exact Hlk.
  - split; [reflexivity|]. apply same_map_refl. constructor.
Qed.

(** ** Outcomes and traces *)

Lemma after_nil {A : Type} (o : outcome A) : after [] o = o.
Proof. destruct o; reflexivity. Qed.

Lemma after_after {A : Type} (t1 t2 : list event) (o : outcome A) :
  after t1 (after t2 o) = after (t1 ++ t2) o.
Proof. destruct o; simpl; rewrite app_assoc; reflexivity. Qed.

Lemma trace_after {A : Type} (pre : list event) (o : outcome A) :
  trace (after pre o) = pre ++ trace o.
Proof. destruct o; reflexivity. Qed.

Lemma bind_lift_Some {A B : Type} (a : A) (k : A -> outcome B) :
  bind (lift (Some a)) k = k a.
Proof. simpl. apply after_nil. Qed.

Lemma bind_lift_None {A B : Type} (k : A -> outcome B) :
  bind (lift None) k = Panic [].
Proof. reflexivity. Qed.

Lemma bind_emit {B : Type} (evs : list event) (k : unit -> outcome B) :
  bind (emit evs) k = after evs (k tt).
Proof. reflexivity. Qed.

Lemma trace_bind {A B : Type} (m : outcome A) (k : A -> outcome B) :
  trace (bind m k)
  = trace m ++ match m with
               | Done _ a => trace (k a)
               | _ => []
               end.
Proof.
  destruct m; simpl; [apply trace_after| |]; now rewrite app_nil_r.
Qed.

Lemma placements_app (t1 t2 : list event) :
  placements (t1 ++ t2) = placements t1 ++ placements t2.
Proof.
  induction t1 as [|e t1 IH]; [reflexivity|].
  destruct e; simpl; rewrite IH; reflexivity.
Qed.

Lemma items_app (t1 t2 : list event) :
  items (t1 ++ t2) = items t1 ++ items t2.
Proof.
  induction t1 as [|e t1 IH]; [reflexivity|].
  destruct e; simpl; rewrite IH; reflexivity.
Qed.


(** ** Text shaper: [minHeight] *)

Lemma minHeight_pos (w : Z) (t : string) :
  1 <= w -> len t <= max_int ->
  minHeight w t
  = Some (if len t mod w >? 0 then len t / w + 1 else len t / w).
Proof.
  intros Hw Ht. pose proof (len_nonneg t) as H0.
  unfold minHeight.
  rewrite quo_pos by lia. rewrite rem_pos by lia. simpl.
  destruct (Z.gtb_spec (len t mod w) 0) as [Hr|Hr]; [|reflexivity].
  rewrite (add_small (len t / w) 1); [reflexivity|].
  pose proof (Z.div_mod (len t) w ltac:(lia)) as Hdm.
  pose proof (Z.mod_pos_bound (len t) w ltac:(lia)) as Hb.
  assert (0 <= len t / w) by (apply Z.div_pos; lia).
  assert (len t / w < len t) by nia.
  int_range.
Qed.

Lemma ceiling_formula (a w : Z) :
  0 <= a -> 1 <= w ->
  (a + w - 1) / w = if a mod w >? 0 then a / w + 1 else a / w.
Proof.
  intros Ha Hw.
  pose proof (Z.div_mod a w ltac:(lia)) as Hdm.
  pose proof (Z.mod_pos_bound a w ltac:(lia)) as Hb.
  destruct (Z.gtb_spec (a mod w) 0) as [Hr|Hr].
  - symmetry. apply (Z.div_unique _ _ _ (a mod w - 1)); lia.
  - symmetry. apply (Z.div_unique _ _ _ (w - 1)); lia.
Qed.

Lemma minHeight_ceiling (w : Z) (t : string) :
  1 <= w -> len t <= max_int ->
  minHeight w t = Some ((len t + w - 1) / w).
Proof.
  intros Hw Ht. rewrite minHeight_pos by assumption.
  rewrite ceiling_formula by (pose proof (len_nonneg t); lia). reflexivity.
Qed.

(** C6.  For every width [w >= 1] the required height [minHeight w t] of a
    text is the ceiling of [len t / w]: the one integer [h] with
    [(h - 1) * w < len t <= h * w], which is [(len t + w - 1) / w]; it does not
    decrease when the text gets longer at a fixed width; the empty text needs
    height 0; and a text of 25 characters needs height 3 at width 10. *)
Theorem C6_requiredHeight_ceiling_monotone :
  forall (w : Z) (t t' : string),
    1 <= w -> len t <= len t' -> len t' <= max_int ->
    (exists h, minHeight w t = Some h
               /\ h = (len t + w - 1) / w
               /\ (h - 1) * w < len t <= h * w)
    /\ (exists h h', minHeight w t = Some h /\ minHeight w t' = Some h' /\ h <= h')
    /\ minHeight w EmptyString = Some 0
    /\ (forall s, String.length s = 25%nat -> minHeight 10 s = Some 3).
Proof.
  intros w t t' Hw Hle Hmax.
  pose proof (len_nonneg t) as Ht0.
  split; [|split; [|split]].
  - exists ((len t + w - 1) / w). split; [apply minHeight_ceiling; lia|].
    split; [reflexivity|].
    pose proof (Z.div_mod (len t + w - 1) w ltac:(lia)) as Hdm.
    pose proof (Z.mod_pos_bound (len t + w - 1) w ltac:(lia)) as Hb.
    nia.
  - exists ((len t + w - 1) / w), ((len t' + w - 1) / w).
    rewrite !minHeight_ceiling by lia.
    split; [reflexivity|]. split; [reflexivity|].
    apply Z.div_le_mono; lia.
  - rewrite minHeight_ceiling by (cbn; int_range).
    f_equal. change (len EmptyString) with 0.
    apply Z.div_small. lia.
  - intros s Hs. rewrite minHeight_ceiling; unfold len; rewrite ?Hs;
      [reflexivity|lia|int_range].
Qed.


(** ** Text shaper: [truncate] *)

Lemma skipn_nth_error {A : Type} (l : list A) (k : nat) :
  (k < List.length l)%nat ->
  exists c, nth_error l k = Some c /\ skipn k l = c :: skipn (S k) l.
Proof.
  revert k. induction l as [|a l IH]; intros k Hk; simpl in Hk; [lia|].
  destruct k as [|k].
  - exists a. split; reflexivity.
  - destruct (IH k ltac:(lia)) as (c & Hn & Hs).
    exists c. split; [exact Hn|exact Hs].
Qed.

(** The copying loops of [truncate] never read past the runes and copy the
    runes from [i] on. *)
Lemma writeRunes_copy (n : nat) :
  forall (rs : list ascii) (i : Z) (b : string),
    0 <= i ->
    i + Z.of_nat n <= Z.of_nat (List.length rs) ->
    Z.of_nat (List.length rs) <= max_int ->
    writeRunes n rs i b
    = Some (i + Z.of_nat n,
            (b ++ string_of_list_ascii (firstn n (skipn (Z.to_nat i) rs)))%string).
Proof.
  induction n as [|n IH]; intros rs i b Hi Hlen Hmax.
  - simpl. rewrite append_empty_r. f_equal. f_equal. lia.
  - cbn [writeRunes]. unfold index.
    destruct (Z.ltb_spec i 0) as [Hneg|_]; [lia|].
    destruct (skipn_nth_error rs (Z.to_nat i) ltac:(lia)) as (c & Hn & Hs).
    rewrite Hn. cbn [obind].
    unwrap.
    rewrite IH by lia.
    rewrite Hs. replace (Z.to_nat (i + 1)) with (S (Z.to_nat i)) by lia.
    cbn [firstn string_of_list_ascii].
    rewrite append_assoc. cbn [append].
    f_equal. f_equal. lia.
Qed.

Lemma len_substring_prefix (k : nat) (s : string) :
  (k <= String.length s)%nat -> len (substring 0 k s) = Z.of_nat k.
Proof.
  intros Hk. unfold len.
  rewrite substring_firstn, length_string_of_list_ascii, length_firstn.
  rewrite length_runes. lia.
Qed.

(** The copying loops read past the runes when they are to run beyond the
    last one: an index out of range. *)
Lemma writeRunes_overrun (n : nat) :
  forall (rs : list ascii) (i : Z) (b : string),
    0 <= i <= Z.of_nat (List.length rs) ->
    Z.of_nat (List.length rs) < i + Z.of_nat n ->
    Z.of_nat (List.length rs) <= max_int ->
    writeRunes n rs i b = None.
Proof.
  induction n as [|n IH]; intros rs i b Hi Hlen Hmax; [lia|].
  cbn [writeRunes]. unfold index.
  destruct (Z.ltb_spec i 0) as [Hneg|_]; [lia|].
  destruct (Z.eq_dec i (Z.of_nat (List.length rs))) as [E|Hne].
  - assert (nth_error rs (Z.to_nat i) = None) as ->
        by (apply nth_error_None; lia).
    reflexivity.
  - destruct (skipn_nth_error rs (Z.to_nat i) ltac:(lia)) as (c & Hn & _).
    rewrite Hn. cbn [obind].
    rewrite (add_small i 1) by int_range.
    apply IH; lia.
Qed.

Section Truncate.

Variable BuilderCap : Z -> Z.

Lemma truncate_negative (s : string) (w : Z) :
w < 0 ->
truncate BuilderCap s w
= Some (EmptyString, Some "w cannot be negative"%string).
Proof.
intros Hw. unfold truncate.
destruct (Z.ltb_spec w 0) as [_|?]; [reflexivity|lia].
Qed.

(** A text that fits is returned as it is: no builder is used. *)
Lemma truncate_fit (s : string) (w : Z) :
0 <= w -> len s <= w -> truncate BuilderCap s w = Some (s, None).
Proof.
intros Hw Hle. unfold truncate.
destruct (Z.ltb_spec w 0) as [?|_]; [lia|].
destruct (Z.leb_spec (len s) w) as [_|?]; [reflexivity|lia].
Qed.

(** With a capacity of at least 4 the text is cut to three characters less
  than the capacity and the marker is appended. *)
Lemma truncate_marked (text : string) (w : Z) :
0 <= w < len text -> len text <= max_int ->
4 <= BuilderCap w <= len text + 3 ->
truncate BuilderCap text w
= Some ((substring 0 (Z.to_nat (BuilderCap w - 3)) text ++ "...")%string,
        None).
Proof.
intros Hw Hmax Hc. unfold truncate.
destruct (Z.ltb_spec w 0) as [?|_]; [lia|].
destruct (Z.leb_spec (len text) w) as [?|_]; [lia|].
rewrite (sub_small (BuilderCap w) 3) by int_range.
unfold len in *.
rewrite writeRunes_copy by (rewrite ?length_runes; lia).
cbn [obind fst snd skipn Z.to_nat append].
rewrite <- substring_firstn.
pose proof (len_substring_prefix (Z.to_nat (BuilderCap w - 3)) text
                                 ltac:(lia)) as Hl.
unfold len in Hl.
destruct (Z.gtb_spec
            (Z.of_nat (String.length
                         (substring 0 (Z.to_nat (BuilderCap w - 3)) text))) 0)
  as [_|Hz]; [reflexivity|lia].
Qed.

(** With a capacity of at most 3 there is no room for a character before
  the marker: the text is cut to the capacity and no marker is appended. *)
Lemma truncate_unmarked (text : string) (w : Z) :
0 <= w < len text -> len text <= max_int ->
0 <= BuilderCap w <= 3 -> BuilderCap w <= len text ->
truncate BuilderCap text w
= Some (substring 0 (Z.to_nat (BuilderCap w)) text, None).
Proof.
intros Hw Hmax Hc Hcl. unfold truncate.
destruct (Z.ltb_spec w 0) as [?|_]; [lia|].
destruct (Z.leb_spec (len text) w) as [?|_]; [lia|].
rewrite (sub_small (BuilderCap w) 3) by int_range.
replace (Z.to_nat (BuilderCap w - 3)) with 0%nat by lia.
cbn [writeRunes obind fst snd].
change (len EmptyString >? 0) with false. cbv iota.
unfold len in *.
rewrite writeRunes_copy by (rewrite ?length_runes; lia).
cbn [obind fst snd skipn Z.to_nat append].
rewrite <- substring_firstn.
replace (BuilderCap w - 0) with (BuilderCap w) by lia. reflexivity.
Qed.

(** With a capacity more than 3 above the length of the text, the first
  loop reads past the last rune. *)
Lemma truncate_overrun (text : string) (w : Z) :
0 <= w < len text -> len text <= max_int ->
len text + 3 < BuilderCap w <= max_int ->
truncate BuilderCap text w = None.
Proof.
intros Hw Hmax Hc. unfold truncate.
destruct (Z.ltb_spec w 0) as [?|_]; [lia|].
destruct (Z.leb_spec (len text) w) as [?|_]; [lia|].
rewrite (sub_small (BuilderCap w) 3) by int_range.
unfold len in *.
rewrite writeRunes_overrun by (rewrite ?length_runes; lia).
reflexivity.
Qed.

End Truncate.

(** C4, as the code has it where the capacity of the builder is the width
    asked for.  For every text of single-byte characters longer than [w] and
    every capacity function with [BuilderCap w = w]: for [w >= 4], [truncate]
    returns a string of exactly [w] characters, the first [w - 3] characters
    of the text followed by the marker "..."; for [0 <= w <= 3] it returns
    the first [w] characters of the text and no marker; and
    [truncate "hello world" 8] is "hello...", with the capacity 8 that the
    runtime of the current toolchains gives for 8 as with an exact one. *)
Theorem C4_truncate_ellipsis_from_width_4 :
  forall (BuilderCap : Z -> Z) (text : string) (w : Z),
    single_byte text ->
    0 <= w < len text -> len text <= max_int ->
    BuilderCap w = w ->
    (exists r,
        truncate BuilderCap text w = Some (r, None)
        /\ len r = w
        /\ r = if 4 <=? w
               then (substring 0 (Z.to_nat (w - 3)) text ++ "...")%string
               else substring 0 (Z.to_nat w) text)
    /\ truncate sample.size_class "hello world" 8
       = Some ("hello..."%string, None)
    /\ truncate sample.exact "hello world" 8 = Some ("hello..."%string, None).
Proof.
  intros BuilderCap text w _ Hw Hmax Hcap.
  split; [|split; vm_compute; reflexivity].
  destruct (Z.leb_spec 4 w) as [H4|H4].
  - eexists. split; [apply truncate_marked; lia|]. rewrite Hcap.
    split; [|reflexivity].
    rewrite len_append, len_substring_prefix by (unfold len in *; lia).
    change (len "...") with 3. lia.
  - eexists. split; [apply truncate_unmarked; lia|]. rewrite Hcap.
    split; [|reflexivity].
    rewrite len_substring_prefix by (unfold len in *; lia). lia.
Qed.

Lemma not_marked_three (r : string) :
  len r = 3 -> r <> "..."%string -> forall p, r <> (p ++ "...")%string.
Proof.
  intros Hlen Hne p E. apply Hne. subst r.
  rewrite len_append in Hlen. change (len "...") with 3 in Hlen.
  destruct p as [|c p]; [reflexivity|].
  unfold len in Hlen. cbn [String.length] in Hlen. lia.
Qed.

(** C4, as the specification states it, fails at width 3 whatever the
    capacity of the builder is: with a capacity of exactly 3 the five
    characters of "hello" are cut to "hel", which does not end with the
    marker; with the capacity 8 of the current runtime the result is
    "hello...", eight characters and not three; and so for every capacity
    that [Grow] may give.  Where the capacity is above the width the result
    is not of the width at larger widths either: with the capacity 16 that
    the current runtime gives for 9, cutting ten characters to 9 reads past
    the last of them and panics. *)
Lemma C4_width_3_has_no_ellipsis :
  truncate sample.exact "hello" 3 = Some ("hel"%string, None)
  /\ truncate sample.size_class "hello" 3 = Some ("hello..."%string, None)
  /\ truncate sample.size_class "0123456789" 9 = None
  /\ single_byte "hello"
  /\ forall BuilderCap : Z -> Z,
      grows BuilderCap -> BuilderCap 3 <= max_int ->
      ~ (forall (text : string) (w : Z),
            single_byte text -> 3 <= w -> w < len text ->
            exists r p, truncate BuilderCap text w = Some (r, None)
                        /\ len r = w /\ r = (p ++ "...")%string).
Proof.
  assert (single_byte "hello") as Hsb by (repeat constructor).
  split; [vm_compute; reflexivity|]. split; [vm_compute; reflexivity|].
  split; [vm_compute; reflexivity|].
  split; [exact Hsb|].
  intros BuilderCap Hgrows Hint H.
  destruct (H "hello"%string 3 Hsb ltac:(lia) ltac:(cbn; lia))
    as (r & p & Ht & Hlen & Hr).
  pose proof (Hgrows 3 ltac:(lia)) as Hc.
  assert (len "hello" = 5) as H5 by reflexivity.
  destruct (Z.le_gt_cases (BuilderCap 3) 3) as [Hc3|Hc3].
  - rewrite (truncate_unmarked BuilderCap "hello" 3) in Ht
      by (rewrite ?H5; unfold max_int in *; lia).
    replace (BuilderCap 3) with 3 in Ht by lia.
    apply Some_eq in Ht.
    assert (r = "hel"%string) as Hr3 by (inversion Ht; reflexivity).
    apply (not_marked_three r Hlen) with (p := p); [|exact Hr].
    rewrite Hr3. discriminate.
  - destruct (Z.le_gt_cases (BuilderCap 3) 8) as [Hc8|Hc8].
    + rewrite (truncate_marked BuilderCap "hello" 3) in Ht
        by (rewrite ?H5; unfold max_int in *; lia).
      apply Some_eq in Ht.
      assert (len r = BuilderCap 3) as Hlen'.
      { assert (r = (substring 0 (Z.to_nat (BuilderCap 3 - 3)) "hello"
                     ++ "...")%string) as -> by (inversion Ht; reflexivity).
        rewrite len_append, len_substring_prefix
          by (change (String.length "hello") with 5%nat; lia).
        change (len "...") with 3. lia. }
      lia.
    + rewrite (truncate_overrun BuilderCap "hello" 3) in Ht
        by (rewrite ?H5; unfold max_int in *; lia).
      discriminate Ht.
Qed.

(** ** Column packer: [maxColumns] *)

Lemma maxColumns_eq (w : Z) :
  maxColumns w 40 50
  = (let? x2 := quo (sub w 2) 52 in Some (if x2 =? 0 then 1 else x2)).
Proof.
  unfold maxColumns.
  change (add 40 2) with 42. change (add 50 2) with 52.
  unfold quo at 1. simpl. reflexivity.
Qed.

(** C1.  What [maxColumns] computes for the panel widths 40 and 50: always
    the candidate for the larger width, [(w - 2) / 52], replaced by 1 when it
    is 0; the candidate for the smaller width is assigned and then
    overwritten.  On a window of width 100 the candidates are 2 and 1 and the
    function returns 1, where the earlier revision of the function returns
    the larger candidate, 2. *)
Theorem C1_maxColumns_returns_second_candidate :
  (forall w,
      maxColumns w 40 50
      = (let? x2 := quo (sub w 2) 52 in Some (if x2 =? 0 then 1 else x2)))
  /\ quo (sub 100 2) (add 40 2) = Some 2
  /\ quo (sub 100 2) (add 50 2) = Some 1
  /\ maxColumns 100 40 50 = Some 1
  /\ panel0.maxColumns 100 40 50 = Some 2.
Proof.
  split; [exact maxColumns_eq|repeat split; reflexivity].
Qed.

(** The shape of the column count used by the packer. *)
Lemma maxColumns_panel (w : Z) :
  10 <= w <= max_int ->
  exists nc, maxColumns w minPanelWidth maxPanelWidth = Some nc
             /\ 1 <= nc
             /\ (nc = 1 /\ w - 2 < 104 \/ 52 * nc <= w - 2 < 52 * nc + 52).
Proof.
  intros Hw.
  unfold minPanelWidth, maxPanelWidth. rewrite maxColumns_eq.
  unwrap.
  rewrite quo_pos by lia. cbn [obind].
  pose proof (Z.div_mod (w - 2) 52 ltac:(lia)) as Hdm.
  pose proof (Z.mod_pos_bound (w - 2) 52 ltac:(lia)) as Hb.
  assert (0 <= (w - 2) / 52) as Hq by (apply Z.div_pos; lia).
  destruct (Z.eqb_spec ((w - 2) / 52) 0) as [E|E].
  - exists 1. split; [reflexivity|]. split; [lia|]. left. lia.
  - exists ((w - 2) / 52). split; [reflexivity|]. split; [lia|]. right. lia.
Qed.

(** ** Package parser: merging *)

Lemma mergeAliases_lookup (entries : gomap Alias) :
  forall am : gomap Alias,
    NoDup (keys entries) ->
    exists tr am',
      mergeAliases entries am = Done tr am'
      /\ forall k, lookup k am'
                   = match lookup k entries with
                     | Some v => Some v
                     | None => lookup k am
                     end.
Proof.
  induction entries as [|[bk ba] rest IH]; intros am Hnd.
  - exists [], am. split; [reflexivity|]. intros k. reflexivity.
  - inversion Hnd as [|? ? Hnotin Hnd']; subst.
    destruct (IH (store bk ba am) Hnd') as (tr & am' & Hrun & Hlk).
    cbn [mergeAliases]. rewrite Hrun.
    destruct (lookup bk am) as [old|]; cbn [emit ret bind after];
      (eexists; exists am'; split; [reflexivity|]);
      intros k; rewrite Hlk, lookup_store; cbn [lookup];
      (destruct (String.eqb_spec k bk) as [->|Hne]; [|reflexivity]);
      apply lookup_None in Hnotin; rewrite Hnotin; reflexivity.
Qed.

(** C8.  Merging a group [b] into a group [a] returns, without failing, a
    group with the label of [a] in which every name has the item of [b] when
    [b] has one (so for a name of both groups the later definition wins) and
    the item of [a] otherwise. *)
Theorem C8_merge_last_write_wins :
  forall a b : Section_,
    NoDup (keys (Aliases b)) ->
    exists tr s,
      mergeSections a b = Done tr s
      /\ Label s = Label a
      /\ (forall k, lookup k (Aliases s)
                    = match lookup k (Aliases b) with
                      | Some item => Some item
                      | None => lookup k (Aliases a)
                      end)
      /\ (forall k ia ib,
             lookup k (Aliases a) = Some ia -> lookup k (Aliases b) = Some ib ->
             lookup k (Aliases s) = Some ib)
      /\ (forall k ib,
             lookup k (Aliases a) = None -> lookup k (Aliases b) = Some ib ->
             lookup k (Aliases s) = Some ib)
      /\ (forall k ia,
             lookup k (Aliases a) = Some ia -> lookup k (Aliases b) = None ->
             lookup k (Aliases s) = Some ia).
Proof.
  intros a b Hnd.
  destruct (mergeAliases_lookup (Aliases b) (Aliases a) Hnd)
    as (tr & am' & Hrun & Hlk).
  unfold mergeSections. rewrite Hrun. cbn [bind after ret].
  eexists. eexists. split; [reflexivity|]. cbn [Label Aliases].
  split; [reflexivity|]. split; [exact Hlk|].
  repeat split; intros; rewrite Hlk;
    repeat match goal with H : lookup _ _ = _ |- _ => rewrite H end;
    reflexivity.
Qed.

(** The merge of two collections: a label of both gets the merge of its two
    groups, any other label keeps its group. *)
Lemma mergeSections_done (a b : Section_) :
  exists tr s, mergeSections a b = Done tr s.
Proof.
  unfold mergeSections.
  assert (forall entries am, exists tr am',
             mergeAliases entries am = Done tr am') as Hloop.
  { induction entries as [|[bk ba] rest IH]; intros am.
    - exists [], am. reflexivity.
    - destruct (IH (store bk ba am)) as (tr & am' & Hrun).
      cbn [mergeAliases]. rewrite Hrun.
      destruct (lookup bk am); cbn [emit ret bind after];
        eexists; eexists; reflexivity. }
  destruct (Hloop (Aliases b) (Aliases a)) as (tr & am' & Hrun).
  rewrite Hrun. cbn [bind after ret]. eexists. eexists. reflexivity.
Qed.

Lemma mergeSectionMaps_lookup (b : gomap Section_) :
  forall a : gomap Section_,
    NoDup (keys b) ->
    exists tr a',
      mergeSectionMaps a b = Done tr a'
      /\ forall l,
          match lookup l b with
          | None => lookup l a' = lookup l a
          | Some bs =>
              match lookup l a with
              | None => lookup l a' = Some bs
              | Some as_ =>
                  exists tr' s,
                    mergeSections as_ bs = Done tr' s /\ lookup l a' = Some s
              end
          end.
Proof.
  induction b as [|[bk bs] rest IH]; intros a Hnd.
  - exists [], a. split; [reflexivity|]. intros l. reflexivity.
  - inversion Hnd as [|? ? Hnotin Hnd']; subst.
    apply lookup_None in Hnotin.
    cbn [mergeSectionMaps].
    destruct (lookup bk a) as [as_|] eqn:Hla.
    + destruct (mergeSections_done as_ bs) as (tr1 & s1 & Hm).
      rewrite Hm. cbn [bind after ret]. rewrite app_nil_r.
      destruct (IH (store bk s1 a) Hnd') as (tr2 & a' & Hrun & Hlk).
      rewrite Hrun. cbn [after]. eexists. exists a'.
      split; [reflexivity|]. intros l. specialize (Hlk l).
      cbn [lookup]. rewrite lookup_store in Hlk.
      destruct (String.eqb_spec l bk) as [E|Hne]; [subst l|].
      * rewrite Hnotin in Hlk. rewrite Hla. exists tr1, s1.
        split; [exact Hm|exact Hlk].
      * exact Hlk.
    + cbn [bind ret after].
      destruct (IH (store bk bs a) Hnd') as (tr2 & a' & Hrun & Hlk).
      rewrite Hrun. exists tr2, a'.
      split; [reflexivity|]. intros l. specialize (Hlk l).
      cbn [lookup]. rewrite lookup_store in Hlk.
      destruct (String.eqb_spec l bk) as [E|Hne]; [subst l|].
      * rewrite Hnotin in Hlk. rewrite Hla. exact Hlk.
      * exact Hlk.
Qed.


(** ** What the drawing primitives leave in the trace *)

Lemma drawing_only_unplaced (tr : list event) : drawing_only tr -> unplaced tr.
Proof.
  apply Forall_impl. intros e He. destruct e; try discriminate; reflexivity.
Qed.

Lemma unplaced_app (t1 t2 : list event) :
  unplaced t1 -> unplaced t2 -> unplaced (t1 ++ t2).
Proof. intros H1 H2. apply Forall_app. split; assumption. Qed.

Lemma unplaced_placements (tr : list event) : unplaced tr -> placements tr = [].
Proof.
  induction 1 as [|e tr He _ IH]; [reflexivity|].
  destruct e; try discriminate; simpl; exact IH.
Qed.

Lemma unplaced_rendered_app (t1 t2 : list event) :
  unplaced t1 -> rendered (t1 ++ t2) = rendered t2.
Proof.
  induction 1 as [|e t1 He _ IH]; [reflexivity|].
  destruct e; try discriminate; simpl; exact IH.
Qed.

Lemma unplaced_block_items_app (t1 t2 : list event) :
  unplaced t1 -> block_items (t1 ++ t2) = items t1 ++ block_items t2.
Proof.
  induction 1 as [|e t1 He _ IH]; [reflexivity|].
  destruct e; try discriminate; simpl; rewrite IH; reflexivity.
Qed.

Lemma drawing_only_items (tr : list event) : drawing_only tr -> items tr = [].
Proof.
  induction 1 as [|e tr He _ IH]; [reflexivity|].
  destruct e; try discriminate; simpl; exact IH.
Qed.

Lemma drawing_only_bind {A B : Type} (m : outcome A) (k : A -> outcome B) :
  drawing_only (trace m) -> (forall a, drawing_only (trace (k a))) ->
  drawing_only (trace (bind m k)).
Proof.
  intros Hm Hk. rewrite trace_bind. apply Forall_app. split; [exact Hm|].
  destruct m; [apply Hk|constructor|constructor].
Qed.

Lemma drawing_only_flat_map (body : Z -> list event) (l : list Z) :
  (forall i, drawing_only (body i)) -> drawing_only (flat_map body l).
Proof.
  intros Hb. induction l as [|i l IH]; simpl; [constructor|].
  apply Forall_app. split; [apply Hb|exact IH].
Qed.

Lemma forLe_drawing (lo hi : Z) (body : Z -> list event) :
  (forall i, drawing_only (body i)) -> drawing_only (trace (forLe lo hi body)).
Proof.
  intros Hb. unfold forLe.
  destruct (hi <? lo); [constructor|].
  destruct (hi =? max_int); simpl; now apply drawing_only_flat_map.
Qed.

Lemma forLt_drawing (lo hi : Z) (body : Z -> list event) :
  (forall i, drawing_only (body i)) -> drawing_only (trace (forLt lo hi body)).
Proof. intros Hb. unfold forLt. simpl. now apply drawing_only_flat_map. Qed.

Lemma drawBox_drawing (lx ly lw lh : Z) (st : style) :
  drawing_only (trace (drawBox lx ly lw lh st)).
Proof.
  unfold drawBox.
  apply drawing_only_bind;
    [apply forLe_drawing; intros i; repeat constructor|intros _].
  apply drawing_only_bind;
    [apply forLt_drawing; intros i; repeat constructor|intros _].
  repeat constructor.
Qed.

Section SurfaceFacts.

Variable RuneWidth : ascii -> Z.

Variable BuilderCap : Z -> Z.

Lemma emitRunes_drawing (cs : list ascii) :
  forall x y st, drawing_only (emitRunes RuneWidth x y st cs).
Proof.
  induction cs as [|c cs IH]; intros x y st; cbn [emitRunes];
    [constructor|].
  destruct (RuneWidth c =? 0); constructor; try reflexivity; apply IH.
Qed.

Lemma emitStr_drawing (x y : Z) (st : style) (str : string) :
  drawing_only (trace (emitStr RuneWidth x y st str)).
Proof.
  unfold emitStr. simpl. apply Forall_app.
  split; [apply emitRunes_drawing|repeat constructor].
Qed.

Lemma textLines_drawing (fuel : nat) :
  forall x y w st rs, drawing_only (trace (textLines RuneWidth fuel x y w st rs)).
Proof.
  induction fuel as [|fuel IH]; intros x y w st rs;
    destruct rs as [|r rs]; cbn [textLines]; try constructor.
  apply drawing_only_bind; [apply emitStr_drawing|intros _; apply IH].
Qed.

Lemma drawTextBox_drawing (x y w h : Z) (st : style) (t : string) :
  drawing_only (trace (drawTextBox RuneWidth BuilderCap x y w h st t)).
Proof.
  unfold drawTextBox.
  destruct ((w <? 0) || (h <? 0)); [constructor|].
  destruct (truncate BuilderCap t (mul h w)) as [[tt [e|]]|]; simpl; try constructor.
  rewrite after_nil. apply drawing_only_bind;
    [apply textLines_drawing|intros _; constructor].
Qed.

Lemma unplaced_bind {A B : Type} (m : outcome A) (k : A -> outcome B) :
  unplaced (trace m) -> (forall a, unplaced (trace (k a))) ->
  unplaced (trace (bind m k)).
Proof.
  intros Hm Hk. rewrite trace_bind. apply Forall_app. split; [exact Hm|].
  destruct m; [apply Hk|constructor|constructor].
Qed.

Lemma unplaced_lift {A : Type} (o : option A) : unplaced (trace (lift o)).
Proof. destruct o; constructor. Qed.

Lemma drawAliases_unplaced (names : list string) :
  forall y h sn ax ay aw,
    unplaced (trace (drawAliases RuneWidth BuilderCap y h sn ax ay aw names)).
Proof.
  induction names as [|an names IH]; intros y h sn ax ay aw;
    cbn [drawAliases]; [constructor|].
  apply unplaced_bind; [apply unplaced_lift|intros ah].
  destruct (sub (add ay ah) y >=? h); [constructor|].
  apply unplaced_bind; [repeat constructor|intros _].
  apply unplaced_bind;
    [apply drawing_only_unplaced, drawTextBox_drawing|intros err].
  apply unplaced_bind; [destruct err; repeat constructor|intros _].
  apply IH.
Qed.

(** [drawSection] hands no block over: only the packer does. *)
Lemma drawSection_unplaced (x y w h : Z) (sn : Section_) :
  unplaced (trace (drawSection RuneWidth BuilderCap x y w h sn)).
Proof.
  unfold drawSection.
  destruct ((x <? 0) || (y <? 0) || (w <? 0) || (h <? 0)); [constructor|].
  apply unplaced_bind;
    [apply drawing_only_unplaced, drawBox_drawing|intros _].
  apply unplaced_bind; [apply unplaced_lift|intros r].
  destruct (snd r) as [e|].
  - apply unplaced_bind; repeat constructor.
  - apply unplaced_bind; [apply unplaced_lift|intros hp].
    apply unplaced_bind;
      [apply drawing_only_unplaced, emitStr_drawing|intros _].
    apply unplaced_bind; [repeat constructor|intros _].
    apply unplaced_bind; [apply drawAliases_unplaced|intros _].
    constructor.
Qed.

(** A section that was drawn had a non-negative origin and size. *)
Lemma drawSection_ok_args (x y w h : Z) (sn : Section_) (tr : list event) :
  drawSection RuneWidth BuilderCap x y w h sn = Done tr None ->
  0 <= x /\ 0 <= y /\ 0 <= w /\ 0 <= h.
Proof.
  unfold drawSection.
  destruct (Z.ltb_spec x 0); [discriminate|].
  destruct (Z.ltb_spec y 0); [discriminate|].
  destruct (Z.ltb_spec w 0); [discriminate|].
  destruct (Z.ltb_spec h 0); [discriminate|].
  intros _. lia.
Qed.

(** One turn of the inner loop of the packer. *)
Lemma fillColumn_step (h : Z) (sm : gomap Section_) (pw c px py : Z)
      (sl : string) (rest : list string) :
  fillColumn RuneWidth BuilderCap h sm pw c px py (sl :: rest)
  = if py <? h then
      match bodyHeight (sub pw 2) (Aliases (getSection sm sl)) 0 with
      | None => Panic []
      | Some bh =>
          if sub (add py bh) 1 >=? sub h 2
          then Done [] (NextColumn (sl :: rest))
          else
            after [Placement c sl px py pw (add bh 2)]
              (match drawSection RuneWidth BuilderCap px py pw (add bh 2)
                                 (getSection sm sl) with
               | Done tr (Some e) => Done (tr ++ [LogError e]) EndPass
               | Done tr None =>
                   after tr (fillColumn RuneWidth BuilderCap h sm pw c px
                                        (add py (add bh 2)) rest)
               | Panic tr => Panic tr
               | Hang tr => Hang tr
               end)
      end
    else Done [] (NextColumn (sl :: rest)).
Proof.
  cbn [fillColumn]. destruct (py <? h); [|reflexivity].
  destruct (bodyHeight (sub pw 2) (Aliases (getSection sm sl)) 0) as [bh|];
    [|reflexivity].
  rewrite bind_lift_Some.
  destruct (sub (add py bh) 1 >=? sub h 2); [reflexivity|].
  rewrite bind_emit. f_equal.
  destruct (drawSection RuneWidth BuilderCap px py pw (add bh 2) (getSection sm sl))
    as [tr [e|]| |]; reflexivity.
Qed.

Lemma fillColumn_nil (h : Z) (sm : gomap Section_) (pw c px py : Z) :
  fillColumn RuneWidth BuilderCap h sm pw c px py []
  = if py <? h then Done [] EndPass else Done [] (NextColumn []).
Proof. reflexivity. Qed.

Lemma fillColumns_step (n : nat) (h : Z) (sm : gomap Section_)
      (pw m c : Z) (rest : list string) :
  fillColumns RuneWidth BuilderCap (S n) h sm pw m c rest
  = match fillColumn RuneWidth BuilderCap h sm pw c (add m (mul (add pw m) c)) m rest with
    | Done tr EndPass => Done tr tt
    | Done tr (NextColumn rest') =>
        after tr (fillColumns RuneWidth BuilderCap n h sm pw m (add c 1) rest')
    | Panic tr => Panic tr
    | Hang tr => Hang tr
    end.
Proof.
  cbn [fillColumns].
  destruct (fillColumn RuneWidth BuilderCap h sm pw c (add m (mul (add pw m) c)) m rest)
    as [tr [rest'|]| |]; cbn [bind after ret]; try reflexivity.
  now rewrite app_nil_r.
Qed.

(** The pass, with its sequencing spelled out. *)
Lemma drawPanels_unfold (w h : Z) (sm : gomap Section_) (m : Z) :
  drawPanels RuneWidth BuilderCap w h sm m
  = if (w <? 10) || (h <? 10) then Done [] tt
    else
      after (emitRunes RuneWidth (sub w 20) 0 ColorWhite
                       (runes "Press [Q]uit to exit") ++ [Show])
        (match maxColumns w minPanelWidth maxPanelWidth with
         | None => Panic []
         | Some nc =>
             match maxColumnWidth w nc m with
             | None => Panic []
             | Some pw =>
                 fillColumns RuneWidth BuilderCap (Z.to_nat nc) h sm pw m 0
                             (sortStrings (keys sm))
             end
         end).
Proof.
  unfold drawPanels, minWindowWidth, minWindowHeight.
  destruct ((w <? 10) || (h <? 10)); [reflexivity|].
  unfold emitStr. rewrite bind_emit.
  change (len "Press [Q]uit to exit") with 20. f_equal.
  destruct (maxColumns w minPanelWidth maxPanelWidth) as [nc|];
    [|reflexivity].
  rewrite bind_lift_Some.
  destruct (maxColumnWidth w nc m) as [pw|]; [|reflexivity].
  now rewrite bind_lift_Some.
Qed.

Lemma help_unplaced (x : Z) :
  unplaced (emitRunes RuneWidth x 0 ColorWhite
                      (runes "Press [Q]uit to exit") ++ [Show]).
Proof.
  apply drawing_only_unplaced, Forall_app.
  split; [apply emitRunes_drawing|repeat constructor].
Qed.

End SurfaceFacts.

(** ** Column packer: windows below the minimum size *)

(** C7.  On a viewport narrower than 10 columns or lower than 10 rows the
    layout pass returns at once: it makes no call on the terminal surface,
    logs nothing and does not fail, whatever the groups and the margin. *)
Theorem C7_small_viewport_draws_nothing :
  forall (RuneWidth : ascii -> Z) (BuilderCap : Z -> Z) (w h : Z) (sm : gomap Section_) (m : Z),
    w < 10 \/ h < 10 ->
    drawPanels RuneWidth BuilderCap w h sm m = Done [] tt.
Proof.
  intros RW BC w h sm m Hsmall. unfold drawPanels, minWindowWidth, minWindowHeight.
  destruct (Z.ltb_spec w 10) as [Hw|Hw]; [reflexivity|].
  destruct (Z.ltb_spec h 10) as [Hh|Hh]; [reflexivity|].
  lia.
Qed.

(** ** Column packer: a column of interior width zero *)

Lemma bodyHeight_zero_width (entries : gomap Alias) (bh : Z) :
  entries <> [] -> bodyHeight 0 entries bh = None.
Proof. destruct entries as [|[k a] rest]; [congruence|reflexivity]. Qed.

(** C10.  [minHeight] divides by its width without a check: at width 0 it
    panics, for every text.  The pass reaches that call.  On a window of
    width [w = 2 * m + 2] below 54 columns (width 10 with margin 4, the
    smallest window the pass accepts) there is one column of width 2, its
    interior width is 0, and with a first block that has an item the pass
    ends in the division panic before anything is placed. *)
Theorem C10_zero_width_division_reachable :
  forall (RuneWidth : ascii -> Z) (BuilderCap : Z -> Z) (w h m : Z) (sm : gomap Section_)
         (sl : string) (rest : list string) (t : string),
    10 <= w < 54 -> w = 2 * m + 2 -> 10 <= h -> m < h ->
    sortStrings (keys sm) = sl :: rest ->
    Aliases (getSection sm sl) <> [] ->
    minHeight 0 t = None
    /\ maxColumns w minPanelWidth maxPanelWidth = Some 1
    /\ maxColumnWidth w 1 m = Some 2
    /\ exists tr,
        drawPanels RuneWidth BuilderCap w h sm m = Panic tr /\ placements tr = [].
Proof.
  intros RW BC w h m sm sl rest t Hw Hm Hh Hmh Hsl Hne.
  assert (Hnc : maxColumns w minPanelWidth maxPanelWidth = Some 1).
  { unfold minPanelWidth, maxPanelWidth. rewrite maxColumns_eq.
    unwrap. rewrite quo_pos by int_range.
    rewrite Z.div_small by lia. reflexivity. }
  assert (Hpw : maxColumnWidth w 1 m = Some 2).
  { unfold maxColumnWidth. change (add 1 1) with 2.
    unwrap. rewrite quo_pos by int_range. f_equal. subst w.
    replace (2 * m + 2 - 2 * m) with 2 by lia. reflexivity. }
  split; [reflexivity|]. split; [exact Hnc|]. split; [exact Hpw|].
  rewrite drawPanels_unfold.
  destruct (Z.ltb_spec w 10) as [?|_]; [lia|].
  destruct (Z.ltb_spec h 10) as [?|_]; [lia|].
  cbn [orb]. rewrite Hnc, Hpw, Hsl.
  change (Z.to_nat 1) with 1%nat.
  rewrite fillColumns_step, fillColumn_step.
  destruct (Z.ltb_spec m h) as [_|?]; [|lia].
  change (sub 2 2) with 0. rewrite bodyHeight_zero_width by assumption.
  cbn [after]. eexists. split; [reflexivity|].
  rewrite app_nil_r. apply unplaced_placements, help_unplaced.
Qed.

(** ** Determinism of the pass *)

Lemma bodyHeight_perm (aw : Z) (e1 e2 : gomap Alias) :
  Permutation e1 e2 -> forall bh, bodyHeight aw e1 bh = bodyHeight aw e2 bh.
Proof.
  induction 1 as [|[k a] l1 l2 _ IH|[k1 a1] [k2 a2] l|l1 l2 l3 _ IH1 _ IH2];
    intros bh.
  - reflexivity.
  - cbn [bodyHeight]. destruct (minHeight aw (btext a)); [apply IH|reflexivity].
  - cbn [bodyHeight].
    destruct (minHeight aw (btext a1)) as [h1|],
             (minHeight aw (btext a2)) as [h2|]; cbn [obind];
      [|reflexivity|reflexivity|reflexivity].
    now rewrite (add_comm_assoc bh h2 h1).
  - now rewrite IH1.
Qed.

Lemma same_section_get (s1 s2 : Section_) (an : string) :
  same_section s1 s2 -> getAlias (Aliases s1) an = getAlias (Aliases s2) an.
Proof.
  intros (_ & _ & _ & Hlk). unfold getAlias. now rewrite Hlk.
Qed.

Section Determinism.

Variable RuneWidth : ascii -> Z.

Variable BuilderCap : Z -> Z.

Lemma drawAliases_ext (s1 s2 : Section_) (names : list string) :
  (forall an, getAlias (Aliases s1) an = getAlias (Aliases s2) an) ->
  forall y h ax ay aw,
    drawAliases RuneWidth BuilderCap y h s1 ax ay aw names
    = drawAliases RuneWidth BuilderCap y h s2 ax ay aw names.
Proof.
  intros Hget. induction names as [|an names IH]; intros y h ax ay aw;
    cbn [drawAliases]; [reflexivity|].
  rewrite Hget.
  destruct (minHeight aw (btext (getAlias (Aliases s2) an))) as [ah|];
    [|reflexivity].
  rewrite !bind_lift_Some.
  destruct (sub (add ay ah) y >=? h); [reflexivity|].
  rewrite !bind_emit. f_equal.
  destruct (drawTextBox RuneWidth BuilderCap ax ay aw ah ColorRed
                        (btext (getAlias (Aliases s2) an)))
    as [tr err| |]; cbn [bind]; [|reflexivity|reflexivity].
  f_equal. destruct err; cbn [bind emit ret]; f_equal; apply IH.
Qed.

Lemma drawSection_same (x y w h : Z) (s1 s2 : Section_) :
  same_section s1 s2 ->
  drawSection RuneWidth BuilderCap x y w h s1 = drawSection RuneWidth BuilderCap x y w h s2.
Proof.
  intros Hsame. pose proof Hsame as (Hlabel & Hmap).
  unfold drawSection. rewrite Hlabel.
  rewrite (sortStrings_perm_eq _ _ (same_map_keys _ _ Hmap)).
  rewrite (drawAliases_ext s1 s2);
    [reflexivity|intros an; now apply same_section_get].
Qed.

Lemma fillColumn_same (h : Z) (sm1 sm2 : gomap Section_) (pw c px : Z)
      (rest : list string) :
  same_sections sm1 sm2 ->
  forall py,
    fillColumn RuneWidth BuilderCap h sm1 pw c px py rest
    = fillColumn RuneWidth BuilderCap h sm2 pw c px py rest.
Proof.
  intros Hsame. induction rest as [|sl rest IH]; intros py;
    [reflexivity|].
  rewrite !fillColumn_step.
  pose proof (same_sections_get sm1 sm2 sl Hsame) as Hsec.
  rewrite (bodyHeight_perm _ _ _ (same_map_entries _ _ (proj2 Hsec))).
  destruct (py <? h); [|reflexivity].
  destruct (bodyHeight (sub pw 2) (Aliases (getSection sm2 sl)) 0) as [bh|];
    [|reflexivity].
  destruct (sub (add py bh) 1 >=? sub h 2); [reflexivity|].
  rewrite (drawSection_same _ _ _ _ _ _ Hsec).
  destruct (drawSection RuneWidth BuilderCap px py pw (add bh 2) (getSection sm2 sl))
    as [tr [e|]| |]; [reflexivity| |reflexivity|reflexivity].
  now rewrite IH.
Qed.

Lemma fillColumns_same (n : nat) (h : Z) (sm1 sm2 : gomap Section_)
      (pw m : Z) :
  same_sections sm1 sm2 ->
  forall c rest,
    fillColumns RuneWidth BuilderCap n h sm1 pw m c rest
    = fillColumns RuneWidth BuilderCap n h sm2 pw m c rest.
Proof.
  intros Hsame. induction n as [|n IH]; intros c rest; [reflexivity|].
  rewrite !fillColumns_step, (fillColumn_same _ sm1 sm2) by assumption.
  destruct (fillColumn RuneWidth BuilderCap h sm2 pw c (add m (mul (add pw m) c)) m rest)
    as [tr [rest'|]| |]; [|reflexivity|reflexivity|reflexivity].
  now rewrite IH.
Qed.

Lemma drawPanels_same (w h : Z) (sm1 sm2 : gomap Section_) (m : Z) :
  same_sections sm1 sm2 ->
  drawPanels RuneWidth BuilderCap w h sm1 m = drawPanels RuneWidth BuilderCap w h sm2 m.
Proof.
  intros Hsame. rewrite !drawPanels_unfold.
  rewrite (sortStrings_perm_eq _ _ (same_sections_keys _ _ Hsame)).
  destruct ((w <? 10) || (h <? 10)); [reflexivity|].
  destruct (maxColumns w minPanelWidth maxPanelWidth) as [nc|];
    [|reflexivity].
  destruct (maxColumnWidth w nc m) as [pw|]; [|reflexivity].
  now rewrite (fillColumns_same _ _ sm1 sm2).
Qed.

(** *** The order of the blocks *)

Lemma fillColumn_labels (h : Z) (sm : gomap Section_) (pw c px : Z)
      (rest : list string) :
  forall py,
  exists suffix,
    map block_label
        (placements (trace (fillColumn RuneWidth BuilderCap h sm pw c px py rest)))
    ++ suffix = rest
    /\ forall tr r,
        fillColumn RuneWidth BuilderCap h sm pw c px py rest = Done tr (NextColumn r) ->
        r = suffix.
Proof.
  induction rest as [|sl rest IH]; intros py.
  - exists []. rewrite fillColumn_nil.
    destruct (py <? h); split; try reflexivity; intros tr r [= _ <-];
      reflexivity.
  - rewrite fillColumn_step.
    destruct (py <? h);
      [|exists (sl :: rest); split; [reflexivity|now intros tr r [= _ <-]]].
    destruct (bodyHeight (sub pw 2) (Aliases (getSection sm sl)) 0) as [bh|];
      [|exists (sl :: rest); split; [reflexivity|discriminate]].
    destruct (sub (add py bh) 1 >=? sub h 2);
      [exists (sl :: rest); split; [reflexivity|now intros tr r [= _ <-]]|].
    pose proof (drawSection_unplaced RuneWidth BuilderCap px py pw (add bh 2)
                                     (getSection sm sl)) as Hun.
    destruct (drawSection RuneWidth BuilderCap px py pw (add bh 2) (getSection sm sl))
      as [tr [e|]| |]; cbn [trace] in Hun.
    + exists rest. cbn [after trace app placements map].
      rewrite placements_app, (unplaced_placements _ Hun). cbn.
      split; [reflexivity|discriminate].
    + destruct (IH (add py (add bh 2))) as (suffix & Hlab & Hnext).
      exists suffix. rewrite after_after, trace_after.
      cbn [app placements map]. rewrite placements_app.
      rewrite (unplaced_placements _ Hun). cbn [app].
      split; [cbn; now rewrite Hlab|].
      intros tr' r Heq.
      destruct (fillColumn RuneWidth BuilderCap h sm pw c px (add py (add bh 2)) rest)
        as [tr2 lv| |]; cbn in Heq; try discriminate.
      injection Heq as _ ->. now apply (Hnext tr2).
    + exists rest. cbn [after trace app placements map].
      rewrite (unplaced_placements _ Hun). split; [reflexivity|discriminate].
    + exists rest. cbn [after trace app placements map].
      rewrite (unplaced_placements _ Hun). split; [reflexivity|discriminate].
Qed.

Lemma fillColumns_labels (n : nat) (h : Z) (sm : gomap Section_) (pw m : Z) :
  forall c rest,
  exists suffix,
    map block_label
        (placements (trace (fillColumns RuneWidth BuilderCap n h sm pw m c rest)))
    ++ suffix = rest.
Proof.
  induction n as [|n IH]; intros c rest; [exists rest; reflexivity|].
  rewrite fillColumns_step.
  destruct (fillColumn_labels h sm pw c (add m (mul (add pw m) c)) rest m)
    as (suffix & Hlab & Hnext).
  destruct (fillColumn RuneWidth BuilderCap h sm pw c (add m (mul (add pw m) c)) m rest)
    as [tr [rest'|]| |]; cbn [trace] in Hlab; try (exists suffix; exact Hlab).
  rewrite (Hnext tr rest' eq_refl).
  destruct (IH (add c 1) suffix) as (suffix' & Hlab').
  exists suffix'. rewrite trace_after, placements_app, map_app.
  rewrite <- app_assoc, Hlab'. exact Hlab.
Qed.

Lemma drawPanels_labels (w h : Z) (sm : gomap Section_) (m : Z) :
  exists suffix,
    map block_label (placements (trace (drawPanels RuneWidth BuilderCap w h sm m)))
    ++ suffix = sortStrings (keys sm).
Proof.
  rewrite drawPanels_unfold.
  destruct ((w <? 10) || (h <? 10));
    [exists (sortStrings (keys sm)); reflexivity|].
  rewrite trace_after, placements_app.
  rewrite (unplaced_placements _ (help_unplaced RuneWidth _)).
  cbn [app].
  destruct (maxColumns w minPanelWidth maxPanelWidth) as [nc|];
    [|exists (sortStrings (keys sm)); reflexivity].
  destruct (maxColumnWidth w nc m) as [pw|];
    [|exists (sortStrings (keys sm)); reflexivity].
  apply fillColumns_labels.
Qed.

End Determinism.

(** *** The order of the items of a block *)

Lemma quiet_tail_rendered (t1 t2 : list event) :
  block_items t2 = [] ->
  rendered (t1 ++ t2) = rendered t1 ++ rendered t2
  /\ block_items (t1 ++ t2) = block_items t1.
Proof.
  intros Hq. induction t1 as [|e t1 [IHr IHb]]; [auto|].
  destruct e; cbn [app rendered block_items];
    rewrite ?IHr, ?IHb; auto.
Qed.

Section Items.

Variable RuneWidth : ascii -> Z.

Variable BuilderCap : Z -> Z.

Lemma drawAliases_step (y h : Z) (sn : Section_) (ax ay aw : Z)
      (an : string) (names : list string) :
  drawAliases RuneWidth BuilderCap y h sn ax ay aw (an :: names)
  = match minHeight aw (btext (getAlias (Aliases sn) an)) with
    | None => Panic []
    | Some ah =>
        if sub (add ay ah) y >=? h then Done [] tt
        else
          after [Item an]
            (match drawTextBox RuneWidth BuilderCap ax ay aw ah ColorRed
                               (btext (getAlias (Aliases sn) an)) with
             | Done tr err =>
                 after (tr ++ match err with
                              | Some e =>
                                  [LogError ("drawSection: Issue parsing ("
                                             ++ e ++ ")")]
                              | None => []
                              end)
                   (drawAliases RuneWidth BuilderCap y h sn ax (add ay ah) aw names)
             | Panic tr => Panic tr
             | Hang tr => Hang tr
             end)
    end.
Proof.
  cbn [drawAliases].
  destruct (minHeight aw (btext (getAlias (Aliases sn) an))) as [ah|];
    [|reflexivity].
  rewrite bind_lift_Some.
  destruct (sub (add ay ah) y >=? h); [reflexivity|].
  rewrite bind_emit. f_equal.
  destruct (drawTextBox RuneWidth BuilderCap ax ay aw ah ColorRed
                        (btext (getAlias (Aliases sn) an)))
    as [tr [e|]| |]; cbn [bind emit ret after];
    [rewrite after_after|rewrite after_after| |]; reflexivity.
Qed.

Lemma drawAliases_items (names : list string) :
  forall y h sn ax ay aw,
  exists rest,
    items (trace (drawAliases RuneWidth BuilderCap y h sn ax ay aw names)) ++ rest
    = names.
Proof.
  induction names as [|an names IH]; intros y h sn ax ay aw;
    [exists []; reflexivity|].
  rewrite drawAliases_step.
  destruct (minHeight aw (btext (getAlias (Aliases sn) an))) as [ah|];
    [|exists (an :: names); reflexivity].
  destruct (sub (add ay ah) y >=? h); [exists (an :: names); reflexivity|].
  pose proof (drawTextBox_drawing RuneWidth BuilderCap ax ay aw ah ColorRed
                (btext (getAlias (Aliases sn) an))) as Hd.
  destruct (drawTextBox RuneWidth BuilderCap ax ay aw ah ColorRed
                        (btext (getAlias (Aliases sn) an)))
    as [tr err| |]; cbn [trace] in Hd.
  - destruct (IH y h sn ax (add ay ah) aw) as (rest & Hrest).
    exists rest. rewrite after_after, trace_after.
    cbn [app items]. rewrite !items_app, (drawing_only_items _ Hd).
    destruct err; cbn [items app]; now rewrite Hrest.
  - exists names. cbn [after trace app items].
    now rewrite (drawing_only_items _ Hd).
  - exists names. cbn [after trace app items].
    now rewrite (drawing_only_items _ Hd).
Qed.

(** The items of a block are rendered in the sorted order of their names,
    up to the first that does not fit. *)
Lemma drawSection_items (x y w h : Z) (sn : Section_) :
  exists rest,
    items (trace (drawSection RuneWidth BuilderCap x y w h sn)) ++ rest
    = sortStrings (keys (Aliases sn)).
Proof.
  unfold drawSection.
  destruct ((x <? 0) || (y <? 0) || (w <? 0) || (h <? 0));
    [eexists; reflexivity|].
  rewrite trace_bind, items_app,
    (drawing_only_items _ (drawBox_drawing x y w h ColorWhite)).
  destruct (drawBox x y w h ColorWhite) as [tb []| |];
    [|eexists; reflexivity|eexists; reflexivity].
  destruct (truncate BuilderCap (Label sn) (sub w 4)) as [r|];
    [|eexists; reflexivity].
  rewrite bind_lift_Some.
  destruct (snd r) as [e|]; [eexists; reflexivity|].
  destruct (quo (sub w (len ("[" ++ fst r ++ "]"))) 2) as [hp|];
    [|eexists; reflexivity].
  rewrite bind_lift_Some.
  rewrite trace_bind, items_app,
    (drawing_only_items _ (emitStr_drawing RuneWidth _ _ _ _)).
  unfold emitStr at 1. cbn [emit].
  rewrite bind_emit, trace_after. cbn [app items].
  rewrite trace_bind, items_app.
  destruct (drawAliases_items (sortStrings (keys (Aliases sn))) y h sn
              (add x 1) (add y 1) (sub w 2)) as (rest & Hrest).
  exists rest.
  destruct (drawAliases RuneWidth BuilderCap y h sn (add x 1) (add y 1) (sub w 2)
                        (sortStrings (keys (Aliases sn))));
    cbn [trace ret items] in *; rewrite ?app_nil_r; exact Hrest.
Qed.

Lemma fillColumn_rendered (h : Z) (sm : gomap Section_) (pw c px : Z)
      (rest : list string) :
  forall py,
    Forall (sorted_items_of sm)
           (rendered (trace (fillColumn RuneWidth BuilderCap h sm pw c px py rest)))
    /\ block_items (trace (fillColumn RuneWidth BuilderCap h sm pw c px py rest)) = [].
Proof.
  induction rest as [|sl rest IH]; intros py.
  - rewrite fillColumn_nil. destruct (py <? h); split; constructor.
  - rewrite fillColumn_step.
    destruct (py <? h); [|split; constructor].
    destruct (bodyHeight (sub pw 2) (Aliases (getSection sm sl)) 0) as [bh|];
      [|split; constructor].
    destruct (sub (add py bh) 1 >=? sub h 2); [split; constructor|].
    pose proof (drawSection_unplaced RuneWidth BuilderCap px py pw (add bh 2)
                                     (getSection sm sl)) as Hun.
    destruct (drawSection_items px py pw (add bh 2) (getSection sm sl))
      as (more & Hmore).
    rewrite trace_after. cbn [app rendered block_items].
    split; [|reflexivity].
    destruct (drawSection RuneWidth BuilderCap px py pw (add bh 2) (getSection sm sl))
      as [tr [e|]| |]; cbn [trace] in *.
    + rewrite (unplaced_rendered_app _ _ Hun),
        (unplaced_block_items_app _ _ Hun).
      constructor; [|constructor].
      exists more. cbn [fst snd block_items]. now rewrite app_nil_r.
    + destruct (IH (add py (add bh 2))) as (IHr & IHb).
      rewrite trace_after.
      rewrite (unplaced_rendered_app _ _ Hun),
        (unplaced_block_items_app _ _ Hun), IHb.
      constructor; [|exact IHr].
      exists more. cbn [fst snd]. now rewrite app_nil_r.
    + rewrite <- (app_nil_r tr).
      rewrite (unplaced_rendered_app _ _ Hun),
        (unplaced_block_items_app _ _ Hun).
      constructor; [|constructor].
      exists more. cbn [fst snd block_items]. now rewrite app_nil_r.
    + rewrite <- (app_nil_r tr).
      rewrite (unplaced_rendered_app _ _ Hun),
        (unplaced_block_items_app _ _ Hun).
      constructor; [|constructor].
      exists more. cbn [fst snd block_items]. now rewrite app_nil_r.
Qed.

Lemma fillColumns_rendered (n : nat) (h : Z) (sm : gomap Section_)
      (pw m : Z) :
  forall c rest,
    Forall (sorted_items_of sm)
           (rendered (trace (fillColumns RuneWidth BuilderCap n h sm pw m c rest)))
    /\ block_items (trace (fillColumns RuneWidth BuilderCap n h sm pw m c rest)) = [].
Proof.
  induction n as [|n IH]; intros c rest; [split; constructor|].
  rewrite fillColumns_step.
  destruct (fillColumn_rendered h sm pw c (add m (mul (add pw m) c)) rest m)
    as (Hr & Hb).
  destruct (fillColumn RuneWidth BuilderCap h sm pw c (add m (mul (add pw m) c)) m rest)
    as [tr [rest'|]| |]; cbn [trace] in *; try (split; assumption).
  destruct (IH (add c 1) rest') as (IHr & IHb).
  rewrite trace_after.
  destruct (quiet_tail_rendered tr _ IHb) as (-> & ->).
  split; [apply Forall_app; split; assumption|exact Hb].
Qed.

Lemma drawPanels_rendered (w h : Z) (sm : gomap Section_) (m : Z) :
  Forall (sorted_items_of sm)
         (rendered (trace (drawPanels RuneWidth BuilderCap w h sm m))).
Proof.
  rewrite drawPanels_unfold.
  destruct ((w <? 10) || (h <? 10)); [constructor|].
  rewrite trace_after.
  rewrite (unplaced_rendered_app _ _ (help_unplaced RuneWidth _)).
  destruct (maxColumns w minPanelWidth maxPanelWidth) as [nc|];
    [|constructor].
  destruct (maxColumnWidth w nc m) as [pw|]; [|constructor].
  apply fillColumns_rendered.
Qed.

End Items.

(** C9.  The pass is a function of the group collection as a mapping: two
    collections that hold the same groups with the same items, listed in
    any two orders, give the same run, call for call.  The blocks handed
    over are the first labels of the one sorted list of labels, and the
    items rendered in a block are the first names of the sorted list of its
    item names; both lists are the same for the two collections. *)
Theorem C9_layout_is_deterministic :
  forall (RuneWidth : ascii -> Z) (BuilderCap : Z -> Z) (w h m : Z) (sm1 sm2 : gomap Section_),
    same_sections sm1 sm2 ->
    drawPanels RuneWidth BuilderCap w h sm1 m = drawPanels RuneWidth BuilderCap w h sm2 m
    /\ (exists rest,
           map block_label
               (placements (trace (drawPanels RuneWidth BuilderCap w h sm1 m)))
           ++ rest = sortStrings (keys sm1))
    /\ sortStrings (keys sm1) = sortStrings (keys sm2)
    /\ StronglySorted lex_le (sortStrings (keys sm1))
    /\ Forall (sorted_items_of sm1)
              (rendered (trace (drawPanels RuneWidth BuilderCap w h sm1 m)))
    /\ forall sl,
        sortStrings (keys (Aliases (getSection sm1 sl)))
        = sortStrings (keys (Aliases (getSection sm2 sl)))
        /\ StronglySorted lex_le
             (sortStrings (keys (Aliases (getSection sm1 sl)))).
Proof.
  intros RW BC w h m sm1 sm2 Hsame.
  split; [now apply drawPanels_same|].
  split; [apply drawPanels_labels|].
  split; [apply sortStrings_perm_eq, same_sections_keys, Hsame|].
  split; [apply sortStrings_sorted|].
  split; [apply drawPanels_rendered|].
  intros sl. split; [|apply sortStrings_sorted].
  apply sortStrings_perm_eq, same_map_keys.
  exact (proj2 (same_sections_get sm1 sm2 sl Hsame)).
Qed.

(** ** Column packer: placements stay within the viewport *)

Lemma quot_bounds (a b : Z) :
  0 < b ->
  exists r, a = b * (a ÷ b) + r
            /\ (0 <= a -> 0 <= r < b) /\ (a <= 0 -> - b < r <= 0).
Proof.
  intros Hb. exists (Z.rem a b). split; [apply Z.quot_rem'|].
  split; intros Ha.
  - apply Z.rem_bound_pos; lia.
  - pose proof (Z.rem_nonpos a b ltac:(lia) Ha).
    pose proof (Z.rem_bound_abs a b ltac:(lia)). lia.
Qed.

Lemma quot_abs_le (a b : Z) : 0 < b -> Z.abs (a ÷ b) <= Z.abs a.
Proof.
  intros Hb. destruct (quot_bounds a b Hb) as (r & Hq & Hpos & Hneg).
  destruct (Z.le_gt_cases 0 a) as [Ha|Ha].
  - specialize (Hpos Ha). assert (0 <= a ÷ b) by nia. nia.
  - specialize (Hneg ltac:(lia)). assert (a ÷ b <= 0) by nia. nia.
Qed.

(** The right edge of column [c]: with [nc] columns of the width computed
    for a margin [m >= 0], column [c] ends within the [w] cells of the
    window. *)
Lemma column_right_edge (w m nc c : Z) :
  0 <= m -> 10 <= w -> 1 <= nc ->
  (nc = 1 /\ w - 2 < 104 \/ 52 * nc <= w - 2 < 52 * nc + 52) ->
  0 <= c < nc ->
  ((w - (1 + nc) * m) ÷ nc + m) * (c + 1) <= w.
Proof.
  intros Hm Hw Hnc Hshape Hc.
  destruct (quot_bounds (w - (1 + nc) * m) nc ltac:(lia))
    as (r & Hq & Hpos & Hneg).
  set (pw := (w - (1 + nc) * m) ÷ nc) in *.
  destruct (Z.le_gt_cases (pw + m) 0) as [Hle|Hgt]; [nia|].
  assert ((pw + m) * (c + 1) <= (pw + m) * nc) by nia.
  destruct (Z.le_gt_cases 0 (w - (1 + nc) * m)) as [Hn|Hn].
  - specialize (Hpos Hn). nia.
  - specialize (Hneg ltac:(lia)).
    destruct Hshape as [[-> _]|Hshape]; [nia|].
    assert (pw + m <= 52); [|nia].
    destruct (Z.le_gt_cases (pw + m) 52) as [?|Hbig]; [assumption|exfalso].
    assert (pw <= 0) by nia.
    assert (53 <= m) by lia.
    assert ((53 - m) * nc <= pw * nc) by nia.
    nia.
Qed.

Lemma quo_in_int (x y q : Z) : quo x y = Some q -> in_int q.
Proof.
  unfold quo. destruct (y =? 0); [discriminate|].
  intros [= <-]. apply wrap_in_int.
Qed.

Lemma textLength_nonneg (entries : gomap Alias) : 0 <= textLength entries.
Proof.
  induction entries as [|[k a] rest IH]; cbn [textLength]; [lia|].
  pose proof (len_nonneg (btext a)). lia.
Qed.

(** A text needs no more rows than it has characters, whatever the width. *)
Lemma minHeight_abs (aw : Z) (t : string) (h : Z) :
  len t <= max_int -> minHeight aw t = Some h -> Z.abs h <= len t.
Proof.
  intros Hmax. pose proof (len_nonneg t) as H0. unfold minHeight, quo, rem.
  destruct (Z.eqb_spec aw 0) as [->|Hnz]; [discriminate|].
  cbn [obind]. intros [= <-].
  pose proof (Z.quot_rem' (len t) aw) as Hqr.
  pose proof (Z.rem_nonneg (len t) aw Hnz H0) as Hr0.
  pose proof (Z.rem_bound_abs (len t) aw Hnz) as Hrb.
  assert (Z.abs (len t ÷ aw) <= len t) as Hq.
  { destruct (Z.lt_trichotomy aw 0) as [Hneg|[?|Hpos]]; [|lia|].
    - replace aw with (- (- aw)) by lia. rewrite Z.quot_opp_r by lia.
      rewrite Z.abs_opp.
      pose proof (quot_abs_le (len t) (- aw) ltac:(lia)). lia.
    - pose proof (quot_abs_le (len t) aw Hpos). lia. }
  rewrite wrap_small by int_range.
  destruct (Z.gtb_spec (Z.rem (len t) aw) 0) as [Hr|Hr]; [|exact Hq].
  assert (Z.abs (len t ÷ aw + 1) <= len t) as Hq1.
  { destruct (Z.lt_trichotomy aw 0) as [Hneg|[?|Hpos]]; [|lia|].
    - assert (len t ÷ aw <= 0) as Hs.
      { replace aw with (- (- aw)) by lia. rewrite Z.quot_opp_r by lia.
        pose proof (Z.quot_pos (len t) (- aw) H0 ltac:(lia)). lia. }
      assert (1 <= len t) by nia. lia.
    - pose proof (Z.quot_pos (len t) aw H0 Hpos) as Hs.
      assert (len t ÷ aw < len t) by nia. lia. }
  rewrite (add_small (len t ÷ aw) 1) by int_range. exact Hq1.
Qed.

Lemma bodyHeight_abs (aw : Z) (entries : gomap Alias) :
  forall bh0 bh,
    Z.abs bh0 + textLength entries <= 2 * max_text ->
    bodyHeight aw entries bh0 = Some bh ->
    Z.abs (bh - bh0) <= textLength entries.
Proof.
  induction entries as [|[k a] rest IH]; intros bh0 bh Hsmall;
    cbn [bodyHeight textLength] in *.
  - intros [= <-]. lia.
  - pose proof (textLength_nonneg rest) as Hrest.
    pose proof (len_nonneg (btext a)) as Hlen.
    unfold max_text in *.
    destruct (minHeight aw (btext a)) as [h1|] eqn:Hh1; [|discriminate].
    apply minHeight_abs in Hh1; [|int_range].
    cbn [obind]. rewrite (add_small bh0 h1) by int_range.
    intros Hbh. apply IH in Hbh; lia.
Qed.

Lemma lookup_Some_In {V : Type} (k : string) (v : V) (m : gomap V) :
  lookup k m = Some v -> In (k, v) m.
Proof.
  induction m as [|[k0 v0] m IH]; cbn [lookup]; [discriminate|].
  destruct (String.eqb_spec k k0) as [->|Hne].
  - intros [= ->]. now left.
  - intros H. right. now apply IH.
Qed.

Lemma getSection_small (sm : gomap Section_) (sl : string) :
  small_texts sm -> textLength (Aliases (getSection sm sl)) <= max_text.
Proof.
  intros Hsmall. unfold getSection.
  destruct (lookup sl sm) as [s|] eqn:Hl; [|cbn; unfold max_text; lia].
  apply lookup_Some_In in Hl. unfold small_texts in Hsmall.
  rewrite Forall_forall in Hsmall. exact (Hsmall _ Hl).
Qed.

Lemma bodyHeight_small (sm : gomap Section_) (sl : string) (aw bh : Z) :
  small_texts sm ->
  bodyHeight aw (Aliases (getSection sm sl)) 0 = Some bh ->
  Z.abs bh <= max_text.
Proof.
  intros Hsmall Hbh. pose proof (getSection_small sm sl Hsmall) as Hs.
  pose proof (textLength_nonneg (Aliases (getSection sm sl))).
  apply bodyHeight_abs in Hbh; unfold max_text in *; lia.
Qed.

Section Placed.

Variable RuneWidth : ascii -> Z.

Variable BuilderCap : Z -> Z.
Variables (h m : Z) (sm : gomap Section_).
Hypothesis Hh : h <= max_dimension.
Hypothesis Hm : - max_dimension <= m.
Hypothesis Htext : small_texts sm.

Lemma fillColumn_placed (pw c px : Z) (rest : list string) :
  forall py,
    m <= py ->
    Forall (placed_in h m sm pw c px)
           (placements (trace (fillColumn RuneWidth BuilderCap h sm pw c px py rest))).
Proof.
  induction rest as [|sl rest IH]; intros py Hpy.
  - rewrite fillColumn_nil. destruct (py <? h); constructor.
  - rewrite fillColumn_step.
    destruct (Z.ltb_spec py h) as [Hlt|Hge]; [|constructor].
    destruct (bodyHeight (sub pw 2) (Aliases (getSection sm sl)) 0)
      as [bh|] eqn:Hbh; [|constructor].
    pose proof (bodyHeight_small sm sl _ _ Htext Hbh) as Hsmall.
    unfold max_text, max_dimension in *.
    destruct (Z.geb_spec (sub (add py bh) 1) (sub h 2)) as [Hskip|Hfit];
      [constructor|].
    unwrap_in Hfit.
    pose proof (drawSection_unplaced RuneWidth BuilderCap px py pw (add bh 2)
                                     (getSection sm sl)) as Hun.
    pose proof (drawSection_ok_args RuneWidth BuilderCap px py pw (add bh 2)
                                    (getSection sm sl)) as Hargs.
    rewrite trace_after. cbn [app placements].
    constructor.
    + unfold placed_in. cbn [column origin_x origin_y width height block_label].
      repeat split; try lia.
      exists bh. split; [exact Hbh|].
      rewrite (add_small bh 2) by int_range. split; lia.
    + destruct (drawSection RuneWidth BuilderCap px py pw (add bh 2) (getSection sm sl))
        as [tr [e|]| |]; cbn [trace] in *.
      * rewrite placements_app, (unplaced_placements _ Hun). constructor.
      * rewrite trace_after, placements_app, (unplaced_placements _ Hun).
        cbn [app]. apply IH.
        destruct (Hargs tr eq_refl) as (_ & _ & _ & Hheight).
        rewrite (add_small bh 2) in * by int_range.
        rewrite (add_small py (bh + 2)) by int_range. lia.
      * rewrite (unplaced_placements _ Hun). constructor.
      * rewrite (unplaced_placements _ Hun). constructor.
Qed.

Lemma fillColumns_placed (pw : Z) (n : nat) :
  forall c rest,
    0 <= c -> c + Z.of_nat n <= max_int ->
    Forall (fun p =>
              exists c', c <= c' < c + Z.of_nat n
                         /\ placed_in h m sm pw c'
                                      (add m (mul (add pw m) c')) p)
           (placements (trace (fillColumns RuneWidth BuilderCap n h sm pw m c rest))).
Proof.
  induction n as [|n IH]; intros c rest Hc Hn; [constructor|].
  rewrite fillColumns_step.
  pose proof (fillColumn_placed pw c (add m (mul (add pw m) c)) rest m
                                ltac:(lia)) as Hcol.
  assert (Forall (fun p =>
                    exists c', c <= c' < c + Z.of_nat (S n)
                               /\ placed_in h m sm pw c'
                                    (add m (mul (add pw m) c')) p)
                 (placements
                    (trace (fillColumn RuneWidth BuilderCap h sm pw c
                                       (add m (mul (add pw m) c)) m rest))))
    as Hcol'.
  { eapply Forall_impl; [|exact Hcol]. intros p Hp. exists c.
    split; [lia|exact Hp]. }
  destruct (fillColumn RuneWidth BuilderCap h sm pw c (add m (mul (add pw m) c)) m rest)
    as [tr [rest'|]| |]; cbn [trace] in *; try exact Hcol'.
  rewrite trace_after, placements_app. apply Forall_app.
  split; [exact Hcol'|].
  rewrite (add_small c 1) by int_range.
  eapply Forall_impl; [|apply IH; lia].
  intros p (c' & Hc' & Hp). exists c'. split; [lia|exact Hp].
Qed.

(** Every block the pass hands over lies in one of the [nc] columns of
    the computed width and satisfies [placed_in] there. *)
Lemma drawPanels_placed (w : Z) (p : placement) :
  In p (placements (trace (drawPanels RuneWidth BuilderCap w h sm m))) ->
  10 <= w /\ 10 <= h
  /\ exists nc pw c,
      maxColumns w minPanelWidth maxPanelWidth = Some nc
      /\ maxColumnWidth w nc m = Some pw
      /\ 0 <= c < nc
      /\ placed_in h m sm pw c (add m (mul (add pw m) c)) p.
Proof.
  rewrite drawPanels_unfold.
  destruct (Z.ltb_spec w 10) as [Hw|Hw]; [intros []|].
  destruct (Z.ltb_spec h 10) as [Hh'|Hh']; [intros []|].
  cbn [orb]. rewrite trace_after, placements_app.
  rewrite (unplaced_placements _ (help_unplaced RuneWidth _)).
  cbn [app]. intros Hin. split; [exact Hw|]. split; [exact Hh'|].
  destruct (maxColumns w minPanelWidth maxPanelWidth) as [nc|] eqn:Hnc;
    [|destruct Hin].
  destruct (maxColumnWidth w nc m) as [pw|] eqn:Hpw; [|destruct Hin].
  exists nc, pw.
  assert (in_int nc) as Hint.
  { unfold maxColumns in Hnc.
    destruct (quo (sub w 2) (add minPanelWidth 2)) as [x1|]; [|discriminate].
    destruct (quo (sub w 2) (add maxPanelWidth 2)) as [x2|] eqn:Hx2;
      [|discriminate].
    cbn [obind] in Hnc. apply quo_in_int in Hx2.
    destruct (x2 =? 0); injection Hnc as <-; [int_range|exact Hx2]. }
  destruct (Z.le_gt_cases nc 0) as [Hle|Hpos].
  { replace (Z.to_nat nc) with 0%nat in Hin by lia. destruct Hin. }
  pose proof (fillColumns_placed pw (Z.to_nat nc) 0 (sortStrings (keys sm))
                                 ltac:(lia) ltac:(int_range)) as Hall.
  rewrite Forall_forall in Hall. destruct (Hall p Hin) as (c & Hc & Hp).
  exists c. split; [reflexivity|]. split; [exact Hpw|].
  split; [lia|exact Hp].
Qed.

End Placed.

(** C2, as the code has it.  For every group collection whose blocks have
    at most 2^32 characters, every margin above -2^20 and every viewport of
    at most 2^20 cells each way, every block the packer hands over has the
    computed column width as its width and the summed body height plus 2 as
    its height, and ends at or above the last row, [origin.y + height <= h];
    with a margin [m >= 0] it also ends at or left of the last column,
    [origin.x + width <= w]. *)
Theorem C2_placements_within_viewport :
  forall (RuneWidth : ascii -> Z) (BuilderCap : Z -> Z) (w h : Z) (sm : gomap Section_) (m : Z)
         (p : placement),
    modest w h m sm ->
    In p (placements (trace (drawPanels RuneWidth BuilderCap w h sm m))) ->
    origin_y p + height p <= h
    /\ (0 <= m -> origin_x p + width p <= w)
    /\ exists nc pw bh,
        maxColumns w minPanelWidth maxPanelWidth = Some nc
        /\ maxColumnWidth w nc m = Some pw
        /\ width p = pw
        /\ bodyHeight (sub pw 2) (Aliases (getSection sm (block_label p))) 0
           = Some bh
        /\ height p = bh + 2.
Proof.
  intros RW BC w h sm m p (Hw & Hh & Hm & Htext) Hin.
  destruct (drawPanels_placed RW BC h m sm Hh Hm Htext w p Hin)
    as (Hw10 & Hh10 & nc & pw & c & Hnc & Hpw & Hc & Hp).
  destruct Hp as (Hcol & Hx & Hwd & Hy & bh & Hbh & Hht & Hfit).
  split; [lia|]. split.
  - intros Hm0. unfold max_dimension in *.
    destruct (maxColumns_panel w ltac:(int_range)) as (nc' & Hnc' & Hnc1 & Hshape).
    rewrite Hnc in Hnc'. apply Some_eq in Hnc'. subst nc'.
    assert (nc <= w) as Hncw by lia.
    unfold maxColumnWidth in Hpw.
    rewrite (add_small 1 nc) in Hpw by int_range.
    assert (0 <= (1 + nc) * m <= 1048577 * 1048576) as Hprod by nia.
    rewrite (mul_small (1 + nc) m) in Hpw by int_range.
    rewrite (sub_small w ((1 + nc) * m)) in Hpw by int_range.
    pose proof (quot_abs_le (w - (1 + nc) * m) nc ltac:(lia)) as Habs.
    rewrite quo_small in Hpw by (try int_range; lia).
    apply Some_eq in Hpw.
    assert (Z.abs pw <= 1048577 * 1048576 + 1048576) as Hpwb by lia.
    rewrite (add_small pw m) in Hx by int_range.
    assert (Z.abs ((pw + m) * c) <= (1048577 * 1048576 + 2 * 1048576) * 1048576)
      as Hprod2 by nia.
    rewrite (mul_small (pw + m) c) in Hx by int_range.
    rewrite (add_small m ((pw + m) * c)) in Hx by int_range.
    pose proof (column_right_edge w m nc c Hm0 Hw10 Hnc1 Hshape Hc) as Hedge.
    rewrite Hpw in Hedge. rewrite Hx, Hwd. nia.
  - exists nc, pw, bh. repeat split; assumption.
Qed.

(** C2, as the specification states it, fails by one row: a block of six
    lines in a viewport of ten rows is handed over at row 2 with a height of
    8 and ends on the last row, [2 + 8 > 10 - 1].  With a negative margin the
    block handed over also reaches past the last column. *)
Lemma C2_frame_may_end_on_last_row :
  placements (trace (drawPanels sample.narrow sample.size_class 100 10 [("A"%string, sample.six)] 2))
  = [mkPlacement 0 "A" 2 2 96 8]
  /\ ~ spec_within_viewport 100 10
       (placements (trace (drawPanels sample.narrow sample.size_class 100 10
                                      [("A"%string, sample.six)] 2)))
  /\ placements (trace (drawPanels sample.narrow sample.size_class 20 20 sample.two_blocks (-1)))
     = [mkPlacement 0 "A" (-1) (-1) 22 3]
  /\ ~ spec_within_viewport 20 20
       (placements (trace (drawPanels sample.narrow sample.size_class 20 20
                                      sample.two_blocks (-1)))).
Proof.
  assert (placements (trace (drawPanels sample.narrow sample.size_class 100 10
                                        [("A"%string, sample.six)] 2))
          = [mkPlacement 0 "A" 2 2 96 8]) as H1 by (vm_compute; reflexivity).
  assert (placements (trace (drawPanels sample.narrow sample.size_class 20 20
                                        sample.two_blocks (-1)))
          = [mkPlacement 0 "A" (-1) (-1) 22 3]) as H2
      by (vm_compute; reflexivity).
  rewrite H1, H2. repeat split.
  - intros H. destruct (H _ (or_introl eq_refl)) as [Hy _]. cbn in Hy. lia.
  - intros H. destruct (H _ (or_introl eq_refl)) as [_ Hx]. cbn in Hx. lia.
Qed.

(** ** Column packer: first fit through one cursor *)

Lemma sorted_app (l1 l2 : list Z) :
  StronglySorted Z.le l1 -> StronglySorted Z.le l2 ->
  (forall a b, In a l1 -> In b l2 -> a <= b) ->
  StronglySorted Z.le (l1 ++ l2).
Proof.
  induction l1 as [|a l1 IH]; intros H1 H2 Hle; [exact H2|].
  apply StronglySorted_inv in H1 as [H1 Ha]. cbn [app]. constructor.
  - apply IH; [exact H1|exact H2|].
    intros x y Hx Hy. apply Hle; [now right|exact Hy].
  - apply Forall_app. split; [exact Ha|].
    apply Forall_forall. intros y Hy. apply Hle; [now left|exact Hy].
Qed.

Lemma sorted_constant (c : Z) (l : list Z) :
  Forall (fun x => x = c) l -> StronglySorted Z.le l.
Proof.
  induction 1 as [|x l Hx Hall IH]; constructor; [exact IH|].
  eapply Forall_impl; [|exact Hall]. intros y ->. lia.
Qed.

Section FirstFit.

Variable RuneWidth : ascii -> Z.

Variable BuilderCap : Z -> Z.
Variables (h m : Z) (sm : gomap Section_).
Hypothesis Hh : h <= max_dimension.
Hypothesis Hm : - max_dimension <= m.
Hypothesis Htext : small_texts sm.

(** The columns of successive blocks never go back. *)
Lemma fillColumns_columns (pw : Z) (n : nat) :
  forall c rest,
    0 <= c -> c + Z.of_nat n <= max_int ->
    StronglySorted Z.le
      (map column
           (placements (trace (fillColumns RuneWidth BuilderCap n h sm pw m c rest))))
    /\ Forall (fun x => c <= x)
              (map column
                   (placements
                      (trace (fillColumns RuneWidth BuilderCap n h sm pw m c rest)))).
Proof.
  induction n as [|n IH]; intros c rest Hc Hn; [split; constructor|].
  rewrite fillColumns_step.
  pose proof (fillColumn_placed RuneWidth BuilderCap h m sm Hh Hm Htext pw c
                (add m (mul (add pw m) c)) rest m ltac:(lia)) as Hcol.
  assert (Forall (fun x => x = c)
                 (map column
                      (placements
                         (trace (fillColumn RuneWidth BuilderCap h sm pw c
                                   (add m (mul (add pw m) c)) m rest)))))
    as Hconst.
  { apply Forall_map. eapply Forall_impl; [|exact Hcol].
    intros p Hp. exact (proj1 Hp). }
  assert (forall l, Forall (fun x => x = c) l -> Forall (fun x => c <= x) l)
    as Hge by (intros l; apply Forall_impl; intros x ->; lia).
  destruct (fillColumn RuneWidth BuilderCap h sm pw c (add m (mul (add pw m) c)) m rest)
    as [tr [rest'|]| |]; cbn [trace] in *;
    try (split; [now apply (sorted_constant c)|now apply Hge]).
  rewrite trace_after, placements_app, map_app.
  destruct (IH (add c 1) rest') as (IHs & IHf);
    rewrite ?(add_small c 1) by int_range; try lia.
  rewrite (add_small c 1) in IHs, IHf by int_range.
  split.
  - apply sorted_app; [now apply (sorted_constant c)|exact IHs|].
    rewrite Forall_forall in Hconst, IHf.
    intros a b Ha Hb. rewrite (Hconst a Ha). specialize (IHf b Hb). lia.
  - apply Forall_app. split; [now apply Hge|].
    eapply Forall_impl; [|exact IHf]. intros x Hx. cbn beta in Hx. lia.
Qed.

Lemma drawPanels_columns (w : Z) :
  StronglySorted Z.le
    (map column (placements (trace (drawPanels RuneWidth BuilderCap w h sm m)))).
Proof.
  rewrite drawPanels_unfold.
  destruct ((w <? 10) || (h <? 10)); [constructor|].
  rewrite trace_after, placements_app.
  rewrite (unplaced_placements _ (help_unplaced RuneWidth _)). cbn [app].
  destruct (maxColumns w minPanelWidth maxPanelWidth) as [nc|] eqn:Hnc;
    [|constructor].
  destruct (maxColumnWidth w nc m) as [pw|]; [|constructor].
  assert (in_int nc) as Hint.
  { unfold maxColumns in Hnc.
    destruct (quo (sub w 2) (add minPanelWidth 2)) as [x1|]; [|discriminate].
    destruct (quo (sub w 2) (add maxPanelWidth 2)) as [x2|] eqn:Hx2;
      [|discriminate].
    cbn [obind] in Hnc. apply quo_in_int in Hx2.
    destruct (x2 =? 0); apply Some_eq in Hnc; subst nc;
      [int_range|exact Hx2]. }
  destruct (Z.le_gt_cases nc 0) as [Hle|Hpos].
  { replace (Z.to_nat nc) with 0%nat by lia. constructor. }
  apply fillColumns_columns; [lia|int_range].
Qed.

(** A block that does not fit under the cursor ends the column: nothing is
    drawn and the cursor into the labels stays on that block. *)
Lemma fillColumn_skip (pw c px py : Z) (sl : string) (rest : list string)
      (bh : Z) :
  m <= py < h ->
  bodyHeight (sub pw 2) (Aliases (getSection sm sl)) 0 = Some bh ->
  py + bh - 1 >= h - 2 ->
  fillColumn RuneWidth BuilderCap h sm pw c px py (sl :: rest)
  = Done [] (NextColumn (sl :: rest)).
Proof.
  intros Hpy Hbh Hskip. rewrite fillColumn_step, Hbh.
  destruct (Z.ltb_spec py h) as [_|?]; [|lia].
  pose proof (bodyHeight_small sm sl _ _ Htext Hbh) as Hsmall.
  unfold max_text, max_dimension in *.
  destruct (Z.geb_spec (sub (add py bh) 1) (sub h 2)) as [_|Hfit];
    [reflexivity|].
  unwrap_in Hfit. lia.
Qed.

(** A block that does not fit at the top of a column is never placed. *)
Lemma drawPanels_dropped (w : Z) (nc pw : Z) (sl : string) (bh : Z) :
  maxColumns w minPanelWidth maxPanelWidth = Some nc ->
  maxColumnWidth w nc m = Some pw ->
  bodyHeight (sub pw 2) (Aliases (getSection sm sl)) 0 = Some bh ->
  m + bh - 1 >= h - 2 ->
  ~ In sl (map block_label
               (placements (trace (drawPanels RuneWidth BuilderCap w h sm m)))).
Proof.
  intros Hnc Hpw Hbh Hskip Hin. apply in_map_iff in Hin as (p & <- & Hin).
  destruct (drawPanels_placed RuneWidth BuilderCap h m sm Hh Hm Htext w p Hin)
    as (_ & _ & nc' & pw' & c & Hnc' & Hpw' & _ & Hp).
  rewrite Hnc in Hnc'. apply Some_eq in Hnc'. subst nc'.
  rewrite Hpw in Hpw'. apply Some_eq in Hpw'. subst pw'.
  destruct Hp as (_ & _ & _ & Hy & bh' & Hbh' & _ & Hfit).
  rewrite Hbh in Hbh'. apply Some_eq in Hbh'. subst bh'. lia.
Qed.

End FirstFit.

(** ** Column packer: the packing as a function *)

Lemma logged_app (tr1 tr2 : list event) :
  logged (tr1 ++ tr2) = logged tr1 ++ logged tr2.
Proof. apply filter_app. Qed.

Lemma drawing_only_logged (tr : list event) : drawing_only tr -> logged tr = [].
Proof.
  induction 1 as [|e tr He _ IH]; [reflexivity|].
  destruct e; cbn [is_drawing] in He; try discriminate; cbn [logged filter];
    exact IH.
Qed.

Lemma Sorted_prefix {A : Type} (R : A -> A -> Prop) (l1 l2 : list A) :
  Sorted R (l1 ++ l2) -> Sorted R l1.
Proof.
  induction l1 as [|a l1 IH]; cbn [app]; intros H; [constructor|].
  apply Sorted_inv in H as [H Ha]. constructor; [apply IH; exact H|].
  destruct l1 as [|b l1]; [constructor|].
  cbn [app] in Ha. apply HdRel_inv in Ha. constructor. exact Ha.
Qed.

Lemma Sorted_snoc_cons {A : Type} (R : A -> A -> Prop) (l1 : list A) (p q : A)
      (l2 : list A) :
  Sorted R (l1 ++ [p]) -> Sorted R (q :: l2) -> R p q ->
  Sorted R ((l1 ++ [p]) ++ q :: l2).
Proof.
  intros H1 H2 Hpq. induction l1 as [|a l1 IH]; cbn [app] in *.
  - constructor; [exact H2|constructor; exact Hpq].
  - apply Sorted_inv in H1 as [H1 Ha]. constructor; [apply IH; exact H1|].
    destruct l1 as [|b l1]; cbn [app] in *; apply HdRel_inv in Ha;
      constructor; exact Ha.
Qed.

Section Pack.

Variables (h m : Z) (sm : gomap Section_) (pw : Z).

Lemma packColumn_unfit (c px py : Z) (sl : string) (rest : list string) :
~ fits_at h sm pw py sl ->
packColumn h sm pw c px py (sl :: rest) = ([], sl :: rest).
Proof.
intros Hun. cbn [packColumn].
destruct (Z.ltb_spec py h) as [Hlt|_]; [|reflexivity].
destruct (bodyHeight (sub pw 2) (Aliases (getSection sm sl)) 0)
  as [bh|] eqn:Hbh; [|reflexivity].
destruct (Z.geb_spec (py + bh - 1) (h - 2)) as [_|Hfit]; [reflexivity|].
exfalso. apply Hun. split; [exact Hlt|]. exists bh. split; [exact Hbh|lia].
Qed.

(** What a column of the packing returns: the placements are those of the
  first labels, in column [c], stacked without a gap from the cursor on;
  and the first label left does not pass the test under the last of
  them. *)
Lemma packColumn_spec (c px : Z) (rest : list string) :
forall py ps left,
  packColumn h sm pw c px py rest = (ps, left) ->
  map block_label ps ++ left = rest
  /\ Forall (fun p => column p = c /\ width p = pw) ps
  /\ Sorted (follows h m sm) ps
  /\ (forall p ps', ps = p :: ps' -> origin_y p = py)
  /\ exists e,
      (ps = [] /\ e = py
       \/ exists ps' p, ps = ps' ++ [p] /\ origin_y p + height p = e)
      /\ forall sl left', left = sl :: left' -> ~ fits_at h sm pw e sl.
Proof.
induction rest as [|sl rest IH]; intros py ps left Hpack;
  cbn [packColumn] in Hpack.
- inversion Hpack; subst. split; [reflexivity|]. split; [constructor|].
  split; [constructor|]. split; [intros p ps' E; discriminate|].
  exists py. split; [left; split; reflexivity|].
  intros sl left' E. discriminate.
- assert (~ fits_at h sm pw py sl ->
          (ps, left) = ([], sl :: rest) ->
          map block_label ps ++ left = sl :: rest
          /\ Forall (fun p => column p = c /\ width p = pw) ps
          /\ Sorted (follows h m sm) ps
          /\ (forall p ps', ps = p :: ps' -> origin_y p = py)
          /\ exists e,
              (ps = [] /\ e = py
               \/ exists ps' p, ps = ps' ++ [p] /\ origin_y p + height p = e)
              /\ forall sl0 left', left = sl0 :: left' ->
                                   ~ fits_at h sm pw e sl0) as Hnone.
  { intros Hun E. inversion E; subst. split; [reflexivity|].
    split; [constructor|]. split; [constructor|].
    split; [intros p ps' E'; discriminate|].
    exists py. split; [left; split; reflexivity|].
    intros sl0 left' E'. inversion E'; subst. exact Hun. }
  destruct (Z.ltb_spec py h) as [Hlt|Hge];
    [|apply Hnone; [intros [? _]; lia|symmetry; exact Hpack]].
  destruct (bodyHeight (sub pw 2) (Aliases (getSection sm sl)) 0)
    as [bh|] eqn:Hbh;
    [|apply Hnone; [intros (_ & bh & Hb & _); rewrite Hbh in Hb; discriminate
                   |symmetry; exact Hpack]].
  destruct (Z.geb_spec (py + bh - 1) (h - 2)) as [Hskip|Hfit];
    [apply Hnone; [|symmetry; exact Hpack];
     intros (_ & bh' & Hb & Hf); rewrite Hbh in Hb; apply Some_eq in Hb;
     subst bh'; lia|].
  clear Hnone.
  destruct (packColumn h sm pw c px (py + bh + 2) rest) as [ps1 left1] eqn:E.
  inversion Hpack; subst. clear Hpack.
  destruct (IH (py + bh + 2) ps1 left E)
    as (Hlab & Hall & Hsorted & Hhead & e & Hend & Hleft).
  split; [cbn [map block_label app]; rewrite Hlab; reflexivity|].
  split; [constructor; [split; reflexivity|exact Hall]|].
  split.
  { constructor; [exact Hsorted|].
    destruct ps1 as [|q ps1]; constructor.
    left. apply Forall_inv in Hall as [Hc _].
    cbn [column origin_y height]. split; [exact Hc|].
    rewrite (Hhead q ps1 eq_refl). lia. }
  split; [intros p ps' E'; inversion E'; reflexivity|].
  exists e. split; [|exact Hleft]. right.
  destruct Hend as [[-> ->]|(ps' & p & -> & Hp)].
  + exists [], (mkPlacement c sl px py pw (bh + 2)). split; [reflexivity|].
    cbn [origin_y height]. lia.
  + exists (mkPlacement c sl px py pw (bh + 2) :: ps'), p.
    split; [reflexivity|exact Hp].
Qed.

(** A block that does not pass the test at the top of a column is placed in
  no column, nor is any block after it. *)
Lemma packColumns_unfit (n : nat) :
forall c sl rest,
  ~ fits_at h sm pw m sl ->
  packColumns n h sm pw m c (sl :: rest) = [].
Proof.
induction n as [|n IH]; intros c sl rest Hun; [reflexivity|].
cbn [packColumns]. rewrite packColumn_unfit by exact Hun.
cbn [app]. apply IH. exact Hun.
Qed.

Lemma packColumns_nil (n : nat) :
forall c, packColumns n h sm pw m c [] = [].
Proof.
induction n as [|n IH]; intros c; [reflexivity|].
cbn [packColumns packColumn app]. apply IH.
Qed.

(** The columns of the packing: the first labels are placed, each block
  follows the one before it, the first block of a column is at the margin,
  and the first label that is left passes the test neither at the top of
  a column nor, in the last column, under the last block. *)
Lemma packColumns_spec (n : nat) :
forall c rest,
  (exists dropped,
      map block_label (packColumns n h sm pw m c rest) ++ dropped = rest
      /\ forall sl dropped',
          dropped = sl :: dropped' -> (0 < n)%nat ->
          ~ fits_at h sm pw m sl
          \/ exists ps p,
              packColumns n h sm pw m c rest = ps ++ [p]
              /\ column p = c + Z.of_nat n - 1
              /\ ~ fits_at h sm pw (origin_y p + height p) sl)
  /\ Forall (fun p => width p = pw) (packColumns n h sm pw m c rest)
  /\ Sorted (follows h m sm) (packColumns n h sm pw m c rest)
  /\ (forall q qs,
         packColumns n h sm pw m c rest = q :: qs ->
         column q = c /\ origin_y q = m
         /\ exists rest', rest = block_label q :: rest').
Proof.
induction n as [|n IH]; intros c rest.
- cbn [packColumns]. split; [|split; [constructor|split; [constructor|]]].
  + exists rest. split; [reflexivity|]. intros sl d _ Hn. lia.
  + intros q qs E. discriminate.
- cbn [packColumns].
  destruct (packColumn h sm pw c (add m (mul (add pw m) c)) m rest)
    as [ps left] eqn:E.
  destruct (packColumn_spec c _ rest m ps left E)
    as (Hlab & Hall & Hsorted & Hhead & e & Hend & Hleft).
  destruct (IH (c + 1) left) as ((dropped & Hdrop & Hwhy) & Hall2 & Hsorted2
                                 & Hhead2).
  destruct Hend as [[-> ->]|(ps' & p & -> & Hp)].
  + (* nothing placed in this column: nothing is placed later *)
    cbn [map app] in Hlab. subst rest. cbn [app].
    destruct left as [|sl left].
    * rewrite packColumns_nil in *.
      split; [|split; [constructor|split; [constructor|]]].
      -- exists []. split; [reflexivity|]. intros sl d E'. discriminate.
      -- intros q qs E'. discriminate.
    * pose proof (Hleft sl left eq_refl) as Hun.
      rewrite (packColumns_unfit n (c + 1) sl left Hun) in *.
      split; [|split; [constructor|split; [constructor|]]].
      -- exists (sl :: left). split; [reflexivity|].
         intros sl0 d E' _. inversion E'; subst. left. exact Hun.
      -- intros q qs E'. discriminate.
  + assert (column p = c /\ width p = pw) as [Hpc Hpw].
    { rewrite Forall_forall in Hall. apply Hall.
      apply in_or_app. right. left. reflexivity. }
    split; [|split; [|split]].
    * exists dropped. split.
      { rewrite map_app, <- app_assoc, Hdrop. exact Hlab. }
      intros sl d Ed _. subst dropped.
      destruct n as [|n'].
      -- cbn [packColumns] in *. rewrite app_nil_r.
         right. exists ps', p. split; [reflexivity|].
         split; [lia|].
         cbn [map app] in Hdrop. subst left.
         rewrite Hp. exact (Hleft sl d eq_refl).
      -- destruct (Hwhy sl d eq_refl ltac:(lia)) as [Hun|(qs & q & Eq & Hqc & Hq)];
           [left; exact Hun|].
         right. exists ((ps' ++ [p]) ++ qs), q.
         split; [rewrite Eq, app_assoc; reflexivity|].
         split; [lia|exact Hq].
    * apply Forall_app. split; [|exact Hall2].
      eapply Forall_impl; [|exact Hall]. intros x [_ Hx]. exact Hx.
    * destruct (packColumns n h sm pw m (c + 1) left) as [|q qs] eqn:Eq;
        [rewrite app_nil_r; exact Hsorted|].
      destruct (Hhead2 q qs eq_refl) as (Hqc & Hqy & rest' & Hrest').
      apply Sorted_snoc_cons; [exact Hsorted|exact Hsorted2|].
      right. split; [lia|]. split; [exact Hqy|].
      rewrite Hpw, Hp. exact (Hleft _ _ Hrest').
    * intros q qs Eq.
      destruct ps' as [|p0 ps'']; cbn [app] in Eq; inversion Eq; subst.
      -- apply Forall_inv in Hall as [Hc _].
         split; [exact Hc|]. split; [exact (Hhead _ _ eq_refl)|].
         cbn [map app]. eexists. reflexivity.
      -- apply Forall_inv in Hall as [Hc _].
         split; [exact Hc|]. split; [exact (Hhead _ _ eq_refl)|].
         cbn [map app]. eexists. reflexivity.
Qed.

End Pack.

(** *** The pass follows the packing *)

Lemma after_Done_inv {A : Type} (pre : list event) (o : outcome A)
      (tr : list event) (a : A) :
  after pre o = Done tr a -> exists tr2, o = Done tr2 a /\ tr = pre ++ tr2.
Proof.
  destruct o as [tr2 b| |]; cbn [after]; intros E; try discriminate E.
  injection E as <- <-. exists tr2. split; reflexivity.
Qed.

Lemma logged_placement (c : Z) (l : string) (x y w h : Z) (tr : list event) :
  logged (Placement c l x y w h :: tr) = logged tr.
Proof. reflexivity. Qed.

Section PassPacks.

Variable RuneWidth : ascii -> Z.
Variable BuilderCap : Z -> Z.
Variables (h m : Z) (sm : gomap Section_).
Hypothesis Hh : h <= max_dimension.
Hypothesis Hm : - max_dimension <= m.
Hypothesis Htext : small_texts sm.

(** A column of the pass hands over the blocks of the packing, in order,
    up to a block whose drawing fails.  A column that is left for the next
    one has handed over all of them and leaves the labels the packing
    leaves; so has a column that ends the pass with nothing logged, and
    then no label is left. *)
Lemma fillColumn_pack (pw c px : Z) (rest : list string) :
  forall py,
    m <= py ->
    (exists more,
        placements (trace (fillColumn RuneWidth BuilderCap h sm pw c px py rest))
        ++ more
        = fst (packColumn h sm pw c px py rest))
    /\ forall tr l,
        fillColumn RuneWidth BuilderCap h sm pw c px py rest = Done tr l ->
        (forall r, l = NextColumn r ->
                   placements tr = fst (packColumn h sm pw c px py rest)
                   /\ r = snd (packColumn h sm pw c px py rest))
        /\ (l = EndPass -> logged tr = [] ->
            placements tr = fst (packColumn h sm pw c px py rest)
            /\ snd (packColumn h sm pw c px py rest) = []).
Proof.
  induction rest as [|sl rest IH]; intros py Hpy.
  - rewrite fillColumn_nil. cbn [packColumn fst snd].
    destruct (py <? h); cbn [trace placements app].
    + split; [exists []; reflexivity|]. intros tr l E.
      inversion E; subst. split.
      * intros r Hr. discriminate Hr.
      * intros _ _. split; reflexivity.
    + split; [exists []; reflexivity|]. intros tr l E.
      inversion E; subst. split.
      * intros r Hr. inversion Hr; subst. split; reflexivity.
      * intros Hl. discriminate Hl.
  - rewrite fillColumn_step. cbn [packColumn].
    destruct (Z.ltb_spec py h) as [Hlt|Hge].
    2:{ cbn [fst snd trace placements app].
        split; [exists []; reflexivity|]. intros tr l E.
        inversion E; subst. split.
        - intros r Hr. inversion Hr; subst. split; reflexivity.
        - intros Hl. discriminate Hl. }
    destruct (bodyHeight (sub pw 2) (Aliases (getSection sm sl)) 0)
      as [bh|] eqn:Hbh.
    2:{ cbn [fst snd trace placements app].
        split; [exists []; reflexivity|]. intros tr l E. discriminate E. }
    pose proof (bodyHeight_small sm sl _ _ Htext Hbh) as Hsmall.
    unfold max_text, max_dimension in *.
    rewrite (add_small py bh) by int_range.
    rewrite (sub_small (py + bh) 1) by int_range.
    rewrite (sub_small h 2) by int_range.
    destruct (Z.geb_spec (py + bh - 1) (h - 2)) as [Hskip|Hfit].
    { cbn [fst snd trace placements app].
      split; [exists []; reflexivity|]. intros tr l E.
      inversion E; subst. split.
      - intros r Hr. inversion Hr; subst. split; reflexivity.
      - intros Hl. discriminate Hl. }
    pose proof (drawSection_unplaced RuneWidth BuilderCap px py pw (add bh 2)
                                     (getSection sm sl)) as Hun.
    pose proof (drawSection_ok_args RuneWidth BuilderCap px py pw (add bh 2)
                                    (getSection sm sl)) as Hargs.
    rewrite (add_small bh 2) in * by int_range.
    replace (py + bh + 2) with (py + (bh + 2)) by lia.
    destruct (packColumn h sm pw c px (py + (bh + 2)) rest)
      as [ps left] eqn:E.
    cbn [fst snd].
    destruct (drawSection RuneWidth BuilderCap px py pw (bh + 2)
                          (getSection sm sl))
      as [ts [e|]| |]; cbn [trace] in Hun.
    + cbn [after trace app placements].
      rewrite placements_app, (unplaced_placements _ Hun).
      cbn [placements app].
      split; [exists ps; reflexivity|].
      intros tr l E'. inversion E'; subst. split.
      * intros r Hr. discriminate Hr.
      * intros _ Hlog. exfalso. cbn [app] in Hlog.
        rewrite logged_placement, logged_app in Hlog.
        apply app_eq_nil in Hlog as [_ Hlog]. discriminate Hlog.
    + destruct (Hargs ts eq_refl) as (_ & _ & _ & Hheight).
      rewrite (add_small py (bh + 2)) by int_range.
      destruct (IH (py + (bh + 2)) ltac:(lia)) as [(more & Hmore) Hclean].
      rewrite E in Hmore, Hclean. cbn [fst snd] in Hmore, Hclean.
      split.
      * exists more. rewrite !trace_after. cbn [app placements].
        rewrite placements_app, (unplaced_placements _ Hun). cbn [app].
        rewrite Hmore. reflexivity.
      * intros tr l E'.
        destruct (fillColumn RuneWidth BuilderCap h sm pw c px
                             (py + (bh + 2)) rest)
          as [tr' l'| |]; cbn [after] in E'; try discriminate E'.
        inversion E'; subst.
        destruct (Hclean tr' l eq_refl) as [Hnext Hend].
        cbn [app placements].
        rewrite placements_app, (unplaced_placements _ Hun). cbn [app].
        split.
        -- intros r Hr. destruct (Hnext r Hr) as [Hps Hleft].
           rewrite Hps. split; [reflexivity|exact Hleft].
        -- intros Hl Hlog.
           rewrite logged_placement, logged_app in Hlog.
           apply app_eq_nil in Hlog as [_ Hlog].
           destruct (Hend Hl Hlog) as [Hps Hleft].
           rewrite Hps. split; [reflexivity|exact Hleft].
    + cbn [after trace app placements].
      rewrite (unplaced_placements _ Hun).
      split; [exists ps; reflexivity|].
      intros tr0 l E'. discriminate E'.
    + cbn [after trace app placements].
      rewrite (unplaced_placements _ Hun).
      split; [exists ps; reflexivity|].
      intros tr0 l E'. discriminate E'.
Qed.

(** The columns of the pass hand over a prefix of the packing, and the
    whole of it when the pass returns with nothing logged. *)
Lemma fillColumns_pack (pw : Z) (n : nat) :
  forall c rest,
    0 <= c -> c + Z.of_nat n <= max_int ->
    (exists more,
        placements (trace (fillColumns RuneWidth BuilderCap n h sm pw m c rest))
        ++ more
        = packColumns n h sm pw m c rest)
    /\ forall tr,
        fillColumns RuneWidth BuilderCap n h sm pw m c rest = Done tr tt ->
        logged tr = [] ->
        placements tr = packColumns n h sm pw m c rest.
Proof.
  induction n as [|n IH]; intros c rest Hc Hn.
  - cbn [fillColumns packColumns ret trace placements app].
    split; [exists []; reflexivity|]. intros tr E _.
    inversion E; subst. reflexivity.
  - rewrite fillColumns_step. cbn [packColumns].
    destruct (fillColumn_pack pw c (add m (mul (add pw m) c)) rest m
                              ltac:(lia)) as [(more & Hmore) Hclean].
    destruct (packColumn h sm pw c (add m (mul (add pw m) c)) m rest)
      as [ps left] eqn:E.
    cbn [fst snd] in Hmore, Hclean.
    destruct (fillColumn RuneWidth BuilderCap h sm pw c
                         (add m (mul (add pw m) c)) m rest)
      as [tr1 [rest'|]| |]; cbn [trace] in Hmore.
    + destruct (Hclean tr1 (NextColumn rest') eq_refl) as [Hnext _].
      destruct (Hnext rest' eq_refl) as [Hps Hleft]. subst rest'.
      rewrite (add_small c 1) by int_range.
      destruct (IH (c + 1) left ltac:(lia) ltac:(lia))
        as [(more2 & Hmore2) Hclean2].
      split.
      * exists more2. rewrite trace_after, placements_app, <- app_assoc.
        rewrite Hmore2, Hps. reflexivity.
      * intros tr E' Hlog. clear Hmore.
        destruct (fillColumns RuneWidth BuilderCap n h sm pw m (c + 1) left)
          as [tr2 []| |]; cbn [after] in E'; try discriminate E'.
        inversion E' as [Htr]. subst tr.
        rewrite logged_app in Hlog.
        apply app_eq_nil in Hlog as [_ Hlog].
        rewrite placements_app, Hps, (Hclean2 tr2 eq_refl Hlog).
        reflexivity.
    + split.
      * exists (more ++ packColumns n h sm pw m (c + 1) left).
        cbn [trace]. rewrite app_assoc, Hmore. reflexivity.
      * intros tr E' Hlog. clear Hmore. inversion E' as [Htr]. subst tr.
        destruct (Hclean tr1 EndPass eq_refl) as [_ Hend].
        destruct (Hend eq_refl Hlog) as [Hps Hleft]. subst left.
        rewrite packColumns_nil, app_nil_r. exact Hps.
    + split.
      * exists (more ++ packColumns n h sm pw m (c + 1) left).
        cbn [trace]. rewrite app_assoc, Hmore. reflexivity.
      * intros tr0 E' _. discriminate E'.
    + split.
      * exists (more ++ packColumns n h sm pw m (c + 1) left).
        cbn [trace]. rewrite app_assoc, Hmore. reflexivity.
      * intros tr0 E' _. discriminate E'.
Qed.

Lemma maxColumns_in_int (w nc : Z) :
  maxColumns w minPanelWidth maxPanelWidth = Some nc -> in_int nc.
Proof.
  intros Hnc. unfold maxColumns in Hnc.
  destruct (quo (sub w 2) (add minPanelWidth 2)) as [x1|]; [|discriminate].
  destruct (quo (sub w 2) (add maxPanelWidth 2)) as [x2|] eqn:Hx2;
    [|discriminate].
  cbn [obind] in Hnc. apply quo_in_int in Hx2.
  destruct (x2 =? 0); apply Some_eq in Hnc; subst nc;
    [int_range|exact Hx2].
Qed.

(** The pass hands over a prefix of [pack], and the whole of it when it
    returns with nothing logged. *)
Lemma drawPanels_pack (w : Z) :
  (exists more,
      placements (trace (drawPanels RuneWidth BuilderCap w h sm m)) ++ more
      = pack w h sm m)
  /\ forall tr,
      drawPanels RuneWidth BuilderCap w h sm m = Done tr tt ->
      logged tr = [] ->
      placements tr = pack w h sm m.
Proof.
  rewrite drawPanels_unfold. unfold pack, minWindowWidth, minWindowHeight.
  destruct ((w <? 10) || (h <? 10)).
  { cbn [trace placements app]. split; [exists []; reflexivity|].
    intros tr E _. inversion E; subst. reflexivity. }
  rewrite trace_after, placements_app.
  rewrite (unplaced_placements _ (help_unplaced RuneWidth _)). cbn [app].
  destruct (maxColumns w minPanelWidth maxPanelWidth) as [nc|] eqn:Hnc.
  2:{ cbn [trace placements app after]. split; [exists []; reflexivity|].
      intros tr E _. discriminate E. }
  destruct (maxColumnWidth w nc m) as [pw|].
  2:{ cbn [trace placements app after]. split; [exists []; reflexivity|].
      intros tr E _. discriminate E. }
  pose proof (maxColumns_in_int w nc Hnc) as Hint.
  destruct (fillColumns_pack pw (Z.to_nat nc) 0 (sortStrings (keys sm))
                             ltac:(lia) ltac:(int_range))
    as [Hprefix Hclean].
  split; [exact Hprefix|].
  intros tr E Hlog.
  apply after_Done_inv in E as (tr2 & E2 & Htr). subst tr.
  rewrite logged_app in Hlog. apply app_eq_nil in Hlog as [_ Hlog].
  rewrite placements_app.
  rewrite (unplaced_placements _ (help_unplaced RuneWidth _)). cbn [app].
  exact (Hclean tr2 E2 Hlog).
Qed.

(** The blocks of a pass in their order: each is drawn right under the one
    before it, or opens the next column at the margin because it did not
    pass the test under that one; the first is at the margin of column 0. *)
Lemma drawPanels_follows (w : Z) :
  Sorted (follows h m sm)
         (placements (trace (drawPanels RuneWidth BuilderCap w h sm m)))
  /\ forall q qs,
      placements (trace (drawPanels RuneWidth BuilderCap w h sm m)) = q :: qs ->
      column q = 0 /\ origin_y q = m.
Proof.
  destruct (drawPanels_pack w) as [(more & Hmore) _].
  assert (Sorted (follows h m sm) (pack w h sm m)
          /\ forall q qs, pack w h sm m = q :: qs ->
                          column q = 0 /\ origin_y q = m) as [Hs Hhd].
  { unfold pack.
    destruct ((w <? minWindowWidth) || (h <? minWindowHeight));
      [split; [constructor|intros q qs E; discriminate E]|].
    destruct (maxColumns w minPanelWidth maxPanelWidth) as [nc|];
      [|split; [constructor|intros q qs E; discriminate E]].
    destruct (maxColumnWidth w nc m) as [pw|];
      [|split; [constructor|intros q qs E; discriminate E]].
    destruct (packColumns_spec h m sm pw (Z.to_nat nc) 0
                               (sortStrings (keys sm)))
      as (_ & _ & Hs & Hhd).
    split; [exact Hs|]. intros q qs E.
    destruct (Hhd q qs E) as (Hc & Hy & _). split; [exact Hc|exact Hy]. }
  rewrite <- Hmore in Hs, Hhd. split.
  - exact (Sorted_prefix _ _ _ Hs).
  - intros q qs E. rewrite E in Hhd. exact (Hhd q (qs ++ more) eq_refl).
Qed.

(** The first label a pass without a log entry leaves out passes the test
    neither at the top of a column nor, if the last column holds a block,
    under the last block of the last column. *)
Lemma drawPanels_left (w nc pw : Z) (tr : list event) (sl : string)
      (dropped : list string) :
  minWindowWidth <= w -> minWindowHeight <= h ->
  maxColumns w minPanelWidth maxPanelWidth = Some nc ->
  maxColumnWidth w nc m = Some pw ->
  0 < nc ->
  drawPanels RuneWidth BuilderCap w h sm m = Done tr tt ->
  logged tr = [] ->
  map block_label (placements tr) ++ sl :: dropped = sortStrings (keys sm) ->
  ~ fits_at h sm pw m sl
  \/ exists ps p,
      placements tr = ps ++ [p]
      /\ column p = nc - 1
      /\ ~ fits_at h sm pw (origin_y p + height p) sl.
Proof.
  intros Hw Hh' Hnc Hpw Hpos E Hlog Hlab.
  destruct (drawPanels_pack w) as [_ Hclean].
  rewrite (Hclean tr E Hlog) in *. clear Hclean E Hlog.
  unfold pack, minWindowWidth, minWindowHeight in *.
  destruct (Z.ltb_spec w 10) as [?|_]; [lia|].
  destruct (Z.ltb_spec h 10) as [?|_]; [lia|].
  cbn [orb] in *. rewrite Hnc, Hpw in *.
  destruct (packColumns_spec h m sm pw (Z.to_nat nc) 0
                             (sortStrings (keys sm)))
    as ((dropped0 & Hlab0 & Hdrop) & _).
  assert (dropped0 = sl :: dropped) as Hd.
  { eapply app_inv_head. etransitivity; [exact Hlab0|symmetry; exact Hlab]. }
  destruct (Hdrop sl dropped Hd ltac:(lia)) as [Hun|(ps & p & Hps & Hc & Hun)].
  - left. exact Hun.
  - right. exists ps, p. split; [exact Hps|]. split; [lia|exact Hun].
Qed.

End PassPacks.
(** C5, as the code has it.  In a pass over a viewport of at most 2^20
    cells each way, with a margin above -2^20 and blocks of at most 2^32
    characters: the blocks handed over are, in order, the first labels of the
    sorted labels, each once; their columns never go back; every one of them
    ends within the viewport, [y + bh + 2 <= h], that is, it did not meet the
    test [y + bh - 1 >= h - 2] of the code, although the cursor after it may
    reach [h - 2].  The first block is at the margin of column 0, and every
    later block is either right under the block before it, in the same
    column, or at the margin of the next column because it did not pass the
    test under the block before it.  The blocks are a prefix of the packing
    [pack], which is computed from the viewport, the margin and the sections
    alone; when the pass returns with nothing logged they are the whole
    packing, and then the first label left out passes the test neither at
    the top of a column nor under the last block of the last column.  A
    block that meets the test under the cursor ends the column with nothing
    drawn and the cursor into the labels unchanged, the next column starts
    from the margin with that same block, and a block that meets the test at
    the top of a column is in no column of the frame. *)
Theorem C5_first_fit_through_one_cursor :
  forall (RuneWidth : ascii -> Z) (BuilderCap : Z -> Z) (w h : Z)
         (sm : gomap Section_) (m : Z),
    modest w h m sm ->
    (exists dropped,
        map block_label
            (placements (trace (drawPanels RuneWidth BuilderCap w h sm m)))
        ++ dropped = sortStrings (keys sm))
    /\ StronglySorted lex_le (sortStrings (keys sm))
    /\ StronglySorted Z.le
         (map column
              (placements (trace (drawPanels RuneWidth BuilderCap w h sm m))))
    /\ (forall p,
           In p (placements (trace (drawPanels RuneWidth BuilderCap w h sm m))) ->
           exists pw bh,
             bodyHeight (sub pw 2) (Aliases (getSection sm (block_label p))) 0
             = Some bh
             /\ height p = bh + 2
             /\ ~ (origin_y p + bh - 1 >= h - 2))
    /\ Sorted (follows h m sm)
              (placements (trace (drawPanels RuneWidth BuilderCap w h sm m)))
    /\ (forall q qs,
           placements (trace (drawPanels RuneWidth BuilderCap w h sm m))
           = q :: qs ->
           column q = 0 /\ origin_y q = m)
    /\ (exists more,
           placements (trace (drawPanels RuneWidth BuilderCap w h sm m))
           ++ more = pack w h sm m)
    /\ (forall tr,
           drawPanels RuneWidth BuilderCap w h sm m = Done tr tt ->
           logged tr = [] ->
           placements tr = pack w h sm m
           /\ forall nc pw sl dropped,
               minWindowWidth <= w -> minWindowHeight <= h ->
               maxColumns w minPanelWidth maxPanelWidth = Some nc ->
               maxColumnWidth w nc m = Some pw ->
               0 < nc ->
               map block_label (placements tr) ++ sl :: dropped
               = sortStrings (keys sm) ->
               ~ fits_at h sm pw m sl
               \/ exists ps p,
                   placements tr = ps ++ [p]
                   /\ column p = nc - 1
                   /\ ~ fits_at h sm pw (origin_y p + height p) sl)
    /\ (forall pw c px py sl rest bh,
           m <= py < h ->
           bodyHeight (sub pw 2) (Aliases (getSection sm sl)) 0 = Some bh ->
           py + bh - 1 >= h - 2 ->
           fillColumn RuneWidth BuilderCap h sm pw c px py (sl :: rest)
           = Done [] (NextColumn (sl :: rest)))
    /\ (forall n pw c tr rest rest',
           fillColumn RuneWidth BuilderCap h sm pw c
                      (add m (mul (add pw m) c)) m rest
           = Done tr (NextColumn rest') ->
           fillColumns RuneWidth BuilderCap (S n) h sm pw m c rest
           = after tr (fillColumns RuneWidth BuilderCap n h sm pw m
                                   (add c 1) rest'))
    /\ (forall nc pw sl bh,
           maxColumns w minPanelWidth maxPanelWidth = Some nc ->
           maxColumnWidth w nc m = Some pw ->
           bodyHeight (sub pw 2) (Aliases (getSection sm sl)) 0 = Some bh ->
           m + bh - 1 >= h - 2 ->
           ~ In sl (map block_label
                        (placements
                           (trace (drawPanels RuneWidth BuilderCap w h sm m))))).
Proof.
  intros RW BC w h sm m (Hw & Hh & Hm & Htext).
  split; [apply drawPanels_labels|].
  split; [apply sortStrings_sorted|].
  split; [now apply drawPanels_columns|].
  split.
  { intros p Hin.
    destruct (drawPanels_placed RW BC h m sm Hh Hm Htext w p Hin)
      as (_ & _ & nc & pw & c & _ & _ & _ & Hp).
    destruct Hp as (_ & _ & _ & Hy & bh & Hbh & Hht & Hfit).
    exists pw, bh. split; [exact Hbh|]. split; [exact Hht|lia]. }
  split; [exact (proj1 (drawPanels_follows RW BC h m sm Hh Hm Htext w))|].
  split; [exact (proj2 (drawPanels_follows RW BC h m sm Hh Hm Htext w))|].
  split; [exact (proj1 (drawPanels_pack RW BC h m sm Hh Hm Htext w))|].
  split.
  { intros tr E Hlog. split.
    - exact (proj2 (drawPanels_pack RW BC h m sm Hh Hm Htext w) tr E Hlog).
    - intros nc pw sl dropped Hw' Hh' Hnc Hpw Hpos Hlab.
      exact (drawPanels_left RW BC h m sm Hh Hm Htext w nc pw tr sl dropped
                             Hw' Hh' Hnc Hpw Hpos E Hlog Hlab). }
  split; [intros pw c px py sl rest bh Hpy Hbh Hskip;
          apply (fillColumn_skip RW BC h m sm) with (bh := bh); assumption|].
  split; [intros n pw c tr rest rest' Hcol;
          now rewrite fillColumns_step, Hcol|].
  intros nc pw sl bh.
  exact (drawPanels_dropped RW BC h m sm Hh Hm Htext w nc pw sl bh).
Qed.

(** C5, as the specification states it, fails on its limit: a block of four
    lines at the margin 2 of a viewport of ten rows takes the cursor of its
    column to [2 + 6 = 8 = 10 - 2], and is placed. *)
Lemma C5_block_placed_with_cursor_at_limit :
  placements (trace (drawPanels sample.narrow sample.size_class 100 10
                                [("A"%string, sample.four)] 2))
  = [mkPlacement 0 "A" 2 2 96 6]
  /\ ~ spec_cursor_below_limit 10
       (placements (trace (drawPanels sample.narrow sample.size_class 100 10
                                      [("A"%string, sample.four)] 2))).
Proof.
  assert (placements (trace (drawPanels sample.narrow sample.size_class 100 10
                                        [("A"%string, sample.four)] 2))
          = [mkPlacement 0 "A" 2 2 96 6]) as H1 by (vm_compute; reflexivity).
  rewrite H1. split; [reflexivity|].
  intros H. specialize (H _ (or_introl eq_refl)). cbn in H. lia.
Qed.

(** The packer at work on a viewport of 120 by 12 with margin 2: two columns
    of width 57; "A" fills the first down to row 8, "B" does not fit under
    it and opens the second column, "C" fits at the top of no column and is
    left out. *)
Example first_fit_in_two_columns :
  placements (trace (drawPanels sample.narrow sample.size_class 120 12 sample.three_blocks 2))
  = [mkPlacement 0 "A" 2 2 57 6; mkPlacement 1 "B" 61 2 57 6]
  /\ rendered (trace (drawPanels sample.narrow sample.size_class 120 12 sample.three_blocks 2))
     = [("A", ["a"; "b"; "c"; "d"]); ("B", ["a"; "b"; "c"; "d"])]%string.
Proof. split; vm_compute; reflexivity. Qed.

(** ** Column packer: an error of [drawSection] ends the pass *)

Lemma unplaced_split (t1 t2 pre post : list event) (c : Z) (l : string)
      (x y bw bh : Z) :
  unplaced t1 ->
  t1 ++ t2 = pre ++ Placement c l x y bw bh :: post ->
  exists pre', pre = t1 ++ pre' /\ t2 = pre' ++ Placement c l x y bw bh :: post.
Proof.
  intros Hun. revert pre. induction Hun as [|e t1 He _ IH]; intros pre Heq.
  - exists pre. split; [reflexivity|exact Heq].
  - destruct pre as [|e' pre]; cbn [app] in Heq.
    + injection Heq as -> _. discriminate He.
    + injection Heq as -> Heq. destruct (IH pre Heq) as (pre' & -> & ->).
      exists pre'. split; reflexivity.
Qed.

Lemma unplaced_no_placement (t pre post : list event) (c : Z) (l : string)
      (x y bw bh : Z) :
  unplaced t -> t <> pre ++ Placement c l x y bw bh :: post.
Proof.
  intros Hun Heq. rewrite <- (app_nil_r t) in Heq.
  destruct (unplaced_split _ _ _ _ _ _ _ _ _ _ Hun Heq) as (pre' & _ & Hnil).
  destruct pre'; discriminate Hnil.
Qed.

Section ErrorEndsPass.

Variable RuneWidth : ascii -> Z.

Variable BuilderCap : Z -> Z.
Variables (h : Z) (sm : gomap Section_).

Lemma fillColumn_error (pw c px : Z) (rest : list string) :
  forall py pre c' l x y bw bh post trs e,
    trace (fillColumn RuneWidth BuilderCap h sm pw c px py rest)
    = pre ++ Placement c' l x y bw bh :: post ->
    drawSection RuneWidth BuilderCap x y bw bh (getSection sm l) = Done trs (Some e) ->
    post = trs ++ [LogError e]
    /\ fillColumn RuneWidth BuilderCap h sm pw c px py rest
       = Done (pre ++ Placement c' l x y bw bh :: post) EndPass.
Proof.
  induction rest as [|sl rest IH];
    intros py pre c' l x y bw bh post trs e Htr Herr.
  - rewrite fillColumn_nil in Htr.
    destruct (py <? h); destruct pre; discriminate Htr.
  - rewrite fillColumn_step in Htr |- *.
    destruct (py <? h); [|destruct pre; discriminate Htr].
    destruct (bodyHeight (sub pw 2) (Aliases (getSection sm sl)) 0) as [b|];
      [|destruct pre; discriminate Htr].
    destruct (sub (add py b) 1 >=? sub h 2);
      [destruct pre; discriminate Htr|].
    rewrite trace_after in Htr.
    pose proof (drawSection_unplaced RuneWidth BuilderCap px py pw (add b 2)
                                     (getSection sm sl)) as Hun.
    destruct pre as [|e0 pre]; cbn [app] in Htr.
    + injection Htr as <- <- <- <- <- <- Htr.
      rewrite Herr in Htr |- *. cbn [trace after app] in *.
      split; [now symmetry|now rewrite Htr].
    + injection Htr as <- Htr.
      destruct (drawSection RuneWidth BuilderCap px py pw (add b 2) (getSection sm sl))
        as [tr [e1|]| |]; cbn [trace] in *.
      * exfalso.
        apply (unplaced_no_placement (tr ++ [LogError e1]) pre post
                                      c' l x y bw bh);
          [|exact Htr].
        apply unplaced_app; [exact Hun|repeat constructor].
      * rewrite trace_after in Htr.
        destruct (unplaced_split _ _ _ _ _ _ _ _ _ _ Hun Htr)
          as (pre' & -> & Hrec).
        destruct (IH _ _ _ _ _ _ _ _ _ _ _ Hrec Herr) as (Hpost & Hdone).
        split; [exact Hpost|].
        rewrite Hdone. cbn [after app]. now rewrite <- app_assoc.
      * exfalso. now apply (unplaced_no_placement tr pre post c' l x y bw bh).
      * exfalso. now apply (unplaced_no_placement tr pre post c' l x y bw bh).
Qed.

Lemma fillColumns_error (pw m : Z) (n : nat) :
  forall c rest pre c' l x y bw bh post trs e,
    trace (fillColumns RuneWidth BuilderCap n h sm pw m c rest)
    = pre ++ Placement c' l x y bw bh :: post ->
    drawSection RuneWidth BuilderCap x y bw bh (getSection sm l) = Done trs (Some e) ->
    post = trs ++ [LogError e]
    /\ fillColumns RuneWidth BuilderCap n h sm pw m c rest
       = Done (pre ++ Placement c' l x y bw bh :: post) tt.
Proof.
  induction n as [|n IH];
    intros c rest pre c' l x y bw bh post trs e Htr Herr;
    [destruct pre; discriminate Htr|].
  rewrite fillColumns_step in Htr |- *.
  pose proof (fillColumn_error pw c (add m (mul (add pw m) c)) rest m)
    as Hcol.
  destruct (fillColumn RuneWidth BuilderCap h sm pw c (add m (mul (add pw m) c)) m rest)
    as [tr [rest'|]| |]; cbn [trace] in *.
  - rewrite trace_after in Htr.
    apply app_eq_app in Htr as (mid & [[Hpre Htail]|[Hfront Hsecond]]).
    + destruct mid as [|e0 mid].
      * rewrite app_nil_r in Hpre. subst tr. cbn [app] in Htail.
        destruct (IH _ _ [] _ _ _ _ _ _ _ _ _ (eq_sym Htail) Herr)
          as (Hpost & Hdone).
        split; [exact Hpost|]. rewrite Hdone. cbn [after app]. reflexivity.
      * cbn [app] in Htail. injection Htail as <- ->.
        destruct (Hcol pre c' l x y bw bh mid trs e Hpre Herr)
          as (_ & Hdone).
        discriminate Hdone.
    + subst pre.
      destruct (IH _ _ _ _ _ _ _ _ _ _ _ _ Hsecond Herr) as (Hpost & Hdone).
      split; [exact Hpost|]. rewrite Hdone. cbn [after].
      now rewrite <- app_assoc.
  - destruct (Hcol _ _ _ _ _ _ _ _ _ _ Htr Herr) as (Hpost & Hdone).
    split; [exact Hpost|]. injection Hdone as ->. reflexivity.
  - destruct (Hcol _ _ _ _ _ _ _ _ _ _ Htr Herr) as (_ & Hdone).
    discriminate Hdone.
  - destruct (Hcol _ _ _ _ _ _ _ _ _ _ Htr Herr) as (_ & Hdone).
    discriminate Hdone.
Qed.

End ErrorEndsPass.

(** C3, as the code has it.  When [drawSection] returns an error for a
    block the packer hands over, whatever comes after that hand-over in the
    pass is what [drawSection] did before failing followed by the log entry
    of the error, and the pass returns there: no later block is handed over
    or drawn. *)
Theorem C3_error_of_a_block_ends_the_pass :
  forall (RuneWidth : ascii -> Z) (BuilderCap : Z -> Z) (w h : Z) (sm : gomap Section_) (m : Z)
         (pre post trs : list event) (c : Z) (l : string) (x y bw bh : Z)
         (e : string),
    trace (drawPanels RuneWidth BuilderCap w h sm m)
    = pre ++ Placement c l x y bw bh :: post ->
    drawSection RuneWidth BuilderCap x y bw bh (getSection sm l) = Done trs (Some e) ->
    post = trs ++ [LogError e]
    /\ placements post = []
    /\ drawPanels RuneWidth BuilderCap w h sm m
       = Done (pre ++ Placement c l x y bw bh :: trs ++ [LogError e]) tt.
Proof.
  intros RW BC w h sm m pre post trs c l x y bw bh e Htr Herr.
  rewrite drawPanels_unfold in Htr |- *.
  destruct ((w <? 10) || (h <? 10)); [destruct pre; discriminate Htr|].
  rewrite trace_after in Htr.
  destruct (unplaced_split _ _ _ _ _ _ _ _ _ _ (help_unplaced RW _) Htr)
    as (pre' & -> & Hrest).
  destruct (maxColumns w minPanelWidth maxPanelWidth) as [nc|];
    [|destruct pre'; discriminate Hrest].
  destruct (maxColumnWidth w nc m) as [pw|];
    [|destruct pre'; discriminate Hrest].
  destruct (fillColumns_error RW BC h sm pw m _ _ _ _ _ _ _ _ _ _ _ _ _ Hrest Herr)
    as (Hpost & Hdone).
  split; [exact Hpost|]. split.
  - subst post. rewrite placements_app.
    pose proof (drawSection_unplaced RW BC x y bw bh (getSection sm l)) as Hun.
    rewrite Herr in Hun. cbn [trace] in Hun.
    now rewrite (unplaced_placements _ Hun).
  - rewrite Hdone. cbn [after]. subst post. rewrite <- !app_assoc.
    reflexivity.
Qed.

(** C3, as the specification states it, fails: on a viewport 11 wide with
    margin 4 the one column is 3 wide, drawing block "A" fails on its label
    after the frame is drawn, the error is logged, and the pass returns:
    block "B", the next label, is handed to no column. *)
Lemma C3_pass_stops_at_failing_block :
  sortStrings (keys sample.two_blocks) = ["A"; "B"]%string
  /\ (exists trs,
         drawSection sample.narrow sample.size_class 4 4 3 6
                     (getSection sample.two_blocks "A")
         = Done trs (Some "w cannot be negative"%string))
  /\ map block_label
         (placements (trace (drawPanels sample.narrow sample.size_class 11 30
                                        sample.two_blocks 4)))
     = ["A"%string]
  /\ ~ In "B"%string
       (map block_label
            (placements (trace (drawPanels sample.narrow sample.size_class 11 30
                                           sample.two_blocks 4))))
  /\ exists tr,
      drawPanels sample.narrow sample.size_class 11 30 sample.two_blocks 4
      = Done (tr ++ [LogError "w cannot be negative"]) tt.
Proof.
  assert (map block_label
              (placements (trace (drawPanels sample.narrow sample.size_class 11 30
                                             sample.two_blocks 4)))
          = ["A"%string]) as H1 by (vm_compute; reflexivity).
  split; [vm_compute; reflexivity|].
  split; [eexists; vm_compute; reflexivity|].
  split; [exact H1|].
  split; [rewrite H1; intros [H|[]]; discriminate H|].
  exists (removelast
            (trace (drawPanels sample.narrow sample.size_class 11 30 sample.two_blocks 4))).
  vm_compute. reflexivity.
Qed.

(* ================================================================= *)
(** * The theorems at sample inputs *)

Lemma sample_small_texts (l : string) (s : Section_) :
  textLength (Aliases s) <= max_text -> small_texts [(l, s)].
Proof. intros H. constructor; [exact H|constructor]. Defined.

Lemma C2_placements_within_viewport_witness :
  modest 100 10 2 [("A"%string, sample.six)]
  /\ In (mkPlacement 0 "A" 2 2 96 8)
        (placements (trace (drawPanels sample.narrow sample.size_class 100 10
                                       [("A"%string, sample.six)] 2)))
  /\ 2 + 8 <= 10 /\ 2 + 96 <= 100.
Proof.
  assert (0 <= 2) as H0 by lia.
  assert (modest 100 10 2 [("A"%string, sample.six)]) as Hmod.
  { unfold modest, max_dimension. repeat split; try lia.
    apply sample_small_texts. vm_compute. discriminate. }
  assert (In (mkPlacement 0 "A" 2 2 96 8)
             (placements (trace (drawPanels sample.narrow sample.size_class 100 10
                                            [("A"%string, sample.six)] 2))))
    as Hin by (vm_compute; left; reflexivity).
  destruct (C2_placements_within_viewport sample.narrow sample.size_class 100 10 _ 2 _
                                          Hmod Hin) as (Hy & Hx & _).
  specialize (Hx H0).
  cbn [origin_x origin_y width height] in Hy, Hx.
  split; [exact Hmod|]. split; [exact Hin|].
  split; [exact Hy|exact Hx].
Defined.

Lemma C3_error_of_a_block_ends_the_pass_witness :
  trace (drawPanels sample.narrow sample.size_class 11 30 sample.two_blocks 4)
  = firstn 21 (trace (drawPanels sample.narrow sample.size_class 11 30 sample.two_blocks 4))
    ++ Placement 0 "A" 4 4 3 6
    :: skipn 22 (trace (drawPanels sample.narrow sample.size_class 11 30 sample.two_blocks 4))
  /\ drawSection sample.narrow sample.size_class 4 4 3 6 (getSection sample.two_blocks "A")
     = Done (trace (drawSection sample.narrow sample.size_class 4 4 3 6
                                (getSection sample.two_blocks "A")))
            (Some "w cannot be negative"%string)
  /\ placements
       (skipn 22 (trace (drawPanels sample.narrow sample.size_class 11 30 sample.two_blocks 4)))
     = [].
Proof.
  assert (trace (drawPanels sample.narrow sample.size_class 11 30 sample.two_blocks 4)
          = firstn 21 (trace (drawPanels sample.narrow sample.size_class 11 30
                                         sample.two_blocks 4))
            ++ Placement 0 "A" 4 4 3 6
            :: skipn 22 (trace (drawPanels sample.narrow sample.size_class 11 30
                                           sample.two_blocks 4)))
    as Htr by (vm_compute; reflexivity).
  assert (drawSection sample.narrow sample.size_class 4 4 3 6 (getSection sample.two_blocks "A")
          = Done (trace (drawSection sample.narrow sample.size_class 4 4 3 6
                                     (getSection sample.two_blocks "A")))
                 (Some "w cannot be negative"%string))
    as Herr by (vm_compute; reflexivity).
  split; [exact Htr|]. split; [exact Herr|].
  exact (proj1 (proj2 (C3_error_of_a_block_ends_the_pass
                         sample.narrow sample.size_class 11 30 sample.two_blocks 4
                         _ _ _ 0 "A"%string 4 4 3 6 _ Htr Herr))).
Defined.

Lemma C4_truncate_ellipsis_from_width_4_witness :
  single_byte "hello world"
  /\ 0 <= 8 < len "hello world"
  /\ len "hello world" <= max_int
  /\ sample.size_class 8 = 8
  /\ exists r,
      truncate sample.size_class "hello world" 8 = Some (r, None)
      /\ len r = 8
      /\ r = if 4 <=? 8
             then (substring 0 (Z.to_nat (8 - 3)) "hello world" ++ "...")%string
             else substring 0 (Z.to_nat 8) "hello world".
Proof.
  assert (0 <= 8 < len "hello world") as Hw by (vm_compute; split; [discriminate|reflexivity]).
  assert (len "hello world" <= max_int) as Hmax by (vm_compute; discriminate).
  assert (single_byte "hello world") as Hsb by (repeat constructor).
  assert (sample.size_class 8 = 8) as Hcap by reflexivity.
  split; [exact Hsb|]. split; [exact Hw|]. split; [exact Hmax|].
  split; [exact Hcap|].
  exact (proj1 (C4_truncate_ellipsis_from_width_4
                  sample.size_class "hello world" 8 Hsb Hw Hmax Hcap)).
Defined.

Lemma C5_first_fit_through_one_cursor_witness :
  modest 120 12 2 sample.three_blocks
  /\ placements (trace (drawPanels sample.narrow sample.size_class 120 12
                                   sample.three_blocks 2))
     = [mkPlacement 0 "A" 2 2 57 6; mkPlacement 1 "B" 61 2 57 6]
  /\ Sorted (follows 12 2 sample.three_blocks)
            (placements (trace (drawPanels sample.narrow sample.size_class
                                           120 12 sample.three_blocks 2)))
  /\ placements (trace (drawPanels sample.narrow sample.size_class 120 12
                                   sample.three_blocks 2))
     = pack 120 12 sample.three_blocks 2
  /\ (~ fits_at 12 sample.three_blocks 57 2 "C"
      \/ exists ps p,
          placements (trace (drawPanels sample.narrow sample.size_class 120 12
                                        sample.three_blocks 2))
          = ps ++ [p]
          /\ column p = 2 - 1
          /\ ~ fits_at 12 sample.three_blocks 57 (origin_y p + height p) "C").
Proof.
  assert (modest 120 12 2 sample.three_blocks) as Hmod.
  { unfold modest, max_dimension. repeat split; try lia.
    repeat constructor; vm_compute; discriminate. }
  assert (drawPanels sample.narrow sample.size_class 120 12
                     sample.three_blocks 2
          = Done (trace (drawPanels sample.narrow sample.size_class 120 12
                                    sample.three_blocks 2)) tt)
    as Hdone by (vm_compute; reflexivity).
  assert (logged (trace (drawPanels sample.narrow sample.size_class 120 12
                                    sample.three_blocks 2)) = [])
    as Hlog by (vm_compute; reflexivity).
  assert (map block_label
              (placements (trace (drawPanels sample.narrow sample.size_class
                                             120 12 sample.three_blocks 2)))
          ++ "C"%string :: []
          = sortStrings (keys sample.three_blocks))
    as Hlab by (vm_compute; reflexivity).
  assert (maxColumns 120 minPanelWidth maxPanelWidth = Some 2) as Hnc
      by (vm_compute; reflexivity).
  assert (maxColumnWidth 120 2 2 = Some 57) as Hpw
      by (vm_compute; reflexivity).
  assert (minWindowWidth <= 120) as Hw by (vm_compute; discriminate).
  assert (minWindowHeight <= 12) as Hh by (vm_compute; discriminate).
  assert (0 < 2) as Hpos by lia.
  destruct (C5_first_fit_through_one_cursor
              sample.narrow sample.size_class 120 12 sample.three_blocks 2
              Hmod)
    as (_ & _ & _ & _ & Hfollows & _ & _ & Hclean & _).
  destruct (Hclean _ Hdone Hlog) as [Hpack Hleft].
  split; [exact Hmod|].
  split; [vm_compute; reflexivity|].
  split; [exact Hfollows|].
  split; [exact Hpack|].
  exact (Hleft 2 57 "C"%string [] Hw Hh Hnc Hpw Hpos Hlab).
Defined.

Lemma C6_requiredHeight_ceiling_monotone_witness :
  1 <= 10
  /\ len "abc" <= len "abcdefghijklmnopqrstuvwxy"
  /\ len "abcdefghijklmnopqrstuvwxy" <= max_int
  /\ (exists h h',
         minHeight 10 "abc" = Some h
         /\ minHeight 10 "abcdefghijklmnopqrstuvwxy" = Some h' /\ h <= h')
  /\ minHeight 10 "abcdefghijklmnopqrstuvwxy" = Some 3.
Proof.
  assert (1 <= 10) as Hw by lia.
  assert (len "abc" <= len "abcdefghijklmnopqrstuvwxy") as Hle
      by (vm_compute; discriminate).
  assert (len "abcdefghijklmnopqrstuvwxy" <= max_int) as Hmax
      by (vm_compute; discriminate).
  destruct (C6_requiredHeight_ceiling_monotone
              10 "abc" "abcdefghijklmnopqrstuvwxy" Hw Hle Hmax)
    as (_ & Hmono & _ & H25).
  split; [exact Hw|]. split; [exact Hle|]. split; [exact Hmax|].
  split; [exact Hmono|]. apply H25. reflexivity.
Defined.

Lemma C7_small_viewport_draws_nothing_witness :
  (5 < 10 \/ 24 < 10)
  /\ drawPanels sample.narrow sample.size_class 5 24 sample.sections 2 = Done [] tt.
Proof.
  assert (5 < 10 \/ 24 < 10) as Hsmall by (left; lia).
  split; [exact Hsmall|].
  exact (C7_small_viewport_draws_nothing
           sample.narrow sample.size_class 5 24 sample.sections 2 Hsmall).
Defined.

Lemma sample_keys_distinct (k1 k2 : string) :
  k1 <> k2 -> NoDup [k1; k2].
Proof.
  intros Hne. constructor; [intros [H|[]]; now apply Hne|].
  constructor; [intros []|constructor].
Defined.

Lemma C8_merge_last_write_wins_witness :
  NoDup (keys (Aliases sample.git_local))
  /\ exists tr s,
      mergeSections sample.git sample.git_local = Done tr s
      /\ lookup "gs" (Aliases s)
         = Some (mkAlias "gs" "git status -sb" EmptyString)
      /\ lookup "gl" (Aliases s) = Some (mkAlias "gl" "git log" EmptyString)
      /\ lookup "gd" (Aliases s) = Some (mkAlias "gd" "git diff" EmptyString).
Proof.
  assert (NoDup (keys (Aliases sample.git_local))) as Hnd
      by (apply sample_keys_distinct; discriminate).
  split; [exact Hnd|].
  destruct (C8_merge_last_write_wins sample.git sample.git_local Hnd)
    as (tr & s & Hrun & _ & Hlk & _).
  exists tr, s. split; [exact Hrun|].
  rewrite !Hlk. repeat split; reflexivity.
Defined.

Lemma sample_same_sections : same_sections sample.sections sample.sections'.
Proof.
  split; [apply sample_keys_distinct; discriminate|].
  split; [apply sample_keys_distinct; discriminate|].
  intros l. cbn [lookup sample.sections sample.sections'].
  destruct (String.eqb_spec l "git") as [->|Hg].
  - cbn. split; [reflexivity|].
    split; [apply sample_keys_distinct; discriminate|].
    split; [apply sample_keys_distinct; discriminate|].
    intros k. cbn [lookup sample.git sample.git' sample.alias Aliases].
    destruct (String.eqb_spec k "gs") as [->|Hs]; [reflexivity|].
    destruct (String.eqb_spec k "gl") as [->|Hl]; reflexivity.
  - destruct (String.eqb_spec l "Veggies") as [->|Hv]; [|exact I].
    split; [reflexivity|].
    assert (NoDup (keys (Aliases sample.veggies))) as Hnd
        by (constructor; [intros []|constructor]).
    split; [exact Hnd|]. split; [exact Hnd|]. reflexivity.
Defined.

Lemma C9_layout_is_deterministic_witness :
  same_sections sample.sections sample.sections'
  /\ drawPanels sample.narrow sample.size_class 80 24 sample.sections 2
     = drawPanels sample.narrow sample.size_class 80 24 sample.sections' 2.
Proof.
  split; [exact sample_same_sections|].
  exact (proj1 (C9_layout_is_deterministic
                  sample.narrow sample.size_class 80 24 2 sample.sections sample.sections'
                  sample_same_sections)).
Defined.

Lemma C10_zero_width_division_reachable_witness :
  10 <= 10 < 54 /\ 10 = 2 * 4 + 2 /\ 10 <= 10 /\ 4 < 10
  /\ sortStrings (keys sample.sections) = ["Veggies"; "git"]%string
  /\ Aliases (getSection sample.sections "Veggies") <> []
  /\ maxColumnWidth 10 1 4 = Some 2
  /\ exists tr,
      drawPanels sample.narrow sample.size_class 10 10 sample.sections 4 = Panic tr
      /\ placements tr = [].
Proof.
  assert (10 <= 10 < 54) as Hw by lia.
  assert (10 = 2 * 4 + 2) as Hm by lia.
  assert (10 <= 10) as Hh by lia.
  assert (4 < 10) as Hmh by lia.
  assert (sortStrings (keys sample.sections) = ["Veggies"; "git"]%string)
    as Hsl by (vm_compute; reflexivity).
  assert (Aliases (getSection sample.sections "Veggies") <> [])
    as Hne by (vm_compute; discriminate).
  destruct (C10_zero_width_division_reachable
              sample.narrow sample.size_class 10 10 4 sample.sections "Veggies" ["git"%string]
              "carv: carrot --version" Hw Hm Hh Hmh Hsl Hne)
    as (_ & _ & Hpw & Hpanic).
  split; [exact Hw|]. split; [exact Hm|]. split; [exact Hh|].
  split; [exact Hmh|]. split; [exact Hsl|]. split; [exact Hne|].
  split; [exact Hpw|exact Hpanic].
Defined.

(* ================================================================= *)
(** * Further properties of the code *)

(** ** Text shaper: [truncate] and the capacity of its builder *)

(** With a capacity of at most 3 that the text does not reach, the second
    loop reads past the last rune. *)
Lemma truncate_overrun_unmarked (BuilderCap : Z -> Z) (text : string) (w : Z) :
  0 <= w < len text -> len text <= max_int ->
  0 <= BuilderCap w <= 3 -> len text < BuilderCap w ->
  truncate BuilderCap text w = None.
Proof.
  intros Hw Hmax Hc Hcl. unfold truncate.
  destruct (Z.ltb_spec w 0) as [?|_]; [lia|].
  destruct (Z.leb_spec (len text) w) as [?|_]; [lia|].
  rewrite (sub_small (BuilderCap w) 3) by int_range.
  replace (Z.to_nat (BuilderCap w - 3)) with 0%nat by lia.
  cbn [writeRunes obind fst snd].
  change (len EmptyString >? 0) with false. cbv iota.
  unfold len in *.
  rewrite writeRunes_overrun by (rewrite ?length_runes; lia).
  reflexivity.
Qed.

Lemma substring_append_prefix (p q : string) :
  substring 0 (String.length p) (p ++ q) = p.
Proof.
  induction p as [|c p IH]; cbn [String.length append substring].
  - destruct q; reflexivity.
  - rewrite IH. reflexivity.
Qed.

Lemma substring_whole (s : string) : substring 0 (String.length s) s = s.
Proof.
  induction s as [|c s IH]; cbn [String.length substring]; [reflexivity|].
  rewrite IH. reflexivity.
Qed.

(** What [truncate] returns for a text that does not fit, by the capacity
    [c] of its builder: [c] characters, when the text has them. *)
Lemma truncate_cut (BuilderCap : Z -> Z) (s r : string) (w : Z) :
  0 <= w < len s -> len s <= max_int ->
  0 <= BuilderCap w <= max_int ->
  truncate BuilderCap s w = Some (r, None) ->
  len r = BuilderCap w
  /\ (if 4 <=? BuilderCap w
      then r = (substring 0 (Z.to_nat (BuilderCap w - 3)) s ++ "...")%string
           /\ BuilderCap w <= len s + 3
      else r = substring 0 (Z.to_nat (BuilderCap w)) s
           /\ BuilderCap w <= len s).
Proof.
  intros Hw Hmax Hc Hr.
  destruct (Z.leb_spec 4 (BuilderCap w)) as [H4|H4].
  - destruct (Z.le_gt_cases (BuilderCap w) (len s + 3)) as [Hle|Hgt].
    + rewrite truncate_marked in Hr by lia. apply Some_eq in Hr.
      assert (r = (substring 0 (Z.to_nat (BuilderCap w - 3)) s
                   ++ "...")%string) as -> by (inversion Hr; reflexivity).
      split; [|split; [reflexivity|exact Hle]].
      rewrite len_append, len_substring_prefix by (unfold len in *; lia).
      change (len "...") with 3. lia.
    + rewrite truncate_overrun in Hr by lia. discriminate Hr.
  - destruct (Z.le_gt_cases (BuilderCap w) (len s)) as [Hle|Hgt].
    + rewrite truncate_unmarked in Hr by lia. apply Some_eq in Hr.
      assert (r = substring 0 (Z.to_nat (BuilderCap w)) s) as ->
          by (inversion Hr; reflexivity).
      split; [|split; [reflexivity|exact Hle]].
      rewrite len_substring_prefix by (unfold len in *; lia). lia.
    + rewrite truncate_overrun_unmarked in Hr by lia. discriminate Hr.
Qed.

(** X1.  [truncate] on a text of single-byte characters.  A negative width
    is refused, with an empty result.  A text of at most [w] bytes is
    returned as it is.  A longer text is cut by the capacity [c = b.Cap()]
    of the builder after [b.Grow(w)], not by [w]: with [4 <= c <= len s + 3]
    the result is the first [c - 3] characters and the marker, [c]
    characters in all; with [c <= 3] and [c <= len s] it is the first [c]
    characters, without a marker; and when [c] is beyond that, the loop
    reads [rs[i]] past the last rune and the call panics.  With the
    capacities of the current runtime, which rounds up to a size class,
    [truncate "hello" 3] is "hello..." and [truncate "0123456789" 9]
    panics. *)
Theorem truncate_cuts_to_capacity :
  forall (BuilderCap : Z -> Z) (s : string) (w : Z),
    plain s ->
    (w < 0 ->
     truncate BuilderCap s w
     = Some (EmptyString, Some "w cannot be negative"%string))
    /\ (0 <= w -> len s <= w -> truncate BuilderCap s w = Some (s, None))
    /\ (0 <= w < len s -> 4 <= BuilderCap w <= len s + 3 ->
        truncate BuilderCap s w
        = Some ((substring 0 (Z.to_nat (BuilderCap w - 3)) s ++ "...")%string,
                None)
        /\ len (substring 0 (Z.to_nat (BuilderCap w - 3)) s ++ "...")
           = BuilderCap w)
    /\ (0 <= w < len s -> 0 <= BuilderCap w <= 3 -> BuilderCap w <= len s ->
        truncate BuilderCap s w
        = Some (substring 0 (Z.to_nat (BuilderCap w)) s, None)
        /\ len (substring 0 (Z.to_nat (BuilderCap w)) s) = BuilderCap w)
    /\ (0 <= w < len s -> 0 <= BuilderCap w <= max_int ->
        len s + 3 < BuilderCap w \/ (BuilderCap w <= 3 /\ len s < BuilderCap w) ->
        truncate BuilderCap s w = None)
    /\ truncate sample.size_class "hello" 3 = Some ("hello..."%string, None)
    /\ truncate sample.size_class "0123456789" 9 = None.
Proof.
  intros BuilderCap s w [_ Hmax].
  split; [apply truncate_negative|].
  split; [apply truncate_fit|].
  split.
  { intros Hw Hc. split; [apply truncate_marked; assumption|].
    rewrite len_append, len_substring_prefix by (unfold len in *; lia).
    change (len "...") with 3. lia. }
  split.
  { intros Hw Hc Hcl. split; [apply truncate_unmarked; assumption|].
    rewrite len_substring_prefix by (unfold len in *; lia). lia. }
  split.
  { intros Hw Hc [Hover|[Hc3 Hover]].
    - apply truncate_overrun; lia.
    - apply truncate_overrun_unmarked; lia. }
  split; vm_compute; reflexivity.
Qed.

(** X2.  [truncate] is idempotent on texts of single-byte characters,
    whatever capacity in [0, 2^63) its builder has: a text it returns for a
    width [w] without an error is returned unchanged when it is truncated to
    [w] again. *)
Theorem truncate_idempotent :
  forall (BuilderCap : Z -> Z) (s r : string) (w : Z),
    plain s ->
    0 <= BuilderCap w <= max_int ->
    truncate BuilderCap s w = Some (r, None) ->
    truncate BuilderCap r w = Some (r, None).
Proof.
  intros BuilderCap s r w [_ Hmax] Hc Hr.
  destruct (Z.lt_ge_cases w 0) as [Hneg|Hw].
  { rewrite truncate_negative in Hr by exact Hneg. discriminate Hr. }
  destruct (Z.le_gt_cases (len s) w) as [Hle|Hgt].
  { rewrite truncate_fit in Hr by assumption. apply Some_eq in Hr.
    assert (s = r) as <- by (inversion Hr; reflexivity).
    apply truncate_fit; assumption. }
  destruct (truncate_cut BuilderCap s r w ltac:(lia) Hmax Hc Hr)
    as [Hlen Hshape].
  destruct (Z.le_gt_cases (len r) w) as [Hfit|Hcut];
    [apply truncate_fit; assumption|].
  destruct (Z.leb_spec 4 (BuilderCap w)) as [H4|H4].
  - destruct Hshape as [Hshape Hle].
    rewrite truncate_marked by lia.
    assert (Z.to_nat (BuilderCap w - 3)
            = String.length (substring 0 (Z.to_nat (BuilderCap w - 3)) s))
      as Hk.
    { pose proof (len_substring_prefix (Z.to_nat (BuilderCap w - 3)) s
                                       ltac:(unfold len in *; lia)) as Hl.
      unfold len in Hl. lia. }
    rewrite Hshape at 1. rewrite Hk at 1.
    rewrite substring_append_prefix. rewrite <- Hshape. reflexivity.
  - destruct Hshape as [Hshape Hle].
    rewrite truncate_unmarked by lia.
    replace (Z.to_nat (BuilderCap w)) with (String.length r)
      by (unfold len in Hlen; lia).
    rewrite substring_whole. reflexivity.
Qed.

(** ** Text shaper: what [drawTextBox] writes, and where *)

Lemma written_app (tr1 tr2 : list event) :
  written (tr1 ++ tr2) = written tr1 ++ written tr2.
Proof. apply flat_map_app. Qed.

Lemma within_app (x y w h : Z) (tr1 tr2 : list event) :
  within x y w h tr1 -> within x y w h tr2 -> within x y w h (tr1 ++ tr2).
Proof. intros H1 H2. apply Forall_app. split; assumption. Qed.

Lemma in_area_mono (x y w h x' y' w' h' : Z) (e : event) :
  x' <= x -> x + w <= x' + w' -> y' <= y -> y + h <= y' + h' ->
  in_area x y w h e -> in_area x' y' w' h' e.
Proof.
  intros Hx Hw Hy Hh. destruct e; cbn [in_area]; try exact (fun H => H).
  intros [Hcx Hcy]. split; lia.
Qed.

Lemma within_mono (x y w h x' y' w' h' : Z) (tr : list event) :
  x' <= x -> x + w <= x' + w' -> y' <= y -> y + h <= y' + h' ->
  within x y w h tr -> within x' y' w' h' tr.
Proof.
  intros Hx Hw Hy Hh. apply Forall_impl. intros e.
  apply in_area_mono; assumption.
Qed.

Lemma runes_string_of_list_ascii (l : list ascii) :
  runes (string_of_list_ascii l) = l.
Proof. apply list_ascii_of_string_of_list_ascii. Qed.

Lemma string_of_runes (s : string) : string_of_list_ascii (runes s) = s.
Proof. apply string_of_list_ascii_of_string. Qed.

Lemma trace_bind_ret {A B : Type} (m : outcome A) (b : B) :
  trace (m ;; ret b) = trace m.
Proof. destruct m; cbn [bind after ret trace]; [apply app_nil_r| |]; reflexivity. Qed.

Section TextBox.

Variable RuneWidth : ascii -> Z.

(** [emitStr] writes the runes of its string, whatever their widths: a rune
  of width zero is put on a space as a combining character. *)
Lemma emitRunes_written (cs : list ascii) :
forall x y st, written (emitRunes RuneWidth x y st cs) = cs.
Proof.
induction cs as [|c cs IH]; intros x y st; cbn [emitRunes]; [reflexivity|].
destruct (RuneWidth c =? 0); unfold written in *; cbn [flat_map runes_of app];
  rewrite IH; reflexivity.
Qed.

(** Runes that are one cell wide at most take one cell each, from [x] on
  to the right in row [y]. *)
Lemma emitRunes_within (cs : list ascii) :
narrow_runes RuneWidth ->
forall x y st,
  in_int x -> in_int (x + Z.of_nat (List.length cs)) ->
  within x y (Z.of_nat (List.length cs)) 1 (emitRunes RuneWidth x y st cs).
Proof.
intros Hnarrow. induction cs as [|c cs IH]; intros x y st Hx Hend;
  cbn [emitRunes]; [constructor|].
cbn [List.length] in *.
assert (add x (RuneWidth c) = x + 1 \/ RuneWidth c = 0) as Hstep.
{ destruct (Z.eq_dec (RuneWidth c) 0) as [E|Hne]; [right; exact E|left].
  pose proof (Hnarrow c) as Hc.
  replace (RuneWidth c) with 1 by lia.
  apply add_small. int_range. }
assert (within (x + 1) y (Z.of_nat (List.length cs)) 1
               (emitRunes RuneWidth (x + 1) y st cs)) as Hrest
    by (apply IH; int_range).
apply (within_mono _ _ _ _ x y (Z.of_nat (S (List.length cs))) 1) in Hrest;
  [|lia|lia|lia|lia].
destruct (Z.eqb_spec (RuneWidth c) 0) as [E|Hne].
- constructor; [cbn [in_area]; lia|].
  rewrite (add_small x 1) by int_range. exact Hrest.
- constructor; [cbn [in_area]; lia|].
  destruct Hstep as [->|E]; [exact Hrest|contradiction].
Qed.

Lemma emitStr_trace (x y : Z) (st : style) (s : string) :
emitStr RuneWidth x y st s
= Done (emitRunes RuneWidth x y st (runes s) ++ [Show]) tt.
Proof. reflexivity. Qed.

(** The loop over the lines writes all the runes, in order. *)
Lemma textLines_written (fuel : nat) :
forall x y w st rs,
  0 < w -> (List.length rs <= fuel)%nat ->
  exists tr, textLines RuneWidth fuel x y w st rs = Done tr tt
             /\ written tr = rs.
Proof.
induction fuel as [|fuel IH]; intros x y w st rs Hw Hlen;
  destruct rs as [|r rs]; cbn [textLines];
  try (exists []; split; reflexivity); cbn [List.length] in Hlen; [lia|].
rewrite emitStr_trace. rewrite runes_string_of_list_ascii.
destruct (IH x (add y 1) w st (skipn (Z.to_nat w) (r :: rs)) Hw)
  as (tr & Htr & Hwr).
- rewrite length_skipn. cbn [List.length]. lia.
- rewrite Htr. cbn [bind after].
  eexists. split; [reflexivity|].
  rewrite !written_app, emitRunes_written, Hwr.
  cbn [written flat_map runes_of app]. rewrite app_nil_r.
  apply firstn_skipn.
Qed.

(** The loop over the lines stays in the [n] rows from [y] on that the runes
  need, and in the [w] columns from [x] on. *)
Lemma textLines_within (fuel : nat) :
narrow_runes RuneWidth ->
forall x y w n st rs,
  0 < w -> (List.length rs <= fuel)%nat ->
  Z.of_nat (List.length rs) <= n * w ->
  in_int x -> in_int (x + w) -> in_int y -> in_int (y + n) ->
  within x y w n (trace (textLines RuneWidth fuel x y w st rs)).
Proof.
intros Hnarrow.
induction fuel as [|fuel IH]; intros x y w n st rs Hw Hlen Hn Hx Hxw Hy Hyn;
  destruct rs as [|r rs]; cbn [textLines];
  try apply Forall_nil; cbn [List.length] in Hlen.
rewrite emitStr_trace. rewrite runes_string_of_list_ascii.
rewrite trace_bind. cbn [trace].
assert (1 <= n) as Hn1 by (cbn [List.length] in Hn; nia).
set (line := firstn (Z.to_nat w) (r :: rs)).
set (rest := skipn (Z.to_nat w) (r :: rs)).
assert (Z.of_nat (List.length line) <= w) as Hline
    by (unfold line; rewrite length_firstn; lia).
assert (Z.of_nat (List.length rest) <= (n - 1) * w) as Hrest.
{ unfold rest. rewrite length_skipn. cbn [List.length] in *.
  replace ((n - 1) * w) with (n * w - w) by ring.
  assert (w <= n * w) by nia. lia. }
apply within_app; [apply within_app|].
- apply (within_mono x y (Z.of_nat (List.length line)) 1); [lia|lia|lia|lia|].
  apply emitRunes_within; [exact Hnarrow|exact Hx|int_range].
- constructor; [exact I|constructor].
- apply (within_mono x (y + 1) w (n - 1)); [lia|lia|lia|lia|].
  rewrite (add_small y 1) by int_range.
  apply IH; try assumption; try int_range.
  unfold rest. rewrite length_skipn. cbn [List.length]. lia.
Qed.

End TextBox.

Lemma len_zero_empty (t : string) : len t <= 0 -> t = EmptyString.
Proof.
  destruct t as [|c t]; [reflexivity|].
  unfold len. cbn [String.length]. lia.
Qed.

Section TextBoxCalls.

Variable RuneWidth : ascii -> Z.
Variable BuilderCap : Z -> Z.

Lemma drawTextBox_unfold (x y w h : Z) (st : style) (t r : string) :
0 <= w -> 0 <= h -> in_int (h * w) ->
truncate BuilderCap t (h * w) = Some (r, None) ->
drawTextBox RuneWidth BuilderCap x y w h st t
= (textLines RuneWidth (String.length r) x y w st (runes r) ;; ret None).
Proof.
intros Hw Hh Hhw Hr. unfold drawTextBox.
destruct (Z.ltb_spec w 0) as [?|_]; [lia|].
destruct (Z.ltb_spec h 0) as [?|_]; [lia|].
cbn [orb]. rewrite (mul_small h w) by exact Hhw.
rewrite Hr. rewrite bind_lift_Some. reflexivity.
Qed.

(** When [truncate] panics, so does [drawTextBox], before it draws. *)
Lemma drawTextBox_panics (x y w h : Z) (st : style) (t : string) :
0 <= w -> 0 <= h -> in_int (h * w) ->
truncate BuilderCap t (h * w) = None ->
drawTextBox RuneWidth BuilderCap x y w h st t = Panic [].
Proof.
intros Hw Hh Hhw Hr. unfold drawTextBox.
destruct (Z.ltb_spec w 0) as [?|_]; [lia|].
destruct (Z.ltb_spec h 0) as [?|_]; [lia|].
cbn [orb]. rewrite (mul_small h w) by exact Hhw.
rewrite Hr. reflexivity.
Qed.

(** What [truncate] returns is written, rune by rune. *)
Lemma drawTextBox_written (x y w h : Z) (st : style) (t r : string) :
1 <= w -> 0 <= h -> h * w <= max_int ->
truncate BuilderCap t (h * w) = Some (r, None) ->
exists tr,
  drawTextBox RuneWidth BuilderCap x y w h st t = Done tr None
  /\ written tr = runes r.
Proof.
intros Hw Hh Hhw Hr.
destruct (textLines_written RuneWidth (String.length r) x y w st (runes r)
                            ltac:(lia)) as (tr & Htr & Hwr).
{ rewrite length_runes. lia. }
exists tr.
rewrite (drawTextBox_unfold x y w h st t r)
  by (try exact Hr; try lia; unfold in_int, min_int; nia).
rewrite Htr. cbn [bind after ret]. rewrite app_nil_r.
split; [reflexivity|exact Hwr].
Qed.

(** A text that fits the cells of the box is written whole. *)
Lemma drawTextBox_fits (x y w h : Z) (st : style) (t : string) :
1 <= w -> 0 <= h -> h * w <= max_int -> len t <= h * w ->
exists tr,
  drawTextBox RuneWidth BuilderCap x y w h st t = Done tr None
  /\ written tr = runes t.
Proof.
intros Hw Hh Hhw Hfit.
apply drawTextBox_written; try assumption.
apply truncate_fit; [nia|exact Hfit].
Qed.

(** Nothing is drawn for an empty text, whatever the size of the box. *)
Lemma drawTextBox_empty (x y w h : Z) (st : style) :
0 <= w -> 0 <= h -> h * w <= max_int ->
drawTextBox RuneWidth BuilderCap x y w h st EmptyString = Done [] None.
Proof.
intros Hw Hh Hhw.
rewrite (drawTextBox_unfold x y w h st EmptyString EmptyString);
  [reflexivity|exact Hw|exact Hh|unfold in_int, min_int; nia|].
apply truncate_fit; [nia|]. change (len EmptyString) with 0. nia.
Qed.

(** A box without a cell: with a builder of capacity 0 for [Grow(0)], the
  text is cut to nothing and nothing is drawn. *)
Lemma drawTextBox_nothing (x y w h : Z) (st : style) (t : string) :
len t <= max_int -> 0 <= w -> 0 <= h -> w = 0 \/ h = 0 ->
BuilderCap 0 = 0 ->
drawTextBox RuneWidth BuilderCap x y w h st t = Done [] None.
Proof.
intros Hmax Hw Hh Hz Hcap.
assert (h * w = 0) as Hhw by (destruct Hz; subst; lia).
rewrite (drawTextBox_unfold x y w h st t EmptyString);
  [reflexivity|exact Hw|exact Hh|rewrite Hhw; int_range|].
rewrite Hhw. pose proof (len_nonneg t) as H0.
destruct (Z.eq_dec (len t) 0) as [E|Hne].
- rewrite (len_zero_empty t) by lia. apply truncate_fit; [lia|].
  change (len EmptyString) with 0. lia.
- rewrite truncate_unmarked by (rewrite ?Hcap; lia).
  rewrite Hcap. destruct t; reflexivity.
Qed.

(** With runes at most one cell wide, a text that fits the cells of the
  box is drawn inside the box. *)
Lemma drawTextBox_area (x y w h : Z) (st : style) (t : string) :
narrow_runes RuneWidth -> len t <= h * w ->
in_int x -> in_int (x + w) -> in_int y -> in_int (y + h) -> in_int (h * w) ->
within x y w h (trace (drawTextBox RuneWidth BuilderCap x y w h st t)).
Proof.
intros Hnarrow Hfit Hx Hxw Hy Hyh Hhw.
destruct (Z.lt_ge_cases w 0) as [Hwneg|Hw].
{ unfold drawTextBox. destruct (Z.ltb_spec w 0) as [?|?]; [|lia].
  apply Forall_nil. }
destruct (Z.lt_ge_cases h 0) as [Hhneg|Hh].
{ unfold drawTextBox. destruct (Z.ltb_spec w 0) as [?|?]; [apply Forall_nil|].
  destruct (Z.ltb_spec h 0) as [?|?]; [|lia]. apply Forall_nil. }
destruct (Z.eq_dec w 0) as [Hw0|Hw0].
{ rewrite (len_zero_empty t) by nia.
  rewrite drawTextBox_empty by int_range. apply Forall_nil. }
rewrite (drawTextBox_unfold x y w h st t t);
  [|exact Hw|exact Hh|exact Hhw|apply truncate_fit; [nia|exact Hfit]].
rewrite trace_bind_ret.
apply textLines_within; try assumption; try lia.
- rewrite length_runes. lia.
- rewrite length_runes. unfold len in Hfit. lia.
Qed.

End TextBoxCalls.

(** X3.  For a text of single-byte characters, a width [w >= 1] and a
    height [h >= 0]: [drawTextBox] writes, in order, exactly the runes of
    what [truncate] returns for the text and the [h * w] cells of the box,
    and returns without an error; that is the whole text when it has at most
    [h * w] bytes; and when [truncate] panics, [drawTextBox] panics before
    it draws.  So a longer text is cut by the capacity of the builder of
    [truncate]: with the capacities of the current runtime, six characters
    in a box of three cells are written as the eight of "abcde...". *)
Theorem drawTextBox_writes_truncated_text :
  forall (RuneWidth : ascii -> Z) (BuilderCap : Z -> Z) (x y w h : Z)
         (st : style) (t : string),
    plain t -> 1 <= w -> 0 <= h -> h * w <= max_int ->
    (forall r,
        truncate BuilderCap t (h * w) = Some (r, None) ->
        exists tr,
          drawTextBox RuneWidth BuilderCap x y w h st t = Done tr None
          /\ written tr = runes r)
    /\ (len t <= h * w ->
        exists tr,
          drawTextBox RuneWidth BuilderCap x y w h st t = Done tr None
          /\ written tr = runes t)
    /\ (truncate BuilderCap t (h * w) = None ->
        drawTextBox RuneWidth BuilderCap x y w h st t = Panic [])
    /\ written (trace (drawTextBox sample.narrow sample.size_class 0 0 3 1
                                   ColorRed "abcdef"))
       = runes "abcde...".
Proof.
  intros RuneWidth BuilderCap x y w h st t _ Hw Hh Hhw.
  split; [intros r Hr; apply drawTextBox_written; assumption|].
  split; [intros Hfit; apply drawTextBox_fits; assumption|].
  split; [|vm_compute; reflexivity].
  intros Hr. apply drawTextBox_panics;
    [lia|exact Hh|unfold in_int, min_int; nia|exact Hr].
Qed.

(** X4.  A text box of width [w >= 1] and of the height that [minHeight]
    reports for a text of single-byte characters at that width holds the
    whole text: [truncate] returns the text as it is, and [drawTextBox]
    writes all its runes. *)
Theorem minHeight_rows_hold_the_text :
  forall (RuneWidth : ascii -> Z) (BuilderCap : Z -> Z) (x y w : Z)
         (st : style) (t : string) (h : Z),
    plain t -> 1 <= w -> len t + w <= max_int ->
    minHeight w t = Some h ->
    truncate BuilderCap t (mul h w) = Some (t, None)
    /\ exists tr,
        drawTextBox RuneWidth BuilderCap x y w h st t = Done tr None
        /\ written tr = runes t.
Proof.
  intros RuneWidth BuilderCap x y w st t h Hplain Hw Hsum Hh.
  pose proof Hplain as [_ Hmax].
  pose proof (len_nonneg t) as H0.
  rewrite minHeight_ceiling in Hh by assumption. apply Some_eq in Hh.
  pose proof (Z.div_mod (len t + w - 1) w ltac:(lia)) as Hdm.
  pose proof (Z.mod_pos_bound (len t + w - 1) w ltac:(lia)) as Hb.
  assert (0 <= h) as Hh0 by (subst h; apply Z.div_pos; lia).
  assert (len t <= h * w < len t + w) as Hhw by (subst h; nia).
  split.
  - rewrite (mul_small h w) by int_range. apply truncate_fit; lia.
  - apply drawTextBox_fits; lia.
Qed.

(** X5.  [drawTextBox] on a text of single-byte characters returns an error
    for a negative width or height only, and then it draws nothing.  For
    every other size, whenever it returns it returns nil; it does return,
    having written the text, when the text has at most [h * w] bytes; and
    with a width or height of zero it draws nothing, given that the builder
    of [truncate] has capacity 0 after [Grow(0)] (with a width of zero the
    loop over the lines would not advance: the text is cut to nothing
    first). *)
Theorem drawTextBox_error_only_for_negative_size :
  forall (RuneWidth : ascii -> Z) (BuilderCap : Z -> Z) (x y w h : Z)
         (st : style) (t : string),
    plain t ->
    (w < 0 \/ h < 0 ->
     drawTextBox RuneWidth BuilderCap x y w h st t
     = Done [] (Some "w and h cannot be negative"%string))
    /\ (0 <= w -> 0 <= h -> h * w <= max_int ->
        (forall tr e,
            drawTextBox RuneWidth BuilderCap x y w h st t = Done tr e ->
            e = None)
        /\ (len t <= h * w ->
            exists tr,
              drawTextBox RuneWidth BuilderCap x y w h st t = Done tr None
              /\ written tr = runes t)
        /\ (w = 0 \/ h = 0 -> BuilderCap 0 = 0 ->
            drawTextBox RuneWidth BuilderCap x y w h st t = Done [] None)).
Proof.
  intros RuneWidth BuilderCap x y w h st t [_ Hmax]. split.
  - intros Hneg. unfold drawTextBox.
    destruct (Z.ltb_spec w 0) as [?|?]; [reflexivity|].
    destruct (Z.ltb_spec h 0) as [?|?]; [reflexivity|lia].
  - intros Hw Hh Hhw. split; [|split].
    + intros tr e. unfold drawTextBox.
      destruct (Z.ltb_spec w 0) as [?|_]; [lia|].
      destruct (Z.ltb_spec h 0) as [?|_]; [lia|].
      cbn [orb]. rewrite (mul_small h w) by (unfold in_int, min_int; nia).
      unfold truncate at 1.
      destruct (Z.ltb_spec (h * w) 0) as [?|_]; [nia|].
      destruct (len t <=? h * w).
      * cbn [lift bind after snd fst]. intros E.
        apply after_Done_inv in E as (tr2 & E & _).
        destruct (textLines RuneWidth (String.length t) x y w st (runes t))
          as [tr3 []| |]; cbn [bind after ret] in E; try discriminate E.
        injection E as _ <-. reflexivity.
      * destruct (writeRunes (Z.to_nat (sub (BuilderCap (h * w)) 3)) (runes t)
                             0 EmptyString) as [r1|];
          cbn [obind]; [|intros E; discriminate E].
        destruct (len (snd r1) >? 0).
        -- cbn [lift bind after snd fst]. intros E.
           apply after_Done_inv in E as (tr2 & E & _).
           destruct (textLines RuneWidth _ x y w st _)
             as [tr3 []| |]; cbn [bind after ret] in E; try discriminate E.
           injection E as _ <-. reflexivity.
        -- destruct (writeRunes _ (runes t) (fst r1) (snd r1)) as [r2|];
             cbn [obind]; [|intros E; discriminate E].
           cbn [lift bind after snd fst]. intros E.
           apply after_Done_inv in E as (tr2 & E & _).
           destruct (textLines RuneWidth _ x y w st _)
             as [tr3 []| |]; cbn [bind after ret] in E; try discriminate E.
           injection E as _ <-. reflexivity.
    + intros Hfit. destruct (Z.eq_dec w 0) as [Hw0|Hw0].
      * rewrite (len_zero_empty t) by nia. exists [].
        split; [apply drawTextBox_empty; assumption|reflexivity].
      * apply drawTextBox_fits; try assumption. lia.
    + intros Hz Hcap. apply drawTextBox_nothing; assumption.
Qed.

(** X6.  With runes at most one cell wide and a text of single-byte
    characters that fits the box (at most [h * w] bytes), [drawTextBox] sets
    cells only inside its area: the [w] columns from [x] and the [h] rows
    from [y].  A longer text is cut by the capacity of the builder of
    [truncate] and may leave the area: with the capacities of the current
    runtime, six characters in a box of three by one are written into three
    rows. *)
Theorem drawTextBox_stays_in_its_area :
  forall (RuneWidth : ascii -> Z) (BuilderCap : Z -> Z) (x y w h : Z)
         (st : style) (t : string),
    narrow_runes RuneWidth -> plain t -> len t <= h * w ->
    in_int x -> in_int (x + w) -> in_int y -> in_int (y + h) ->
    in_int (h * w) ->
    within x y w h (trace (drawTextBox RuneWidth BuilderCap x y w h st t))
    /\ ~ within 0 0 3 1
         (trace (drawTextBox sample.narrow sample.size_class 0 0 3 1
                             ColorRed "abcdef")).
Proof.
  intros RuneWidth BuilderCap x y w h st t Hnarrow _ Hfit Hx Hxw Hy Hyh Hhw.
  split; [apply drawTextBox_area; assumption|].
  intros Hin.
  assert (In (SetContent 0 1 (Rune "d"%char) [] ColorRed)
             (trace (drawTextBox sample.narrow sample.size_class 0 0 3 1
                                 ColorRed "abcdef"))) as Hd
      by (vm_compute; tauto).
  unfold within in Hin. rewrite Forall_forall in Hin.
  specialize (Hin _ Hd). cbn [in_area] in Hin. lia.
Qed.

(** ** Box rendering: the frame that [drawBox] leaves on the screen *)

Lemma cell_app (tr1 tr2 : list event) (cx cy : Z) :
  cell (tr1 ++ tr2) cx cy
  = match cell tr2 cx cy with
    | Some g => Some g
    | None => cell tr1 cx cy
    end.
Proof.
  induction tr1 as [|e tr1 IH]; cbn [app cell].
  - destruct (cell tr2 cx cy); reflexivity.
  - rewrite IH. destruct (cell tr2 cx cy); reflexivity.
Qed.

Lemma Forall_upfrom (P : Z -> Prop) (n : nat) :
  forall lo,
    (forall i, lo <= i < lo + Z.of_nat n -> P i) -> Forall P (upfrom lo n).
Proof.
  induction n as [|n IH]; intros lo H; cbn [upfrom]; constructor.
  - apply H. lia.
  - apply IH. intros i Hi. apply H. lia.
Qed.

Lemma within_flat_map (x y w h : Z) (body : Z -> list event) (lo : Z) (n : nat) :
  (forall i, lo <= i < lo + Z.of_nat n -> within x y w h (body i)) ->
  within x y w h (flat_map body (upfrom lo n)).
Proof.
  intros H. unfold within. apply Forall_flat_map. apply Forall_upfrom. exact H.
Qed.

Lemma drawBox_trace (lx ly lw lh : Z) (st : style) :
  0 <= lx -> 0 <= ly -> 0 <= lw -> 0 <= lh ->
  lx + lw <= max_int -> ly + lh <= max_int -> ly < max_int ->
  drawBox lx ly lw lh st
  = Done (box_lines lx (lx + lw - 1) ly (ly + lh - 1) st) tt.
Proof.
  intros Hx Hy Hw Hh Hxw Hyh Hy1. unfold drawBox, box_lines.
  rewrite (add_small lx lw) by int_range.
  rewrite (sub_small (lx + lw) 1) by int_range.
  rewrite (add_small ly lh) by int_range.
  rewrite (sub_small (ly + lh) 1) by int_range.
  rewrite (add_small ly 1) by int_range.
  unfold forLe, forLt.
  destruct (Z.ltb_spec (lx + lw - 1) lx) as [Hlt|Hge].
  - replace (Z.to_nat (lx + lw - 1 - lx + 1)) with 0%nat by lia.
    reflexivity.
  - destruct (Z.eqb_spec (lx + lw - 1) max_int) as [E|_]; [lia|].
    cbn [emit bind after ret]. reflexivity.
Qed.

Lemma box_lines_within (x y w h : Z) (st : style) :
  1 <= w -> 1 <= h ->
  within x y w h (box_lines x (x + w - 1) y (y + h - 1) st).
Proof.
  intros Hw Hh. unfold box_lines.
  apply within_app; [|apply within_app].
  - apply within_flat_map. intros i Hi.
    constructor; [cbn [in_area]; lia|].
    constructor; [cbn [in_area]; lia|constructor].
  - apply within_flat_map. intros i Hi.
    constructor; [cbn [in_area]; lia|].
    constructor; [cbn [in_area]; lia|constructor].
  - repeat (constructor; [cbn [in_area]; try exact I; lia|]). constructor.
Qed.

Lemma cell_hlines (y1 y2 : Z) (st : style) (cx cy : Z) (n : nat) :
  forall lo,
    cell (flat_map (fun col => [SetContent col y1 RuneHLine [] st;
                                SetContent col y2 RuneHLine [] st])
                   (upfrom lo n)) cx cy
    = if (lo <=? cx) && (cx <? lo + Z.of_nat n) && ((cy =? y1) || (cy =? y2))
      then Some RuneHLine else None.
Proof.
  induction n as [|n IH]; intros lo; cbn [upfrom flat_map app cell].
  - destruct (Z.leb_spec lo cx); destruct (Z.ltb_spec cx (lo + Z.of_nat 0));
      cbn [andb]; try reflexivity; lia.
  - rewrite IH. cbn [at_cell].
    destruct (Z.leb_spec (lo + 1) cx); destruct (Z.ltb_spec cx (lo + 1 + Z.of_nat n));
      destruct (Z.leb_spec lo cx); destruct (Z.ltb_spec cx (lo + Z.of_nat (S n)));
      destruct (Z.eqb_spec lo cx); destruct (Z.eqb_spec cy y1);
      destruct (Z.eqb_spec cy y2); destruct (Z.eqb_spec y1 cy);
      destruct (Z.eqb_spec y2 cy); cbn [andb orb]; try reflexivity; lia.
Qed.

Lemma cell_vlines (x1 x2 : Z) (st : style) (cx cy : Z) (n : nat) :
  forall lo,
    cell (flat_map (fun row => [SetContent x1 row RuneVLine [] st;
                                SetContent x2 row RuneVLine [] st])
                   (upfrom lo n)) cx cy
    = if (lo <=? cy) && (cy <? lo + Z.of_nat n) && ((cx =? x1) || (cx =? x2))
      then Some RuneVLine else None.
Proof.
  induction n as [|n IH]; intros lo; cbn [upfrom flat_map app cell].
  - destruct (Z.leb_spec lo cy); destruct (Z.ltb_spec cy (lo + Z.of_nat 0));
      cbn [andb]; try reflexivity; lia.
  - rewrite IH. cbn [at_cell].
    destruct (Z.leb_spec (lo + 1) cy); destruct (Z.ltb_spec cy (lo + 1 + Z.of_nat n));
      destruct (Z.leb_spec lo cy); destruct (Z.ltb_spec cy (lo + Z.of_nat (S n)));
      destruct (Z.eqb_spec lo cy); destruct (Z.eqb_spec cx x1);
      destruct (Z.eqb_spec cx x2); destruct (Z.eqb_spec x1 cx);
      destruct (Z.eqb_spec x2 cx); cbn [andb orb]; try reflexivity; lia.
Qed.

Lemma box_lines_cell (x y w h : Z) (st : style) (cx cy : Z) :
  2 <= w -> 2 <= h ->
  cell (box_lines x (x + w - 1) y (y + h - 1) st) cx cy
  = frame_glyph x y w h cx cy.
Proof.
  intros Hw Hh. unfold box_lines, frame_glyph.
  rewrite !cell_app, cell_hlines, cell_vlines.
  cbn [cell at_cell].
  replace (Z.of_nat (Z.to_nat (x + w - 1 - x + 1))) with w by lia.
  replace (Z.of_nat (Z.to_nat (y + h - 1 - (y + 1)))) with (h - 2) by lia.
  destruct (Z.eqb_spec (x + w - 1) cx); destruct (Z.eqb_spec (y + h - 1) cy);
    destruct (Z.eqb_spec x cx); destruct (Z.eqb_spec y cy);
    destruct (Z.eqb_spec cx x); destruct (Z.eqb_spec cy y);
    destruct (Z.eqb_spec cx (x + w - 1)); destruct (Z.eqb_spec cy (y + h - 1));
    cbn [andb orb]; try lia;
    destruct (Z.ltb_spec cx x); destruct (Z.ltb_spec (x + w - 1) cx);
    destruct (Z.ltb_spec cy y); destruct (Z.ltb_spec (y + h - 1) cy);
    cbn [andb orb]; try lia; try reflexivity;
    destruct (Z.leb_spec x cx); destruct (Z.ltb_spec cx (x + w));
    destruct (Z.leb_spec (y + 1) cy); destruct (Z.ltb_spec cy (y + 1 + (h - 2)));
    cbn [andb orb]; try lia; try reflexivity.
Qed.

(** X7.  The frame on the screen.  After [drawBox] of a box at least two
    cells wide and high, the screen holds the four corner glyphs at the
    corners of the box, horizontal lines between them in its first and last
    row, vertical lines in its first and last column, and nothing that the
    call has set anywhere else, inside or outside the box. *)
Theorem drawBox_leaves_a_frame :
  forall (lx ly lw lh : Z) (st : style),
    0 <= lx -> 0 <= ly -> 2 <= lw -> 2 <= lh ->
    lx + lw <= max_int -> ly + lh <= max_int ->
    exists tr,
      drawBox lx ly lw lh st = Done tr tt
      /\ forall cx cy, cell tr cx cy = frame_glyph lx ly lw lh cx cy.
Proof.
  intros lx ly lw lh st Hx Hy Hw Hh Hxw Hyh.
  eexists. split; [apply drawBox_trace; lia|].
  intros cx cy. apply box_lines_cell; assumption.
Qed.
(** ** Box rendering: [drawSection] *)

Lemma within_cell_None (x y w h : Z) (tr : list event) (cx cy : Z) :
  within x y w h tr ->
  ~ (x <= cx < x + w /\ y <= cy < y + h) ->
  cell tr cx cy = None.
Proof.
  intros Hin Hout. induction Hin as [|e tr He _ IH]; [reflexivity|].
  cbn [cell]. rewrite IH.
  destruct e; cbn [at_cell in_area] in *; try reflexivity.
  destruct (Z.eqb_spec x0 cx); destruct (Z.eqb_spec y0 cy); cbn [andb];
    try reflexivity.
  subst. tauto.
Qed.

Lemma short_zero_text : short (btext zeroAlias).
Proof.
  split; [repeat constructor|vm_compute; discriminate].
Qed.

Lemma getAlias_short (sn : Section_) (an : string) :
  short_texts sn -> short (btext (getAlias (Aliases sn) an)).
Proof.
  intros [_ Hall]. unfold getAlias.
  destruct (lookup an (Aliases sn)) as [a|] eqn:Hl; [|apply short_zero_text].
  apply lookup_Some_In in Hl. rewrite Forall_forall in Hall.
  exact (Hall _ Hl).
Qed.

Lemma minHeight_nonneg (aw : Z) (t : string) (ah : Z) :
  1 <= aw -> len t <= max_int -> minHeight aw t = Some ah ->
  0 <= ah /\ len t <= ah * aw < len t + aw.
Proof.
  intros Haw Hmax Hah. pose proof (len_nonneg t) as H0.
  rewrite minHeight_ceiling in Hah by assumption. apply Some_eq in Hah.
  pose proof (Z.div_mod (len t + aw - 1) aw ltac:(lia)) as Hdm.
  pose proof (Z.mod_pos_bound (len t + aw - 1) aw ltac:(lia)) as Hb.
  assert (0 <= ah) by (subst ah; apply Z.div_pos; lia).
  split; [assumption|]. subst ah. nia.
Qed.

Section SectionFacts.

Variable RuneWidth : ascii -> Z.
Variable BuilderCap : Z -> Z.
Variables (y h : Z) (sn : Section_) (ax aw : Z).
Hypothesis Hy : 0 <= y <= max_coordinate.
Hypothesis Hh : h <= max_coordinate.
Hypothesis Hax : 0 <= ax <= max_coordinate + 1.
Hypothesis Haw : 1 <= aw <= max_coordinate.
Hypothesis Htexts : short_texts sn.

(** The loop over the items ends, logs nothing, and draws into the rows
  below the top row and above the bottom row of the box only. *)
Lemma drawAliases_returns (names : list string) :
forall ay,
  y + 1 <= ay <= y + 1 + Z.max 0 h ->
  exists tr,
    drawAliases RuneWidth BuilderCap y h sn ax ay aw names = Done tr tt
    /\ logged tr = []
    /\ (narrow_runes RuneWidth -> within ax (y + 1) aw (h - 2) tr).
Proof.
induction names as [|an names IH]; intros ay Hay.
- exists []. split; [reflexivity|]. split; [reflexivity|].
  intros _. apply Forall_nil.
- rewrite drawAliases_step.
  destruct (getAlias_short sn an Htexts) as [Hsb Hlen].
  set (t := btext (getAlias (Aliases sn) an)) in *.
  unfold max_text, max_coordinate in *.
  destruct (minHeight aw t) as [ah|] eqn:Hah;
    [|rewrite minHeight_ceiling in Hah by int_range; discriminate].
  destruct (minHeight_nonneg aw t ah ltac:(lia) ltac:(int_range) Hah)
    as [Hah0 Hcells].
  assert (ah <= len t) as Hahle.
  { destruct (Z.eq_dec ah 0) as [E|Hne]; [pose proof (len_nonneg t); lia|].
    assert ((ah - 1) * 1 <= (ah - 1) * aw)
      by (apply Z.mul_le_mono_nonneg_l; lia).
    lia. }
  rewrite (add_small ay ah) by int_range.
  rewrite (sub_small (ay + ah) y) by int_range.
  destruct (Z.geb_spec (ay + ah - y) h) as [Hfull|Hfits].
  + exists []. split; [reflexivity|]. split; [reflexivity|].
    intros _. apply Forall_nil.
  + destruct (drawTextBox_fits RuneWidth BuilderCap ax ay aw ah ColorRed t
                ltac:(lia) Hah0 ltac:(int_range) ltac:(lia))
      as (tb & Hd & _).
    pose proof (drawTextBox_drawing RuneWidth BuilderCap ax ay aw ah
                                    ColorRed t) as Hdr.
    pose proof (drawTextBox_area RuneWidth BuilderCap ax ay aw ah
                                 ColorRed t) as Har.
    rewrite Hd in *. cbn [trace] in Hdr, Har.
    destruct (IH (ay + ah) ltac:(lia)) as (tr & Htr & Hlog & Hin).
    rewrite Htr. cbn [after]. rewrite app_nil_r.
    eexists. split; [reflexivity|]. split.
    * rewrite !logged_app, Hlog, (drawing_only_logged tb Hdr). reflexivity.
    * intros Hnarrow. apply within_app; [repeat constructor|].
      apply within_app; [|exact (Hin Hnarrow)].
      apply (within_mono ax ay aw ah); [lia|lia|lia|lia|].
      apply Har; try assumption; try int_range; lia.
Qed.

End SectionFacts.

Lemma len_label (r : string) : len ("[" ++ r ++ "]") = len r + 2.
Proof.
  rewrite !len_append. change (len "[") with 1. change (len "]") with 1. lia.
Qed.

Section SectionOk.

Variable RuneWidth : ascii -> Z.
Variable BuilderCap : Z -> Z.
Variables (x y w h : Z) (sn : Section_).
Hypothesis Hx : 0 <= x <= max_coordinate.
Hypothesis Hy : 0 <= y <= max_coordinate.
Hypothesis Hw : 0 <= w <= max_coordinate.
Hypothesis Hh : 0 <= h <= max_coordinate.
Hypothesis Htexts : short_texts sn.

Lemma drawSection_guard_passed :
(x <? 0) || (y <? 0) || (w <? 0) || (h <? 0) = false.
Proof.
destruct (Z.ltb_spec x 0); [lia|]. destruct (Z.ltb_spec y 0); [lia|].
destruct (Z.ltb_spec w 0); [lia|]. destruct (Z.ltb_spec h 0); [lia|].
reflexivity.
Qed.

Lemma drawSection_box :
drawBox x y w h ColorWhite
= Done (box_lines x (x + w - 1) y (y + h - 1) ColorWhite) tt.
Proof.
unfold max_coordinate in *. apply drawBox_trace; unfold max_int; lia.
Qed.

(** A box less than four cells wide: the frame is drawn, and then the
  label cannot be cut to [w - 4] characters. *)
Lemma drawSection_narrow :
w < 4 ->
drawSection RuneWidth BuilderCap x y w h sn
= Done (box_lines x (x + w - 1) y (y + h - 1) ColorWhite
        ++ [LogError "w cannot be negative"])
       (Some "w cannot be negative"%string).
Proof.
intros Hw4. unfold drawSection.
rewrite drawSection_guard_passed, drawSection_box.
unfold max_coordinate in *.
rewrite (sub_small w 4) by int_range.
unfold truncate. destruct (Z.ltb_spec (w - 4) 0) as [_|?]; [|lia].
reflexivity.
Qed.

(** A box at least four cells wide whose label fits between the corners:
  the frame, the label in the top row, and the items. *)
Lemma drawSection_wide_at :
4 <= w -> len (Label sn) <= w - 4 ->
exists r ta,
  r = Label sn /\
  truncate BuilderCap (Label sn) (w - 4) = Some (r, None)
  /\ len r <= w - 4
  /\ logged ta = []
  /\ (narrow_runes RuneWidth -> within (x + 1) (y + 1) (w - 2) (h - 2) ta)
  /\ drawAliases RuneWidth BuilderCap y h sn (x + 1) (y + 1) (w - 2)
                 (sortStrings (keys (Aliases sn))) = Done ta tt
  /\ drawSection RuneWidth BuilderCap x y w h sn
     = Done (box_lines x (x + w - 1) y (y + h - 1) ColorWhite
             ++ (emitRunes RuneWidth (x + (w - (len r + 2)) / 2) y ColorRed
                           (runes ("[" ++ r ++ "]")) ++ [Show])
             ++ [Show] ++ ta)
            None.
Proof.
intros Hw4 Hfit. destruct Htexts as [[_ Hlab] _].
unfold max_coordinate, max_text in *.
pose proof (truncate_fit BuilderCap (Label sn) (w - 4) ltac:(lia) Hfit)
  as Hr.
set (r := Label sn) in Hr at 2. assert (r = Label sn) as Er by reflexivity.
assert (len r <= w - 4) as Hlen by (rewrite Er; exact Hfit).
pose proof (len_nonneg r) as Hr0.
set (hp := (w - (len r + 2)) / 2).
assert (1 <= hp /\ hp + (len r + 2) <= w - 1) as Hhp.
{ unfold hp.
  pose proof (Z.div_mod (w - (len r + 2)) 2 ltac:(lia)) as Hdm.
  pose proof (Z.mod_pos_bound (w - (len r + 2)) 2 ltac:(lia)) as Hb.
  lia. }
destruct (drawAliases_returns RuneWidth BuilderCap y h sn (x + 1) (w - 2)
            ltac:(unfold max_coordinate; lia)
            ltac:(unfold max_coordinate; lia)
            ltac:(unfold max_coordinate; lia)
            ltac:(unfold max_coordinate; lia)
            Htexts (sortStrings (keys (Aliases sn))) (y + 1) ltac:(lia))
  as (ta & Hta & Hlog & Hin).
exists r, ta. split; [exact Er|].
split; [exact Hr|]. split; [lia|]. split; [exact Hlog|]. split; [exact Hin|].
split; [exact Hta|].
unfold drawSection.
rewrite drawSection_guard_passed, drawSection_box.
rewrite (sub_small w 4) by int_range.
rewrite Hr. cbn [bind after lift snd fst]. rewrite len_label.
rewrite (sub_small w (len r + 2)) by int_range.
rewrite quo_pos by int_range. fold hp.
cbn [bind after lift]. rewrite emitStr_trace.
rewrite (add_small x hp) by int_range.
rewrite (add_small x 1) by int_range.
rewrite (add_small y 1) by int_range.
rewrite (sub_small w 2) by int_range.
rewrite Hta. cbn [bind after emit ret]. rewrite !app_nil_r.
rewrite <- !app_assoc. reflexivity.
Qed.

Lemma drawSection_wide :
4 <= w -> len (Label sn) <= w - 4 ->
exists r hp ta,
  r = Label sn /\
  truncate BuilderCap (Label sn) (w - 4) = Some (r, None)
  /\ len r <= w - 4
  /\ 1 <= hp /\ hp + (len r + 2) <= w - 1
  /\ logged ta = []
  /\ (narrow_runes RuneWidth -> within (x + 1) (y + 1) (w - 2) (h - 2) ta)
  /\ drawAliases RuneWidth BuilderCap y h sn (x + 1) (y + 1) (w - 2)
                 (sortStrings (keys (Aliases sn))) = Done ta tt
  /\ drawSection RuneWidth BuilderCap x y w h sn
     = Done (box_lines x (x + w - 1) y (y + h - 1) ColorWhite
             ++ (emitRunes RuneWidth (x + hp) y ColorRed
                           (runes ("[" ++ r ++ "]")) ++ [Show])
             ++ [Show] ++ ta)
            None.
Proof.
intros Hw4 Hfit.
destruct (drawSection_wide_at Hw4 Hfit)
  as (r & ta & Er & Hr & Hlen & Hlog & Hin & Hta & Hd).
pose proof (len_nonneg r) as Hr0.
pose proof (Z.div_mod (w - (len r + 2)) 2 ltac:(lia)) as Hdm.
pose proof (Z.mod_pos_bound (w - (len r + 2)) 2 ltac:(lia)) as Hb.
exists r, ((w - (len r + 2)) / 2), ta. split; [exact Er|].
split; [exact Hr|]. split; [exact Hlen|]. split; [lia|]. split; [lia|].
split; [exact Hlog|]. split; [exact Hin|]. split; [exact Hta|exact Hd].
Qed.

End SectionOk.

(** X8.  The ways [drawSection] ends, for a section whose label and item
    texts consist of single-byte characters, at most 2^32 each, and a
    position and size of at most 2^60.  With a negative position or size it
    draws nothing and reports it.  With a width from 0 to 3 it draws the
    frame, then fails on the label, which it cuts to [w - 4] characters: it
    logs and returns "w cannot be negative" although [w] is not negative.
    With a width of at least 4 and a label of at most [w - 4] bytes it
    returns without an error and logs nothing.  With a longer label the
    outcome rests on the capacity of the builder of [truncate]: when that is
    more than 3 above the length of the label, the call panics after the
    frame is drawn, as it does with the capacities of the current runtime
    for a width of 13 and a label of ten characters. *)
Theorem drawSection_error_cases :
  forall (RuneWidth : ascii -> Z) (BuilderCap : Z -> Z) (x y w h : Z)
         (sn : Section_),
    short_texts sn ->
    x <= max_coordinate -> y <= max_coordinate ->
    w <= max_coordinate -> h <= max_coordinate ->
    (x < 0 \/ y < 0 \/ w < 0 \/ h < 0 ->
     drawSection RuneWidth BuilderCap x y w h sn
     = Done [] (Some "x, y, w, and h cannot be negative"%string))
    /\ (0 <= x -> 0 <= y -> 0 <= h -> 0 <= w < 4 ->
        exists tb,
          drawBox x y w h ColorWhite = Done tb tt
          /\ drawSection RuneWidth BuilderCap x y w h sn
             = Done (tb ++ [LogError "w cannot be negative"])
                    (Some "w cannot be negative"%string))
    /\ (0 <= x -> 0 <= y -> 0 <= h -> 4 <= w ->
        len (Label sn) <= w - 4 ->
        exists tr,
          drawSection RuneWidth BuilderCap x y w h sn = Done tr None
          /\ logged tr = [])
    /\ (0 <= x -> 0 <= y -> 0 <= h -> 4 <= w ->
        w - 4 < len (Label sn) ->
        len (Label sn) + 3 < BuilderCap (w - 4) <= max_int ->
        exists tb,
          drawBox x y w h ColorWhite = Done tb tt
          /\ drawSection RuneWidth BuilderCap x y w h sn = Panic tb)
    /\ (exists tb,
           drawSection sample.narrow sample.size_class 2 2 13 8
                       (mkSection "0123456789" [])
           = Panic tb).
Proof.
  intros RuneWidth BuilderCap x y w h sn Htexts Hx Hy Hw Hh.
  split; [|split; [|split; [|split]]].
  - intros Hneg. unfold drawSection.
    destruct (Z.ltb_spec x 0); [reflexivity|].
    destruct (Z.ltb_spec y 0); [reflexivity|].
    destruct (Z.ltb_spec w 0); [reflexivity|].
    destruct (Z.ltb_spec h 0); [reflexivity|lia].
  - intros Hx0 Hy0 Hh0 Hw0. eexists. split.
    + apply drawSection_box; lia.
    + apply drawSection_narrow; lia.
  - intros Hx0 Hy0 Hh0 Hw0 Hfit.
    destruct (drawSection_wide RuneWidth BuilderCap x y w h sn
                ltac:(lia) ltac:(lia) ltac:(lia) ltac:(lia) Htexts Hw0 Hfit)
      as (r & hp & ta & _ & _ & _ & _ & _ & Hlog & _ & _ & Hd).
    eexists. split; [exact Hd|].
    rewrite !logged_app, Hlog.
    rewrite (drawing_only_logged (box_lines x (x + w - 1) y (y + h - 1) ColorWhite)).
    + rewrite (drawing_only_logged (emitRunes RuneWidth (x + hp) y ColorRed
                                              (runes ("[" ++ r ++ "]")))).
      * reflexivity.
      * apply emitRunes_drawing.
    + pose proof (drawBox_drawing x y w h ColorWhite) as Hb.
      rewrite drawSection_box in Hb by lia. exact Hb.
  - intros Hx0 Hy0 Hh0 Hw0 Hcut Hcap. eexists. split.
    + apply drawSection_box; lia.
    + unfold drawSection.
      rewrite (drawSection_guard_passed x y w h) by lia.
      rewrite (drawSection_box x y w h) by lia.
      unfold max_coordinate in *.
      rewrite (sub_small w 4) by int_range.
      destruct Htexts as [[_ Hlab] _]. unfold max_text in Hlab.
      rewrite truncate_overrun by int_range.
      cbn [bind after lift]. rewrite app_nil_r. reflexivity.
  - eexists. vm_compute. reflexivity.
Qed.

(** X9.  [drawSection] keeps its frame when the label fits.  With runes at
    most one cell wide, a section of single-byte texts, a box at least two
    cells wide and high and, where the box is at least four cells wide, a
    label of at most [w - 4] bytes: after the call every cell of the left,
    right and bottom edge of the box and the two upper corners hold the
    glyphs of the frame, and no cell outside the box has been set: label and
    items are written between the corners of the top row and inside the
    frame only.  A longer label is cut by the capacity of the builder of
    [truncate] and may be wider than the box: with the capacities of the
    current runtime, the label "Veggies" in a box eight cells wide at column
    2 is written as "[Veggi...]" from column 1 on, over the upper left
    corner. *)
Theorem drawSection_keeps_its_frame :
  forall (RuneWidth : ascii -> Z) (BuilderCap : Z -> Z) (x y w h : Z)
         (sn : Section_) (cx cy : Z),
    narrow_runes RuneWidth -> short_texts sn ->
    0 <= x <= max_coordinate -> 0 <= y <= max_coordinate ->
    2 <= w <= max_coordinate -> 2 <= h <= max_coordinate ->
    (4 <= w -> len (Label sn) <= w - 4) ->
    (cx <= x \/ x + w - 1 <= cx \/ cy < y \/ y + h - 1 <= cy ->
     cell (trace (drawSection RuneWidth BuilderCap x y w h sn)) cx cy
     = frame_glyph x y w h cx cy)
    /\ cell (trace (drawSection sample.narrow sample.size_class 2 2 8 6
                                (mkSection "Veggies" []))) 2 2
       = Some (Rune "V"%char)
    /\ cell (trace (drawSection sample.narrow sample.size_class 2 2 8 6
                                (mkSection "Veggies" []))) 1 2
       = Some (Rune "["%char).
Proof.
  intros RuneWidth BuilderCap x y w h sn cx cy Hnarrow Htexts Hx Hy Hw Hh Hfit.
  split; [|split; vm_compute; reflexivity].
  intros Hedge.
  destruct (Z.lt_ge_cases w 4) as [Hw4|Hw4].
  - rewrite drawSection_narrow by lia. cbn [trace].
    rewrite cell_app. cbn [cell at_cell].
    apply box_lines_cell; lia.
  - destruct (drawSection_wide RuneWidth BuilderCap x y w h sn
                ltac:(lia) ltac:(lia) ltac:(lia) ltac:(lia) Htexts Hw4
                (Hfit Hw4))
      as (r & hp & ta & _ & _ & Hlen & Hhp1 & Hhp2 & _ & Hin & _ & Hd).
    rewrite Hd. cbn [trace].
    pose proof (len_nonneg r) as Hr0.
    assert (within (x + hp) y (len r + 2) 1
                   (emitRunes RuneWidth (x + hp) y ColorRed
                              (runes ("[" ++ r ++ "]")))) as Hlab.
    { rewrite <- len_label. unfold len. rewrite <- length_runes.
      unfold max_coordinate in *.
      apply emitRunes_within; [exact Hnarrow|int_range|].
      rewrite length_runes. fold (len ("[" ++ r ++ "]")). rewrite len_label.
      int_range. }
    rewrite cell_app.
    assert (cell ((emitRunes RuneWidth (x + hp) y ColorRed
                             (runes ("[" ++ r ++ "]")) ++ [Show])
                  ++ [Show] ++ ta) cx cy = None) as ->.
    { rewrite !cell_app.
      rewrite (within_cell_None _ _ _ _ ta cx cy (Hin Hnarrow)) by lia.
      cbn [cell at_cell].
      apply (within_cell_None _ _ _ _ _ cx cy Hlab). lia. }
    apply box_lines_cell; lia.
Qed.

(** ** Box rendering: a block of the height the packer computes shows all
    its items *)

(** The entries of a map, read back through its keys. *)
Lemma entries_of_keys (m : gomap Alias) :
  NoDup (keys m) -> map (fun an => (an, getAlias m an)) (keys m) = m.
Proof.
  induction m as [|[k v] m IH]; intros Hnd; [reflexivity|].
  cbn [keys map fst] in *. inversion Hnd as [|? ? Hnotin Hnd']; subst.
  f_equal.
  - unfold getAlias. cbn [lookup]. rewrite String.eqb_refl. reflexivity.
  - rewrite <- (IH Hnd') at 2. apply map_ext_in. intros an Han.
    unfold getAlias. cbn [lookup].
    destruct (String.eqb_spec an k) as [E|_]; [subst; contradiction|].
    reflexivity.
Qed.

Lemma sorted_entries_perm (m : gomap Alias) :
  NoDup (keys m) ->
  Permutation (map (fun an => (an, getAlias m an)) (sortStrings (keys m))) m.
Proof.
  intros Hnd.
  apply (Permutation_trans
           (l' := map (fun an => (an, getAlias m an)) (keys m))).
  - apply Permutation_map. apply sortStrings_perm.
  - rewrite (entries_of_keys m Hnd). apply Permutation_refl.
Qed.

Lemma textLength_perm (e1 e2 : gomap Alias) :
  Permutation e1 e2 -> textLength e1 = textLength e2.
Proof.
  induction 1 as [|[k a] l1 l2 _ IH|[k1 a1] [k2 a2] l|l1 l2 l3 _ IH1 _ IH2];
    cbn [textLength]; lia.
Qed.

(** With a positive width no text has a negative height: the sum only
    grows. *)
Lemma bodyHeight_grows (aw : Z) (entries : gomap Alias) :
  1 <= aw ->
  forall acc bh,
    0 <= acc -> acc + textLength entries <= 2 * max_text ->
    bodyHeight aw entries acc = Some bh -> acc <= bh.
Proof.
  intros Haw. induction entries as [|[k a] rest IH]; intros acc bh Hacc Hsum;
    cbn [bodyHeight textLength] in *.
  - intros [= <-]. lia.
  - pose proof (textLength_nonneg rest) as Hrest.
    pose proof (len_nonneg (btext a)) as Hlen.
    unfold max_text in *.
    destruct (minHeight aw (btext a)) as [ah|] eqn:Hah; [|discriminate].
    pose proof (minHeight_abs aw (btext a) ah ltac:(int_range) Hah) as Habs.
    destruct (minHeight_nonneg aw (btext a) ah Haw ltac:(int_range) Hah)
      as [Hah0 _].
    cbn [obind]. rewrite (add_small acc ah) by int_range.
    intros Hbh. apply IH in Hbh; lia.
Qed.

Section AllItems.

Variable RuneWidth : ascii -> Z.
Variable BuilderCap : Z -> Z.
Variables (y : Z) (sn : Section_) (ax aw : Z).
Hypothesis Hy : 0 <= y <= max_coordinate.
Hypothesis Haw : 1 <= aw <= max_coordinate.

Lemma drawAliases_all (names : list string) :
forall ay acc bh,
  0 <= acc -> ay = y + 1 + acc ->
  acc + textLength (map (fun an => (an, getAlias (Aliases sn) an)) names)
  <= 2 * max_text ->
  bodyHeight aw (map (fun an => (an, getAlias (Aliases sn) an)) names) acc
  = Some bh ->
  items (trace (drawAliases RuneWidth BuilderCap y (bh + 2) sn ax ay aw names))
  = names.
Proof.
induction names as [|an names IH]; intros ay acc bh Hacc Hay Hsum Hbh;
  [reflexivity|].
rewrite drawAliases_step. cbn [map bodyHeight textLength] in Hbh, Hsum.
set (t := btext (getAlias (Aliases sn) an)) in *.
set (rest := map (fun an => (an, getAlias (Aliases sn) an)) names) in *.
pose proof (textLength_nonneg rest) as Hrest.
pose proof (len_nonneg t) as Hlen.
unfold max_text, max_coordinate in *.
destruct (minHeight aw t) as [ah|] eqn:Hah; [|discriminate].
pose proof (minHeight_abs aw t ah ltac:(int_range) Hah) as Habs.
destruct (minHeight_nonneg aw t ah ltac:(lia) ltac:(int_range) Hah)
  as [Hah0 Hcells].
cbn [obind] in Hbh. rewrite (add_small acc ah) in Hbh by int_range.
pose proof (bodyHeight_grows aw rest ltac:(lia) (acc + ah) bh ltac:(lia)
              ltac:(unfold max_text; lia) Hbh) as Hge.
rewrite (add_small ay ah) by int_range.
rewrite (sub_small (ay + ah) y) by int_range.
destruct (Z.geb_spec (ay + ah - y) (bh + 2)) as [Hfull|_]; [lia|].
destruct (drawTextBox_fits RuneWidth BuilderCap ax ay aw ah ColorRed t
            ltac:(lia) Hah0 ltac:(int_range) ltac:(lia))
  as (tb & Hd & _).
pose proof (drawTextBox_drawing RuneWidth BuilderCap ax ay aw ah ColorRed t)
  as Hdr.
rewrite Hd in *. cbn [trace] in Hdr.
rewrite after_after, trace_after. cbn [app items].
rewrite !items_app, (drawing_only_items _ Hdr). cbn [items app].
f_equal. apply (IH (ay + ah) (acc + ah) bh); try lia. exact Hbh.
Qed.

End AllItems.

Lemma box_lines_drawing (x1 x2 y1 y2 : Z) (st : style) :
  drawing_only (box_lines x1 x2 y1 y2 st).
Proof.
  unfold box_lines.
  apply Forall_app. split; [|apply Forall_app; split].
  - apply drawing_only_flat_map. intros i. repeat constructor.
  - apply drawing_only_flat_map. intros i. repeat constructor.
  - repeat constructor.
Qed.

Lemma drawSection_all_items (RuneWidth : ascii -> Z) (BuilderCap : Z -> Z)
      (x y w : Z) (sn : Section_) (bh : Z) :
  short_texts sn -> NoDup (keys (Aliases sn)) ->
  textLength (Aliases sn) <= max_text ->
  0 <= x <= max_coordinate -> 0 <= y <= max_coordinate ->
  4 <= w <= max_coordinate ->
  len (Label sn) <= w - 4 ->
  bodyHeight (sub w 2) (Aliases sn) 0 = Some bh ->
  exists tr,
    drawSection RuneWidth BuilderCap x y w (add bh 2) sn = Done tr None
    /\ logged tr = []
    /\ items tr = sortStrings (keys (Aliases sn)).
Proof.
  intros Htexts Hnd Hsmall Hx Hy Hw Hfit Hbh.
  pose proof (sorted_entries_perm (Aliases sn) Hnd) as Hperm.
  pose proof (textLength_nonneg (Aliases sn)) as Ht0.
  unfold max_coordinate, max_text in *.
  rewrite (sub_small w 2) in Hbh by int_range.
  pose proof (bodyHeight_grows (w - 2) (Aliases sn) ltac:(lia) 0 bh ltac:(lia)
                ltac:(unfold max_text; lia) Hbh) as Hbh0.
  pose proof (bodyHeight_abs (w - 2) (Aliases sn) 0 bh
                ltac:(unfold max_text; lia) Hbh) as Hbhle.
  rewrite (add_small bh 2) by int_range.
  destruct (drawSection_wide RuneWidth BuilderCap x y w (bh + 2) sn
              ltac:(unfold max_coordinate; lia)
              ltac:(unfold max_coordinate; lia)
              ltac:(unfold max_coordinate; lia)
              ltac:(unfold max_coordinate; lia) Htexts ltac:(lia) Hfit)
    as (r & hp & ta & _ & _ & _ & _ & _ & Hlog & _ & Hta & Hd).
  exists (box_lines x (x + w - 1) y (y + (bh + 2) - 1) ColorWhite
          ++ (emitRunes RuneWidth (x + hp) y ColorRed
                        (runes ("[" ++ r ++ "]")) ++ [Show])
          ++ [Show] ++ ta).
  split; [exact Hd|]. split.
  - rewrite !logged_app, Hlog.
    rewrite (drawing_only_logged (box_lines x (x + w - 1) y (y + (bh + 2) - 1)
                                            ColorWhite)).
    + rewrite (drawing_only_logged (emitRunes RuneWidth (x + hp) y ColorRed
                                              (runes ("[" ++ r ++ "]")))).
      * reflexivity.
      * apply emitRunes_drawing.
    + apply box_lines_drawing.
  - rewrite !items_app, (drawing_only_items _ (box_lines_drawing _ _ _ _ _)).
    rewrite (drawing_only_items _ (emitRunes_drawing RuneWidth _ _ _ _)).
    cbn [items app].
    rewrite <- (bodyHeight_perm (w - 2) _ _ Hperm) in Hbh.
    pose proof (drawAliases_all RuneWidth BuilderCap y sn (x + 1) (w - 2)
                  ltac:(unfold max_coordinate; lia)
                  ltac:(unfold max_coordinate; lia)
                  (sortStrings (keys (Aliases sn))) (y + 1) 0 bh
                  ltac:(lia) ltac:(lia)) as Hall.
    rewrite (textLength_perm _ _ Hperm) in Hall.
    specialize (Hall ltac:(unfold max_text; lia) Hbh).
    rewrite Hta in Hall. exact Hall.
Qed.

(** X10.  A box of the height the packer computes for a group, its body
    height plus 2, shows every item of the group.  For a group whose label
    and item texts consist of single-byte characters (at most 2^32 in each
    and in all), whose item names are distinct, and whose label has at most
    [w - 4] bytes, at a position of at most 2^60 and a width from 4 to 2^60:
    [drawSection] returns without an error, logs nothing, and renders all
    the items, in the sorted order of their names. *)
Theorem drawSection_shows_all_items :
  forall (RuneWidth : ascii -> Z) (BuilderCap : Z -> Z) (x y w : Z)
         (sn : Section_) (bh : Z),
    short_texts sn -> NoDup (keys (Aliases sn)) ->
    textLength (Aliases sn) <= max_text ->
    0 <= x <= max_coordinate -> 0 <= y <= max_coordinate ->
    4 <= w <= max_coordinate ->
    len (Label sn) <= w - 4 ->
    bodyHeight (sub w 2) (Aliases sn) 0 = Some bh ->
    exists tr,
      drawSection RuneWidth BuilderCap x y w (add bh 2) sn = Done tr None
      /\ logged tr = []
      /\ items tr = sortStrings (keys (Aliases sn)).
Proof.
  intros RuneWidth BuilderCap x y w sn bh. apply drawSection_all_items.
Qed.

(** ** Column packer: a pass in a window with room for a label *)

Lemma bodyHeight_returns (aw : Z) (entries : gomap Alias) :
  1 <= aw ->
  forall acc,
    0 <= acc -> acc + textLength entries <= 2 * max_text ->
    exists bh, bodyHeight aw entries acc = Some bh.
Proof.
  intros Haw. induction entries as [|[k a] rest IH]; intros acc Hacc Hsum;
    cbn [bodyHeight textLength] in *; [eexists; reflexivity|].
  pose proof (textLength_nonneg rest) as Hrest.
  pose proof (len_nonneg (btext a)) as Hlen.
  unfold max_text in *.
  destruct (minHeight aw (btext a)) as [ah|] eqn:Hah;
    [|rewrite minHeight_ceiling in Hah by int_range; discriminate].
  pose proof (minHeight_abs aw (btext a) ah ltac:(int_range) Hah) as Habs.
  destruct (minHeight_nonneg aw (btext a) ah Haw ltac:(int_range) Hah)
    as [Hah0 _].
  cbn [obind]. rewrite (add_small acc ah) by int_range.
  apply IH; lia.
Qed.

Lemma short_zero_section : short_texts zeroSection.
Proof.
  split; [|constructor]. split; [constructor|vm_compute; discriminate].
Qed.

Lemma getSection_plain (sm : gomap Section_) (sl : string) :
  plain_sections sm ->
  short_texts (getSection sm sl) /\ NoDup (keys (Aliases (getSection sm sl))).
Proof.
  intros Hall. unfold getSection.
  destruct (lookup sl sm) as [s|] eqn:Hl.
  - apply lookup_Some_In in Hl. unfold plain_sections in Hall.
    rewrite Forall_forall in Hall. exact (Hall _ Hl).
  - split; [apply short_zero_section|constructor].
Qed.

Lemma getSection_fit (pw : Z) (sm : gomap Section_) (sl : string) :
  4 <= pw -> labels_fit pw sm -> len (Label (getSection sm sl)) <= pw - 4.
Proof.
  intros Hpw Hall. unfold getSection.
  destruct (lookup sl sm) as [s|] eqn:Hl.
  - apply lookup_Some_In in Hl. unfold labels_fit in Hall.
    rewrite Forall_forall in Hall. exact (Hall _ Hl).
  - change (len (Label zeroSection)) with 0. lia.
Qed.

Lemma drawSection_within (RuneWidth : ascii -> Z) (BuilderCap : Z -> Z)
      (x y w h : Z) (sn : Section_) :
  narrow_runes RuneWidth -> short_texts sn ->
  0 <= x <= max_coordinate -> 0 <= y <= max_coordinate ->
  4 <= w <= max_coordinate -> 1 <= h <= max_coordinate ->
  len (Label sn) <= w - 4 ->
  within x y w h (trace (drawSection RuneWidth BuilderCap x y w h sn)).
Proof.
  intros Hnarrow Htexts Hx Hy Hw Hh Hfit.
  destruct (drawSection_wide RuneWidth BuilderCap x y w h sn
              ltac:(lia) ltac:(lia) ltac:(lia) ltac:(lia) Htexts ltac:(lia)
              Hfit)
    as (r & hp & ta & _ & _ & Hlen & Hhp1 & Hhp2 & _ & Hin & _ & Hd).
  rewrite Hd. cbn [trace].
  pose proof (len_nonneg r) as Hr0.
  apply within_app; [apply box_lines_within; lia|].
  apply within_app; [apply within_app|apply within_app].
  - apply (within_mono (x + hp) y (len r + 2) 1); [lia|lia|lia|lia|].
    rewrite <- len_label. unfold len. rewrite <- length_runes.
    unfold max_coordinate in *.
    apply emitRunes_within; [exact Hnarrow|int_range|].
    rewrite length_runes. fold (len ("[" ++ r ++ "]")). rewrite len_label.
    int_range.
  - repeat constructor.
  - repeat constructor.
  - apply (within_mono (x + 1) (y + 1) (w - 2) (h - 2)); [lia|lia|lia|lia|].
    exact (Hin Hnarrow).
Qed.

Section GoodPass.

Variable RuneWidth : ascii -> Z.
Variable BuilderCap : Z -> Z.
Variables (h m : Z) (sm : gomap Section_) (pw : Z).
Hypothesis Hh : h <= max_dimension.
Hypothesis Hm : 0 <= m.
Hypothesis Hpw : 4 <= pw <= max_dimension.
Hypothesis Hsmall : small_texts sm.
Hypothesis Hplain : plain_sections sm.
Hypothesis Hlabels : labels_fit pw sm.

Lemma fillColumn_good (c px : Z) (rest : list string) :
0 <= px <= max_coordinate ->
forall py,
  m <= py ->
  exists tr l,
    fillColumn RuneWidth BuilderCap h sm pw c px py rest = Done tr l
    /\ logged tr = []
    /\ Forall (shown_in_full sm) (rendered tr)
    /\ (narrow_runes RuneWidth -> within px m pw (h - m) tr).
Proof.
intros Hpx. induction rest as [|sl rest IH]; intros py Hpy.
- rewrite fillColumn_nil.
  destruct (py <? h); eexists; eexists;
    (split; [reflexivity|]); (split; [reflexivity|]);
    (split; [constructor|]); intros _; apply Forall_nil.
- rewrite fillColumn_step.
  destruct (Z.ltb_spec py h) as [Hlt|Hge].
  2:{ eexists; eexists. split; [reflexivity|]. split; [reflexivity|].
      split; [constructor|]. intros _. apply Forall_nil. }
  destruct (getSection_plain sm sl Hplain) as [Hshort Hnd].
  pose proof (getSection_fit pw sm sl ltac:(lia) Hlabels) as Hlabel.
  pose proof (getSection_small sm sl Hsmall) as Hlen.
  pose proof (textLength_nonneg (Aliases (getSection sm sl))) as Hlen0.
  set (sn := getSection sm sl) in *.
  unfold max_dimension, max_text, max_coordinate in *.
  destruct (bodyHeight_returns (sub pw 2) (Aliases sn)
              ltac:(rewrite (sub_small pw 2) by int_range; lia) 0
              ltac:(lia) ltac:(unfold max_text; lia)) as (bh & Hbh).
  rewrite Hbh.
  pose proof (bodyHeight_grows (sub pw 2) (Aliases sn)
                ltac:(rewrite (sub_small pw 2) by int_range; lia) 0 bh
                ltac:(lia) ltac:(unfold max_text; lia) Hbh) as Hbh0.
  pose proof (bodyHeight_abs (sub pw 2) (Aliases sn) 0 bh
                ltac:(unfold max_text; lia) Hbh) as Hbhle.
  rewrite (add_small py bh) by int_range.
  rewrite (sub_small (py + bh) 1) by int_range.
  rewrite (sub_small h 2) by int_range.
  destruct (Z.geb_spec (py + bh - 1) (h - 2)) as [Hskip|Hfit].
  { eexists; eexists. split; [reflexivity|]. split; [reflexivity|].
    split; [constructor|]. intros _. apply Forall_nil. }
  destruct (drawSection_all_items RuneWidth BuilderCap px py pw sn bh
              Hshort Hnd
              ltac:(unfold max_text; lia)
              ltac:(unfold max_coordinate; lia)
              ltac:(unfold max_coordinate; lia)
              ltac:(unfold max_coordinate; lia) Hlabel Hbh)
    as (ts & Hts & Hlog & Hitems).
  pose proof (drawSection_unplaced RuneWidth BuilderCap px py pw (add bh 2)
                                   sn) as Hun.
  pose proof (drawSection_within RuneWidth BuilderCap px py pw (add bh 2)
                                 sn) as Hwi.
  rewrite Hts in *. cbn [trace] in Hun, Hwi.
  rewrite (add_small bh 2) in * by int_range.
  rewrite (add_small py (bh + 2)) by int_range.
  destruct (IH (py + (bh + 2)) ltac:(lia)) as (tr & l & Htr & Hlogr & Hfull & Hin).
  pose proof (fillColumn_rendered RuneWidth BuilderCap h sm pw c px rest
                                  (py + (bh + 2)))
    as [_ Hquiet].
  rewrite Htr in *. cbn [trace] in Hquiet. cbn [after].
  eexists; eexists. split; [reflexivity|]. split; [|split].
  + cbn [app]. rewrite <- (app_nil_l (Placement _ _ _ _ _ _ :: _)).
    change (logged ([] ++ Placement c sl px py pw (bh + 2) :: ts ++ tr))
      with (logged (ts ++ tr)).
    rewrite logged_app, Hlog, Hlogr. reflexivity.
  + cbn [app rendered]. constructor.
    * unfold shown_in_full. cbn [fst snd].
      rewrite (unplaced_block_items_app _ _ Hun), Hquiet, app_nil_r.
      exact Hitems.
    * rewrite (unplaced_rendered_app _ _ Hun). exact Hfull.
  + intros Hnarrow. cbn [app]. constructor; [exact I|].
    apply within_app; [|exact (Hin Hnarrow)].
    apply (within_mono px py pw (bh + 2)); [lia|lia|lia|lia|].
    apply Hwi; try assumption; unfold max_coordinate; lia.
Qed.

Lemma fillColumns_good (W : Z) (n : nat) :
m <= max_dimension ->
forall c rest,
  0 <= c -> c + Z.of_nat n <= max_dimension ->
  (forall c', c <= c' < c + Z.of_nat n -> m + (pw + m) * c' + pw <= W) ->
  exists tr,
    fillColumns RuneWidth BuilderCap n h sm pw m c rest = Done tr tt
    /\ logged tr = []
    /\ Forall (shown_in_full sm) (rendered tr)
    /\ (narrow_runes RuneWidth -> within 0 m W (h - m) tr).
Proof.
intros Hmb. induction n as [|n IH]; intros c rest Hc Hn Hedge.
- exists []. split; [reflexivity|]. split; [reflexivity|].
  split; [constructor|]. intros _. apply Forall_nil.
- rewrite fillColumns_step.
  unfold max_dimension in *.
  rewrite (add_small pw m) by int_range.
  assert (0 <= (pw + m) * c <= 2097152 * 1048576) as Hprod by nia.
  rewrite (mul_small (pw + m) c) by int_range.
  rewrite (add_small m ((pw + m) * c)) by int_range.
  destruct (fillColumn_good c (m + (pw + m) * c) rest
              ltac:(unfold max_coordinate; lia) m ltac:(lia))
    as (tr & l & Htr & Hlog & Hfull & Hin).
  rewrite Htr.
  pose proof (Hedge c ltac:(lia)) as Hright.
  destruct l as [rest'|].
  + rewrite (add_small c 1) by int_range.
    destruct (IH (c + 1) rest' ltac:(lia) ltac:(lia)) as (tr2 & Htr2 & Hlog2 & Hfull2 & Hin2).
    { intros c' Hc'. apply Hedge. lia. }
    pose proof (fillColumns_rendered RuneWidth BuilderCap n h sm pw m
                                     (c + 1) rest')
      as [_ Hquiet].
    rewrite Htr2 in *. cbn [trace] in Hquiet. cbn [after].
    eexists. split; [reflexivity|]. split; [|split].
    * rewrite logged_app, Hlog, Hlog2. reflexivity.
    * destruct (quiet_tail_rendered tr tr2 Hquiet) as [-> _].
      apply Forall_app. split; assumption.
    * intros Hnarrow. apply within_app; [|exact (Hin2 Hnarrow)].
      apply (within_mono (m + (pw + m) * c) m pw (h - m));
        [lia|lia|lia|lia|exact (Hin Hnarrow)].
  + eexists. split; [reflexivity|]. split; [exact Hlog|].
    split; [exact Hfull|].
    intros Hnarrow.
    apply (within_mono (m + (pw + m) * c) m pw (h - m));
      [lia|lia|lia|lia|exact (Hin Hnarrow)].
Qed.

End GoodPass.

(** The columns of a window in which the column width leaves room for a
    label: they lie side by side within the width of the window. *)
Lemma columns_side_by_side (w m nc pw : Z) :
  10 <= w <= max_dimension -> 0 <= m <= max_dimension ->
  maxColumns w minPanelWidth maxPanelWidth = Some nc ->
  maxColumnWidth w nc m = Some pw ->
  4 <= pw ->
  1 <= nc <= w /\ pw <= w
  /\ forall c, 0 <= c < nc -> m + (pw + m) * c + pw <= w.
Proof.
  intros Hw Hm Hnc Hpw Hpw4. unfold max_dimension in *.
  destruct (maxColumns_panel w ltac:(int_range)) as (nc' & Hnc' & Hnc1 & Hshape).
  rewrite Hnc in Hnc'. apply Some_eq in Hnc'. subst nc'.
  assert (nc <= w) as Hncw by lia.
  unfold maxColumnWidth in Hpw.
  rewrite (add_small 1 nc) in Hpw by int_range.
  assert (0 <= (1 + nc) * m <= 1048577 * 1048576) as Hprod by nia.
  rewrite (mul_small (1 + nc) m) in Hpw by int_range.
  rewrite (sub_small w ((1 + nc) * m)) in Hpw by int_range.
  pose proof (quot_abs_le (w - (1 + nc) * m) nc ltac:(lia)) as Habs.
  rewrite quo_small in Hpw by (try int_range; lia).
  apply Some_eq in Hpw.
  assert (0 < w - (1 + nc) * m) as Hroom.
  { destruct (quot_bounds (w - (1 + nc) * m) nc ltac:(lia))
      as (r & Hq & _ & Hneg).
    destruct (Z.le_gt_cases (w - (1 + nc) * m) 0) as [Hle|Hgt]; [|lia].
    specialize (Hneg Hle). rewrite Hpw in Hq. nia. }
  split; [lia|]. split; [lia|].
  intros c Hc.
  pose proof (column_right_edge w m nc c ltac:(lia) ltac:(lia) Hnc1 Hshape Hc)
    as Hedge.
  rewrite Hpw in Hedge. nia.
Qed.

Lemma drawPanels_good (RuneWidth : ascii -> Z) (BuilderCap : Z -> Z)
      (w h : Z) (sm : gomap Section_) (m nc pw : Z) :
  10 <= w <= max_dimension -> 10 <= h <= max_dimension ->
  0 <= m <= max_dimension ->
  small_texts sm -> plain_sections sm ->
  maxColumns w minPanelWidth maxPanelWidth = Some nc ->
  maxColumnWidth w nc m = Some pw ->
  4 <= pw -> labels_fit pw sm ->
  exists tr,
    drawPanels RuneWidth BuilderCap w h sm m
    = Done ((emitRunes RuneWidth (w - 20) 0 ColorWhite
                       (runes "Press [Q]uit to exit") ++ [Show]) ++ tr) tt
    /\ logged tr = []
    /\ Forall (shown_in_full sm) (rendered tr)
    /\ (narrow_runes RuneWidth -> within 0 m w (h - m) tr).
Proof.
  intros Hw Hh Hm Hsmall Hplain Hnc Hpw Hpw4 Hlabels.
  destruct (columns_side_by_side w m nc pw Hw Hm Hnc Hpw Hpw4)
    as (Hnc1 & Hpww & Hedge).
  rewrite drawPanels_unfold.
  destruct (Z.ltb_spec w 10) as [?|_]; [lia|].
  destruct (Z.ltb_spec h 10) as [?|_]; [lia|].
  cbn [orb]. rewrite Hnc, Hpw.
  unfold max_dimension in *.
  rewrite (sub_small w 20) by int_range.
  destruct (fillColumns_good RuneWidth BuilderCap h m sm pw
              ltac:(unfold max_dimension; lia)
              ltac:(lia) ltac:(unfold max_dimension; lia) Hsmall Hplain
              Hlabels w (Z.to_nat nc) ltac:(unfold max_dimension; lia)
              0 (sortStrings (keys sm)) ltac:(lia)
              ltac:(unfold max_dimension; lia))
    as (tr & Htr & Hlog & Hfull & Hin).
  { intros c Hc. apply Hedge. lia. }
  rewrite Htr. cbn [after]. exists tr.
  split; [reflexivity|]. split; [exact Hlog|]. split; [exact Hfull|exact Hin].
Qed.

(** X11.  A pass shows every block it places in full.  In a window of at
    most 2^20 cells each way, with a margin [m >= 0], a column width [pw] of
    at least 4, sections whose labels and item texts consist of single-byte
    characters (at most 2^32 in a group) with distinct item names, and
    labels of at most [pw - 4] bytes: [drawPanels] ends normally, logs
    nothing, and every block it hands to [drawSection] is rendered with all
    the items of its group, in the sorted order of their names: the height
    the packer computes never makes [drawSection] drop an item. *)
Theorem drawPanels_shows_blocks_in_full :
  forall (RuneWidth : ascii -> Z) (BuilderCap : Z -> Z) (w h : Z)
         (sm : gomap Section_) (m nc pw : Z),
    10 <= w <= max_dimension -> 10 <= h <= max_dimension ->
    0 <= m <= max_dimension ->
    small_texts sm -> plain_sections sm ->
    maxColumns w minPanelWidth maxPanelWidth = Some nc ->
    maxColumnWidth w nc m = Some pw ->
    4 <= pw -> labels_fit pw sm ->
    exists tr,
      drawPanels RuneWidth BuilderCap w h sm m = Done tr tt
      /\ logged tr = []
      /\ Forall (shown_in_full sm) (rendered tr).
Proof.
  intros RuneWidth BuilderCap w h sm m nc pw Hw Hh Hm Hsmall Hplain Hnc Hpw
         Hpw4 Hlabels.
  destruct (drawPanels_good RuneWidth BuilderCap w h sm m nc pw Hw Hh Hm
                            Hsmall Hplain Hnc Hpw Hpw4 Hlabels)
    as (tr & Hd & Hlog & Hfull & _).
  eexists. split; [exact Hd|]. split.
  - rewrite logged_app, Hlog, app_nil_r.
    apply drawing_only_logged. apply Forall_app.
    split; [apply emitRunes_drawing|repeat constructor].
  - rewrite (unplaced_rendered_app _ _ (help_unplaced RuneWidth _)).
    exact Hfull.
Qed.

Lemma help_text_within (RuneWidth : ascii -> Z) (x : Z) :
  narrow_runes RuneWidth -> in_int x -> in_int (x + 20) ->
  within x 0 20 1
         (emitRunes RuneWidth x 0 ColorWhite (runes "Press [Q]uit to exit")).
Proof.
  intros Hnarrow Hx Hend.
  pose proof (emitRunes_within RuneWidth (runes "Press [Q]uit to exit")
                               Hnarrow x 0 ColorWhite Hx) as Hin.
  change (Z.of_nat (List.length (runes "Press [Q]uit to exit"))) with 20 in Hin.
  exact (Hin Hend).
Qed.

(** X12.  A pass stays on the screen when the labels fit.  In a window at
    least 20 cells wide (the length of the help text) and 10 high, at most
    2^20 each way, with runes at most one cell wide, a margin [m >= 0], a
    column width [pw] of at least 4, sections of single-byte texts (at most
    2^32 characters in a group) with distinct item names, and labels of at
    most [pw - 4] bytes: every cell that [drawPanels] sets lies in the
    window, its column in [0, w) and its row in [0, h).  A longer label is
    cut by the capacity of the builder of [truncate] and can leave the
    window: with the capacities of the current runtime, in a window 29 by 12
    without a margin a label of 30 characters begins in column -2. *)
Theorem drawPanels_stays_on_screen :
  forall (RuneWidth : ascii -> Z) (BuilderCap : Z -> Z) (w h : Z)
         (sm : gomap Section_) (m nc pw : Z),
    narrow_runes RuneWidth ->
    20 <= w <= max_dimension -> 10 <= h <= max_dimension ->
    0 <= m <= max_dimension ->
    small_texts sm -> plain_sections sm ->
    maxColumns w minPanelWidth maxPanelWidth = Some nc ->
    maxColumnWidth w nc m = Some pw ->
    4 <= pw -> labels_fit pw sm ->
    within 0 0 w h (trace (drawPanels RuneWidth BuilderCap w h sm m))
    /\ cell (trace (drawPanels sample.narrow sample.size_class 29 12
                               sample.long_label 0)) (-2) 0
       = Some (Rune "["%char).
Proof.
  intros RuneWidth BuilderCap w h sm m nc pw Hnarrow Hw Hh Hm Hsmall Hplain
         Hnc Hpw Hpw4 Hlabels.
  split; [|vm_compute; reflexivity].
  assert (10 <= w <= max_dimension) as Hw10 by lia.
  destruct (drawPanels_good RuneWidth BuilderCap w h sm m nc pw Hw10 Hh Hm
                            Hsmall Hplain Hnc Hpw Hpw4 Hlabels)
    as (tr & Hd & _ & _ & Hin).
  rewrite Hd. cbn [trace].
  assert (in_int (w - 20) /\ in_int (w - 20 + 20)) as [Hi1 Hi2]
      by (unfold max_dimension in *; split; int_range).
  apply within_app; [apply within_app|].
  - apply (within_mono (w - 20) 0 20 1); [lia|lia|lia|lia|].
    apply help_text_within; [exact Hnarrow|exact Hi1|exact Hi2].
  - constructor; [exact I|apply Forall_nil].
  - apply (within_mono 0 m w (h - m)); [lia|lia|lia|lia|exact (Hin Hnarrow)].
Qed.

Lemma emitRunes_head (RuneWidth : ascii -> Z) (c : ascii) (cs : list ascii)
      (x y : Z) (st : style) :
  exists g comb tl,
    emitRunes RuneWidth x y st (c :: cs) = SetContent x y g comb st :: tl.
Proof.
  cbn [emitRunes].
  destruct (RuneWidth c =? 0); eexists; eexists; eexists; reflexivity.
Qed.

Lemma help_text_head (RuneWidth : ascii -> Z) (x : Z) :
  exists g comb tl,
    emitRunes RuneWidth x 0 ColorWhite (runes "Press [Q]uit to exit")
    = SetContent x 0 g comb ColorWhite :: tl.
Proof.
  exact (emitRunes_head RuneWidth "P"%char (runes "ress [Q]uit to exit")
                        x 0 ColorWhite).
Qed.

(** X13.  In a window 10 to 19 cells wide the help text does not fit: the
    pass begins by setting a cell left of the screen, in column
    [w - 20 < 0] of row 0. *)
Theorem drawPanels_help_text_left_of_narrow_window :
  forall (RuneWidth : ascii -> Z) (BuilderCap : Z -> Z) (w h : Z)
         (sm : gomap Section_) (m : Z),
    10 <= w < 20 -> 10 <= h ->
    exists g comb tr,
      trace (drawPanels RuneWidth BuilderCap w h sm m)
      = SetContent (w - 20) 0 g comb ColorWhite :: tr
      /\ w - 20 < 0.
Proof.
  intros RuneWidth BuilderCap w h sm m Hw Hh.
  rewrite drawPanels_unfold.
  destruct (Z.ltb_spec w 10) as [?|_]; [lia|].
  destruct (Z.ltb_spec h 10) as [?|_]; [lia|].
  cbn [orb]. rewrite trace_after.
  rewrite (sub_small w 20) by int_range.
  destruct (help_text_head RuneWidth (w - 20)) as (g & comb & tl & Hhead).
  rewrite Hhead. rewrite <- !app_comm_cons.
  exists g, comb. eexists. split; [reflexivity|lia].
Qed.

(** ** Where the runes go: wrapped text and the centred label *)

Lemma one_cell_narrow (RuneWidth : ascii -> Z) :
  one_cell_runes RuneWidth -> narrow_runes RuneWidth.
Proof. intros H c. rewrite (H c). lia. Qed.

Section Cells.

Variable RuneWidth : ascii -> Z.
Hypothesis Hone : one_cell_runes RuneWidth.

(** Rune [i] of a string printed at ([x], [y]) is in cell ([x + i], [y]). *)
Lemma emitRunes_cell (cs : list ascii) :
forall x y st i c,
  in_int x -> in_int (x + Z.of_nat (List.length cs)) ->
  nth_error cs i = Some c ->
  cell (emitRunes RuneWidth x y st cs) (x + Z.of_nat i) y = Some (Rune c).
Proof.
induction cs as [|a cs IH]; intros x y st i c Hx Hend Hnth;
  [destruct i; discriminate|].
cbn [List.length] in Hend. cbn [emitRunes]. rewrite (Hone a).
change (1 =? 0) with false. cbv iota.
rewrite (add_small x 1) by int_range. cbn [cell].
destruct i as [|i]; cbn [nth_error] in Hnth.
- apply Some_eq in Hnth. subst a.
  rewrite (within_cell_None (x + 1) y (Z.of_nat (List.length cs)) 1);
    [|apply emitRunes_within;
      [apply one_cell_narrow; exact Hone|int_range|int_range]
     |lia].
  cbn [at_cell]. replace (x + Z.of_nat 0) with x by lia.
  rewrite !Z.eqb_refl. reflexivity.
- replace (x + Z.of_nat (S i)) with (x + 1 + Z.of_nat i) by lia.
  rewrite (IH (x + 1) y st i c) by (try exact Hnth; int_range).
  reflexivity.
Qed.

(** Rune [k] of a wrapped text is in row [k / w] of the box, at column
  [k mod w]. *)
Lemma textLines_cell (fuel : nat) :
forall x y w n st rs k c,
  0 < w -> (List.length rs <= fuel)%nat ->
  Z.of_nat (List.length rs) <= n * w ->
  in_int x -> in_int (x + w) -> in_int y -> in_int (y + n) ->
  nth_error rs k = Some c ->
  cell (trace (textLines RuneWidth fuel x y w st rs))
       (x + Z.of_nat k mod w) (y + Z.of_nat k / w)
  = Some (Rune c).
Proof.
induction fuel as [|fuel IH]; intros x y w n st rs k c Hw Hlen Hn Hx Hxw Hy
                                     Hyn Hnth;
  destruct rs as [|r rs]; try (destruct k; discriminate);
  cbn [List.length] in Hlen; [lia|].
cbn [textLines]. rewrite emitStr_trace, runes_string_of_list_ascii.
rewrite trace_bind. cbn [trace].
assert (1 <= n) as Hn1 by (cbn [List.length] in Hn; nia).
rewrite (add_small y 1) by int_range.
set (line := firstn (Z.to_nat w) (r :: rs)) in *.
set (rest := skipn (Z.to_nat w) (r :: rs)) in *.
assert (Z.of_nat (List.length line) <= w) as Hline
    by (unfold line; rewrite length_firstn; lia).
assert (Z.of_nat (List.length rest) <= (n - 1) * w) as Hrest.
{ unfold rest. rewrite length_skipn. cbn [List.length] in *.
  replace ((n - 1) * w) with (n * w - w) by ring.
  assert (w <= n * w) by nia. lia. }
assert (List.length rest <= fuel)%nat as Hfuel
    by (unfold rest; rewrite length_skipn; cbn [List.length]; lia).
rewrite cell_app.
destruct (Nat.ltb_spec k (Z.to_nat w)) as [Hk|Hk].
- rewrite Z.mod_small by lia. rewrite Z.div_small by lia.
  rewrite (within_cell_None x (y + 1) w (n - 1));
    [|apply textLines_within;
      [apply one_cell_narrow; exact Hone|exact Hw|exact Hfuel
      |exact Hrest|exact Hx|exact Hxw|int_range|int_range]
     |lia].
  rewrite cell_app. cbn [cell at_cell].
  replace (y + 0) with y by lia.
  apply emitRunes_cell; [exact Hx|int_range|].
  unfold line. rewrite nth_error_firstn.
  destruct (Nat.ltb_spec k (Z.to_nat w)) as [_|?]; [exact Hnth|lia].
- assert (nth_error rest (k - Z.to_nat w) = Some c) as Hnth'.
  { unfold rest. rewrite nth_error_skipn.
    replace (Z.to_nat w + (k - Z.to_nat w))%nat with k by lia. exact Hnth. }
  pose proof (IH x (y + 1) w (n - 1) st rest (k - Z.to_nat w)%nat c Hw
                 Hfuel Hrest Hx Hxw ltac:(int_range) ltac:(int_range)
                 Hnth') as Hcell.
  replace (Z.of_nat k) with (Z.of_nat (k - Z.to_nat w) + 1 * w) by lia.
  rewrite Z.mod_add by lia. rewrite Z.div_add by lia.
  replace (y + (Z.of_nat (k - Z.to_nat w) / w + 1))
    with (y + 1 + Z.of_nat (k - Z.to_nat w) / w) by lia.
  rewrite Hcell. reflexivity.
Qed.

End Cells.



(** ** Column packer: the column count and width *)

Lemma columns_return (w m : Z) :
  exists nc pw,
    maxColumns w minPanelWidth maxPanelWidth = Some nc
    /\ nc <> 0
    /\ maxColumnWidth w nc m = Some pw.
Proof.
  unfold minPanelWidth, maxPanelWidth. rewrite maxColumns_eq.
  rewrite (quo_eq (sub w 2) 52) by discriminate. cbn [obind].
  set (x2 := wrap (Z.quot (sub w 2) 52)).
  assert ((if x2 =? 0 then 1 else x2) <> 0) as Hnz
      by (destruct (Z.eqb_spec x2 0); [discriminate|assumption]).
  eexists. eexists. split; [reflexivity|]. split; [exact Hnz|].
  unfold maxColumnWidth. apply quo_eq. exact Hnz.
Qed.

(** X14.  The column count is never zero, so the width of a column is
    always computed: for every window width and margin, [maxColumns] and
    [maxColumnWidth] return, and the division in [maxColumnWidth] is never a
    division by zero. *)
Theorem column_count_is_never_zero :
  forall (w m : Z),
    exists nc pw,
      maxColumns w minPanelWidth maxPanelWidth = Some nc
      /\ nc <> 0
      /\ maxColumnWidth w nc m = Some pw.
Proof. exact columns_return. Qed.

(** X15.  The earlier revision of the package never computes fewer columns
    than the current one: for a window [w] cells wide its [maxPanels] yields
    [max 1 ((w - 2) / 42)] columns, the current [maxColumns]
    [max 1 ((w - 2) / 52)]. *)
Theorem earlier_revision_has_no_fewer_columns :
  forall (w m : Z),
    0 <= w <= max_int ->
    exists np pw0 nc,
      panel0.maxPanels w m = Some (np, pw0)
      /\ maxColumns w minPanelWidth maxPanelWidth = Some nc
      /\ np = Z.max 1 ((w - 2) / 42)
      /\ nc = Z.max 1 ((w - 2) / 52)
      /\ nc <= np.
Proof.
  intros w m Hw.
  unfold panel0.maxPanels, panel0.maxColumns, minPanelWidth, maxPanelWidth.
  rewrite maxColumns_eq.
  change (add 40 2) with 42. change (add 50 2) with 52.
  rewrite (sub_small w 2) by int_range.
  assert (in_int (Z.quot (w - 2) 42) /\ in_int (Z.quot (w - 2) 52)) as [Hi1 Hi2].
  { pose proof (quot_abs_le (w - 2) 42 ltac:(lia)).
    pose proof (quot_abs_le (w - 2) 52 ltac:(lia)).
    split; int_range. }
  rewrite (quo_small (w - 2) 42) by (try exact Hi1; discriminate).
  rewrite (quo_small (w - 2) 52) by (try exact Hi2; discriminate).
  cbn [obind].
  assert (Z.quot (w - 2) 42 = Z.max 0 ((w - 2) / 42)
          /\ Z.quot (w - 2) 52 = Z.max 0 ((w - 2) / 52)
          /\ (w - 2) / 52 <= (w - 2) / 42) as (E1 & E2 & Hle).
  { destruct (Z.le_gt_cases 0 (w - 2)) as [Hpos|Hneg].
    - rewrite !Z.quot_div_nonneg by lia.
      assert (0 <= (w - 2) / 42) by (apply Z.div_pos; lia).
      assert (0 <= (w - 2) / 52) by (apply Z.div_pos; lia).
      split; [lia|]. split; [lia|].
      pose proof (Z.div_mod (w - 2) 42 ltac:(lia)).
      pose proof (Z.mod_pos_bound (w - 2) 42 ltac:(lia)).
      pose proof (Z.div_mod (w - 2) 52 ltac:(lia)).
      pose proof (Z.mod_pos_bound (w - 2) 52 ltac:(lia)).
      lia.
    - assert (w - 2 = -1 \/ w - 2 = -2) as [E|E] by lia; rewrite E;
        (split; [reflexivity|]); (split; [reflexivity|]);
        vm_compute; discriminate. }
  rewrite E1, E2.
  set (a := (w - 2) / 42) in *. set (b := (w - 2) / 52) in *.
  assert ((if Z.max 0 b =? 0 then 1 else Z.max 0 b) = Z.max 1 b) as Hnc
      by (destruct (Z.eqb_spec (Z.max 0 b) 0); lia).
  rewrite Hnc.
  destruct (Z.gtb_spec (Z.max 0 a) (Z.max 0 b)) as [Hgt|Hngt]; cbn [obind].
  - assert ((if Z.max 0 a =? 0 then 1 else Z.max 0 a) = Z.max 1 a) as Hnp
        by (destruct (Z.eqb_spec (Z.max 0 a) 0); lia).
    rewrite Hnp. rewrite (quo_eq _ (Z.max 1 a)) by lia. cbn [obind].
    eexists. eexists. eexists.
    split; [reflexivity|]. split; [reflexivity|].
    split; [reflexivity|]. split; [reflexivity|lia].
  - assert ((if Z.max 0 b =? 0 then 1 else Z.max 0 b) = Z.max 1 a) as Hnp
        by (destruct (Z.eqb_spec (Z.max 0 b) 0); lia).
    rewrite Hnp. rewrite (quo_eq _ (Z.max 1 a)) by lia. cbn [obind].
    eexists. eexists. eexists.
    split; [reflexivity|]. split; [reflexivity|].
    split; [reflexivity|]. split; [reflexivity|lia].
Qed.

(** ** Column packer: nothing to place, and everything in one column *)

Section Stack.

Variable RuneWidth : ascii -> Z.
Variable BuilderCap : Z -> Z.
Variables (h m : Z) (sm : gomap Section_) (pw : Z).

(** With no label left, no further column places anything. *)
Lemma fillColumns_nil (n : nat) :
forall c, fillColumns RuneWidth BuilderCap n h sm pw m c [] = Done [] tt.
Proof.
induction n as [|n IH]; intros c; [reflexivity|].
rewrite fillColumns_step, fillColumn_nil.
destruct (m <? h); [reflexivity|].
rewrite after_nil. apply IH.
Qed.

Hypothesis Hh : h <= max_dimension.
Hypothesis Hm : 0 <= m.
Hypothesis Hpw : 4 <= pw <= max_dimension.
Hypothesis Hsmall : small_texts sm.
Hypothesis Hplain : plain_sections sm.
Hypothesis Hlabels : labels_fit pw sm.

Lemma bodyHeight_block (sl : string) (bh : Z) :
bodyHeight (sub pw 2) (Aliases (getSection sm sl)) 0 = Some bh ->
0 <= bh <= max_text.
Proof.
intros Hbh.
pose proof (getSection_small sm sl Hsmall) as Hlen.
pose proof (textLength_nonneg (Aliases (getSection sm sl))) as Hlen0.
unfold max_dimension, max_text in *.
assert (1 <= sub pw 2) as Haw
    by (rewrite (sub_small pw 2) by int_range; lia).
pose proof (bodyHeight_grows (sub pw 2) (Aliases (getSection sm sl)) Haw 0 bh
              ltac:(lia) ltac:(unfold max_text; lia) Hbh) as Hbh0.
pose proof (bodyHeight_abs (sub pw 2) (Aliases (getSection sm sl)) 0 bh
              ltac:(unfold max_text; lia) Hbh) as Hbhle.
lia.
Qed.

Lemma stackHeight_nonneg (rest : list string) :
forall t, stackHeight pw sm rest = Some t -> 0 <= t.
Proof.
induction rest as [|sl rest IH]; intros t Ht; cbn [stackHeight] in Ht.
- apply Some_eq in Ht. lia.
- destruct (bodyHeight (sub pw 2) (Aliases (getSection sm sl)) 0)
    as [bh|] eqn:Hbh; [|discriminate].
  destruct (stackHeight pw sm rest) as [t'|]; [|discriminate].
  cbn [obind] in Ht. apply Some_eq in Ht.
  pose proof (bodyHeight_block sl bh Hbh). specialize (IH t' eq_refl). lia.
Qed.

Lemma fillColumn_stack (c px : Z) (rest : list string) :
0 <= px <= max_coordinate ->
forall py total,
  m <= py ->
  stackHeight pw sm rest = Some total ->
  py + total <= h ->
  exists tr l,
    fillColumn RuneWidth BuilderCap h sm pw c px py rest = Done tr l
    /\ (l = EndPass \/ l = NextColumn [])
    /\ map (fun p => (column p, block_label p)) (placements tr)
       = map (fun sl => (c, sl)) rest.
Proof.
intros Hpx. induction rest as [|sl rest IH]; intros py total Hpy Hst Hfit.
- rewrite fillColumn_nil.
  destruct (py <? h); eexists; eexists;
    (split; [reflexivity|]); (split; [|reflexivity]); [left|right];
    reflexivity.
- cbn [stackHeight] in Hst.
  destruct (getSection_plain sm sl Hplain) as [Hshort Hnd].
  pose proof (getSection_small sm sl Hsmall) as Hlen.
  destruct (bodyHeight (sub pw 2) (Aliases (getSection sm sl)) 0)
    as [bh|] eqn:Hbh; [|discriminate].
  destruct (stackHeight pw sm rest) as [t|] eqn:Ht; [|discriminate].
  cbn [obind] in Hst. apply Some_eq in Hst.
  pose proof (bodyHeight_block sl bh Hbh) as Hbhr.
  pose proof (stackHeight_nonneg rest t Ht) as Ht0.
  rewrite fillColumn_step. rewrite Hbh.
  unfold max_dimension, max_text, max_coordinate in *.
  destruct (Z.ltb_spec py h) as [_|?]; [|lia].
  rewrite (add_small py bh) by int_range.
  rewrite (sub_small (py + bh) 1) by int_range.
  rewrite (sub_small h 2) by int_range.
  destruct (Z.geb_spec (py + bh - 1) (h - 2)) as [?|_]; [lia|].
  destruct (drawSection_all_items RuneWidth BuilderCap px py pw
              (getSection sm sl) bh Hshort Hnd
              ltac:(unfold max_text; lia)
              ltac:(unfold max_coordinate; lia)
              ltac:(unfold max_coordinate; lia)
              ltac:(unfold max_coordinate; lia)
              (getSection_fit pw sm sl ltac:(lia) Hlabels) Hbh)
    as (ts & Hts & _ & _).
  pose proof (drawSection_unplaced RuneWidth BuilderCap px py pw (add bh 2)
                                   (getSection sm sl)) as Hun.
  rewrite Hts in *. cbn [trace] in Hun.
  rewrite (add_small bh 2) by int_range.
  rewrite (add_small py (bh + 2)) by int_range.
  destruct (IH (py + (bh + 2)) t ltac:(lia) eq_refl ltac:(lia))
    as (tr & l & Htr & Hl & Hpl).
  rewrite Htr. cbn [after].
  eexists; eexists. split; [reflexivity|]. split; [exact Hl|].
  cbn [app placements map column block_label].
  rewrite placements_app, (unplaced_placements _ Hun). cbn [app].
  rewrite Hpl. reflexivity.
Qed.

End Stack.

(** X16.  Without groups a pass draws the help line and nothing else, and
    ends normally, whatever the margin is. *)
Theorem drawPanels_of_no_sections :
  forall (RuneWidth : ascii -> Z) (BuilderCap : Z -> Z) (w h m : Z),
    10 <= w -> 10 <= h ->
    drawPanels RuneWidth BuilderCap w h [] m
    = Done (emitRunes RuneWidth (sub w 20) 0 ColorWhite
                      (runes "Press [Q]uit to exit") ++ [Show]) tt.
Proof.
  intros RuneWidth BuilderCap w h m Hw Hh.
  rewrite drawPanels_unfold.
  destruct (Z.ltb_spec w 10) as [?|_]; [lia|].
  destruct (Z.ltb_spec h 10) as [?|_]; [lia|].
  cbn [orb].
  destruct (columns_return w m) as (nc & pw & Hnc & _ & Hpw).
  rewrite Hnc, Hpw.
  change (sortStrings (keys [])) with (@nil string).
  rewrite fillColumns_nil. cbn [after]. rewrite app_nil_r. reflexivity.
Qed.

(** X17.  A column with room for every block takes every block.  In a
    window of at most 2^20 cells each way, with a margin [m >= 0], a column
    width [pw] of at least 4, sections of single-byte texts (at most 2^32
    characters in a group) with distinct item names, and labels of at most
    [pw - 4] bytes: when the blocks of all groups, stacked below the margin,
    end within the height of the window, the pass hands every group to
    [drawSection], in the sorted order of the labels and all in column 0. *)
Theorem drawPanels_places_all_in_one_column :
  forall (RuneWidth : ascii -> Z) (BuilderCap : Z -> Z) (w h : Z)
         (sm : gomap Section_) (m nc pw total : Z),
    10 <= w <= max_dimension -> 10 <= h <= max_dimension ->
    0 <= m <= max_dimension ->
    small_texts sm -> plain_sections sm ->
    maxColumns w minPanelWidth maxPanelWidth = Some nc ->
    maxColumnWidth w nc m = Some pw ->
    4 <= pw -> labels_fit pw sm ->
    stackHeight pw sm (sortStrings (keys sm)) = Some total ->
    m + total <= h ->
    exists tr,
      drawPanels RuneWidth BuilderCap w h sm m = Done tr tt
      /\ map (fun p => (column p, block_label p)) (placements tr)
         = map (fun sl => (0, sl)) (sortStrings (keys sm)).
Proof.
  intros RuneWidth BuilderCap w h sm m nc pw total Hw Hh Hm Hsmall Hplain Hnc
         Hpw Hpw4 Hlabels Hst Hfit.
  destruct (columns_side_by_side w m nc pw Hw Hm Hnc Hpw Hpw4)
    as (Hnc1 & Hpww & _).
  rewrite drawPanels_unfold.
  destruct (Z.ltb_spec w 10) as [?|_]; [lia|].
  destruct (Z.ltb_spec h 10) as [?|_]; [lia|].
  cbn [orb]. rewrite Hnc, Hpw.
  destruct (Z.to_nat nc) as [|n] eqn:Hn; [lia|].
  rewrite fillColumns_step.
  assert (add m (mul (add pw m) 0) = m) as Hpx0.
  { unfold max_dimension in *.
    rewrite (add_small pw m) by int_range.
    rewrite (mul_small (pw + m) 0) by int_range.
    rewrite (add_small m ((pw + m) * 0)) by int_range. lia. }
  rewrite Hpx0.
  destruct (fillColumn_stack RuneWidth BuilderCap h m sm pw
              ltac:(lia) ltac:(lia) ltac:(lia) Hsmall Hplain Hlabels
              0 m (sortStrings (keys sm))
              ltac:(unfold max_coordinate, max_dimension in *; lia)
              m total ltac:(lia) Hst Hfit)
    as (tr & l & Htr & Hl & Hpl).
  rewrite Htr.
  pose proof (help_unplaced RuneWidth (sub w 20)) as Hhelp.
  destruct Hl as [->| ->].
  - cbn [after]. eexists. split; [reflexivity|].
    rewrite placements_app, (unplaced_placements _ Hhelp). exact Hpl.
  - rewrite fillColumns_nil. cbn [after]. eexists. split; [reflexivity|].
    rewrite placements_app, (unplaced_placements _ Hhelp), app_nil_r.
    exact Hpl.
Qed.

(** ** Package parser: the merged collection *)

Lemma keys_store {V : Type} (k : string) (v : V) (m : gomap V) (k' : string) :
  In k' (keys (store k v m)) <-> k' = k \/ In k' (keys m).
Proof.
  induction m as [|[k0 v0] m IH]; cbn [store keys map fst In].
  - intuition congruence.
  - destruct (String.eqb_spec k k0) as [->|Hne]; cbn [keys map fst In].
    + intuition congruence.
    + fold (keys (store k v m)). rewrite IH. fold (keys m). intuition.
Qed.

Lemma store_NoDup {V : Type} (k : string) (v : V) (m : gomap V) :
  NoDup (keys m) -> NoDup (keys (store k v m)).
Proof.
  induction m as [|[k0 v0] m IH]; cbn [store keys map fst]; intros Hnd.
  - constructor; [intros []|constructor].
  - inversion Hnd as [|? ? Hnotin Hnd']; subst.
    destruct (String.eqb_spec k k0) as [->|Hne]; cbn [keys map fst].
    + constructor; assumption.
    + constructor.
      * fold (keys (store k v m)). rewrite keys_store.
        intros [E|Hin]; [congruence|contradiction].
      * apply IH. exact Hnd'.
Qed.

Lemma has_store {V : Type} (k k' : string) (v : V) (m : gomap V) :
  k' <> k -> has (store k v m) k' = has m k'.
Proof.
  intros Hne. unfold has. rewrite lookup_store.
  destruct (String.eqb_spec k' k) as [E|_]; [contradiction|reflexivity].
Qed.

Lemma mergeAliases_keys (entries : gomap Alias) :
  forall am : gomap Alias,
    NoDup (keys am) ->
    exists tr am',
      mergeAliases entries am = Done tr am'
      /\ NoDup (keys am')
      /\ forall k, In k (keys am') <-> In k (keys am) \/ In k (keys entries).
Proof.
  induction entries as [|[bk ba] rest IH]; intros am Hnd.
  - exists [], am. split; [reflexivity|]. split; [exact Hnd|].
    intros k. cbn [keys map In]. tauto.
  - destruct (IH (store bk ba am) (store_NoDup bk ba am Hnd))
      as (tr & am' & Hrun & Hnd' & Hkeys).
    cbn [mergeAliases]. rewrite Hrun.
    destruct (lookup bk am); cbn [emit ret bind after];
      (eexists; exists am'; split; [reflexivity|]); (split; [exact Hnd'|]);
      intros k; rewrite Hkeys, keys_store; cbn [keys map fst In];
      fold (keys rest); intuition congruence.
Qed.

(** The log of a merge of two groups: one entry for each name of [b] that
    [a] has, in the order in which the names of [b] are visited. *)
Lemma mergeAliases_trace (entries : gomap Alias) :
  forall am : gomap Alias,
    NoDup (keys entries) ->
    trace (mergeAliases entries am)
    = map (fun k => LogInfo ("Redefined alias found: " ++ k))
          (filter (has am) (keys entries)).
Proof.
  induction entries as [|[bk ba] rest IH]; intros am Hnd; [reflexivity|].
  inversion Hnd as [|? ? Hnotin Hnd']; subst.
  cbn [mergeAliases keys map fst filter].
  rewrite trace_bind. fold (keys rest).
  assert (filter (has (store bk ba am)) (keys rest) = filter (has am) (keys rest))
    as Hsame.
  { apply filter_ext_in. intros k Hk. apply has_store.
    intros ->. contradiction. }
  unfold has at 1.
  destruct (lookup bk am) as [old|]; cbn [emit ret trace app map];
    rewrite IH by exact Hnd'; rewrite Hsame; reflexivity.
Qed.

Lemma trace_bind_quiet {A B : Type} (m : outcome A) (k : A -> outcome B) :
  (forall a, trace (k a) = []) -> trace (bind m k) = trace m.
Proof.
  intros Hk. rewrite trace_bind. destruct m; [rewrite Hk| |]; apply app_nil_r.
Qed.

(** X18.  [mergeSections] logs a redefinition once for each name of [b]
    that [a] already has, in the order in which it visits the names of [b],
    and logs nothing else: merging groups without a common name logs
    nothing. *)
Theorem mergeSections_logs_each_redefinition :
  forall a b : Section_,
    NoDup (keys (Aliases b)) ->
    trace (mergeSections a b)
    = map (fun k => LogInfo ("Redefined alias found: " ++ k))
          (filter (has (Aliases a)) (keys (Aliases b))).
Proof.
  intros a b Hnd. unfold mergeSections.
  rewrite trace_bind_quiet by (intros am; reflexivity).
  apply mergeAliases_trace. exact Hnd.
Qed.

Lemma mergeSections_keys (a b : Section_) :
  NoDup (keys (Aliases a)) ->
  exists tr s,
    mergeSections a b = Done tr s /\ NoDup (keys (Aliases s)).
Proof.
  intros Hnd.
  destruct (mergeAliases_keys (Aliases b) (Aliases a) Hnd)
    as (tr & am' & Hrun & Hnd' & _).
  unfold mergeSections. rewrite Hrun. cbn [bind after ret].
  eexists. eexists. split; [reflexivity|]. exact Hnd'.
Qed.

Lemma mergeSectionMaps_keys (b : gomap Section_) :
  forall a : gomap Section_,
    NoDup (keys a) ->
    exists tr a',
      mergeSectionMaps a b = Done tr a'
      /\ NoDup (keys a')
      /\ forall l, In l (keys a') <-> In l (keys a) \/ In l (keys b).
Proof.
  induction b as [|[bk bs] rest IH]; intros a Hnd.
  - exists [], a. split; [reflexivity|]. split; [exact Hnd|].
    intros l. cbn [keys map In]. tauto.
  - cbn [mergeSectionMaps].
    destruct (lookup bk a) as [as_|] eqn:Hla.
    + destruct (mergeSections_done as_ bs) as (tr1 & s1 & Hm).
      rewrite Hm. cbn [bind after ret]. rewrite app_nil_r.
      destruct (IH (store bk s1 a) (store_NoDup bk s1 a Hnd))
        as (tr2 & a' & Hrun & Hnd' & Hkeys).
      rewrite Hrun. cbn [after]. eexists. exists a'.
      split; [reflexivity|]. split; [exact Hnd'|].
      intros l. rewrite Hkeys, keys_store. cbn [keys map fst In].
      fold (keys rest). intuition congruence.
    + cbn [bind ret after].
      destruct (IH (store bk bs a) (store_NoDup bk bs a Hnd))
        as (tr2 & a' & Hrun & Hnd' & Hkeys).
      rewrite Hrun. exists tr2, a'.
      split; [reflexivity|]. split; [exact Hnd'|].
      intros l. rewrite Hkeys, keys_store. cbn [keys map fst In].
      fold (keys rest). intuition congruence.
Qed.

(** X19.  The merge of two collections, label by label: a label of [b]
    only gets the group of [b], a label of both the merge of the two groups
    by [mergeSections], and every other label keeps what it has in [a]. *)
Theorem mergeSectionMaps_by_label :
  forall a b : gomap Section_,
    NoDup (keys b) ->
    exists tr a',
      mergeSectionMaps a b = Done tr a'
      /\ forall l,
          match lookup l b with
          | None => lookup l a' = lookup l a
          | Some bs =>
              match lookup l a with
              | None => lookup l a' = Some bs
              | Some as_ =>
                  exists tr' s,
                    mergeSections as_ bs = Done tr' s /\ lookup l a' = Some s
              end
          end.
Proof.
  intros a b Hnd. apply mergeSectionMaps_lookup. exact Hnd.
Qed.

(** X20.  The merged collection has the labels of both collections and no
    others, each of them once. *)
Theorem mergeSectionMaps_has_the_labels_of_both :
  forall a b : gomap Section_,
    NoDup (keys a) ->
    exists tr a',
      mergeSectionMaps a b = Done tr a'
      /\ NoDup (keys a')
      /\ forall l, In l (keys a') <-> In l (keys a) \/ In l (keys b).
Proof.
  intros a b Hnd. apply mergeSectionMaps_keys. exact Hnd.
Qed.

(** *** [parseFiles]: empty sections are dropped *)

Lemma lookup_delete {V : Type} (k k' : string) (m : gomap V) :
  lookup k (delete k' m) = if String.eqb k k' then None else lookup k m.
Proof.
  induction m as [|[k0 v0] m IH]; cbn [delete lookup].
  - destruct (String.eqb k k'); reflexivity.
  - destruct (String.eqb_spec k' k0) as [->|Hne].
    + rewrite IH. destruct (String.eqb_spec k k0); reflexivity.
    + cbn [lookup]. rewrite IH.
      destruct (String.eqb_spec k k0) as [->|Hne'].
      * destruct (String.eqb_spec k0 k') as [E|_]; [congruence|reflexivity].
      * reflexivity.
Qed.

Lemma keys_delete {V : Type} (k : string) (m : gomap V) (k' : string) :
  In k' (keys (delete k m)) -> In k' (keys m).
Proof.
  induction m as [|[k0 v0] m IH]; cbn [delete keys map fst In]; [tauto|].
  destruct (String.eqb k k0); cbn [keys map fst In]; intuition.
Qed.

Lemma delete_NoDup {V : Type} (k : string) (m : gomap V) :
  NoDup (keys m) -> NoDup (keys (delete k m)).
Proof.
  induction m as [|[k0 v0] m IH]; cbn [delete keys map fst]; intros Hnd;
    [constructor|].
  inversion Hnd as [|? ? Hnotin Hnd']; subst.
  destruct (String.eqb k k0); cbn [keys map fst]; [apply IH; exact Hnd'|].
  constructor; [|apply IH; exact Hnd'].
  intros Hin. apply Hnotin. exact (keys_delete k m k0 Hin).
Qed.

Lemma deleteEmpty_lookup (entries : gomap Section_) :
  forall sm : gomap Section_,
    NoDup (keys sm) ->
    exists tr sm',
      deleteEmpty entries sm = Done tr sm'
      /\ NoDup (keys sm')
      /\ forall l,
          lookup l sm'
          = if existsb (fun e => String.eqb l (fst e)
                                 && match Aliases (snd e) with
                                    | [] => true
                                    | _ :: _ => false
                                    end) entries
            then None else lookup l sm.
Proof.
  induction entries as [|[sl s] rest IH]; intros sm Hnd.
  - exists [], sm. split; [reflexivity|]. split; [exact Hnd|].
    intros l. reflexivity.
  - cbn [deleteEmpty existsb fst snd].
    destruct (Aliases s) as [|e es].
    + destruct (IH (delete sl sm) (delete_NoDup sl sm Hnd))
        as (tr & sm' & Hrun & Hnd' & Hlk).
      rewrite Hrun. cbn [emit bind after]. eexists. exists sm'.
      split; [reflexivity|]. split; [exact Hnd'|].
      intros l. rewrite Hlk, lookup_delete.
      destruct (existsb _ rest); destruct (String.eqb l sl); reflexivity.
    + destruct (IH sm Hnd) as (tr & sm' & Hrun & Hnd' & Hlk).
      rewrite Hrun. exists tr, sm'.
      split; [reflexivity|]. split; [exact Hnd'|].
      intros l. rewrite Hlk. rewrite andb_false_r. reflexivity.
Qed.

Lemma existsb_empty_lookup (sm : gomap Section_) (l : string) :
  NoDup (keys sm) ->
  existsb (fun e => String.eqb l (fst e)
                    && match Aliases (snd e) with
                       | [] => true
                       | _ :: _ => false
                       end) sm
  = match lookup l sm with
    | Some s => match Aliases s with
                | [] => true
                | _ :: _ => false
                end
    | None => false
    end.
Proof.
  induction sm as [|[k s] sm IH]; intros Hnd; [reflexivity|].
  inversion Hnd as [|? ? Hnotin Hnd']; subst.
  cbn [existsb lookup fst snd]. rewrite (IH Hnd').
  destruct (String.eqb_spec l k) as [->|Hne]; cbn [andb orb]; [|reflexivity].
  apply lookup_None in Hnotin. rewrite Hnotin.
  destruct (Aliases s); reflexivity.
Qed.

Section FilesFacts.

Variable parseFile : string -> outcome (gomap Section_).

Lemma mergeFiles_keys (files : list string) :
(forall f, In f files -> exists tr r, parseFile f = Done tr r) ->
forall sm,
  NoDup (keys sm) ->
  exists tr sm',
    mergeFiles parseFile files sm = Done tr sm' /\ NoDup (keys sm').
Proof.
induction files as [|f files IH]; intros Hread sm Hnd.
- exists [], sm. split; [reflexivity|exact Hnd].
- cbn [mergeFiles].
  destruct (Hread f ltac:(left; reflexivity)) as (tr1 & r & Hf).
  rewrite Hf. cbn [bind].
  destruct (mergeSectionMaps_keys r sm Hnd) as (tr2 & sm1 & Hm & Hnd1 & _).
  rewrite Hm. cbn [bind].
  destruct (IH ltac:(intros f' Hf'; apply Hread; right; exact Hf') sm1 Hnd1)
    as (tr3 & sm' & Hrun & Hnd').
  rewrite Hrun. cbn [after]. eexists. exists sm'.
  split; [reflexivity|exact Hnd'].
Qed.

End FilesFacts.

(** X21.  [parseFiles] keeps no empty section.  When every file is read,
    [parseFiles] returns the collection merged from the files without the
    groups that have no item: a label has a group in the result exactly when
    its merged group has an item, and then it is that group. *)
Theorem parseFiles_keeps_no_empty_section :
  forall (parseFile : string -> outcome (gomap Section_)) (files : list string),
    (forall f, In f files -> exists tr r, parseFile f = Done tr r) ->
    exists trm merged tr sm,
      mergeFiles parseFile files [] = Done trm merged
      /\ parseFiles parseFile files = Done tr sm
      /\ (forall l,
             lookup l sm
             = match lookup l merged with
               | Some s => match Aliases s with
                           | [] => None
                           | _ :: _ => Some s
                           end
               | None => None
               end)
      /\ (forall l s, lookup l sm = Some s -> Aliases s <> []).
Proof.
  intros parseFile files Hread.
  destruct (mergeFiles_keys parseFile files Hread [] ltac:(constructor))
    as (trm & merged & Hm & Hnd).
  destruct (deleteEmpty_lookup merged merged Hnd) as (tr & sm & Hd & _ & Hlk).
  assert (forall l,
             lookup l sm
             = match lookup l merged with
               | Some s => match Aliases s with
                           | [] => None
                           | _ :: _ => Some s
                           end
               | None => None
               end) as Hspec.
  { intros l. rewrite Hlk, (existsb_empty_lookup merged l Hnd).
    destruct (lookup l merged) as [s|]; [|reflexivity].
    destruct (Aliases s); reflexivity. }
  exists trm, merged. eexists. exists sm.
  split; [exact Hm|]. split.
  - unfold parseFiles. rewrite Hm. cbn [bind]. rewrite Hd. reflexivity.
  - split; [exact Hspec|].
    intros l s Hl. rewrite Hspec in Hl.
    destruct (lookup l merged) as [s'|]; [|discriminate].
    destruct (Aliases s') as [|e es] eqn:Ha; [discriminate|].
    apply Some_eq in Hl. subst s'. rewrite Ha. discriminate.
Qed.

(* ================================================================= *)
(** * The further properties at sample inputs *)

Lemma single_byte_check (s : string) :
  forallb (fun c => (nat_of_ascii c <? 128)%nat) (list_ascii_of_string s) = true ->
  single_byte s.
Proof.
  unfold single_byte. intros H. apply Forall_forall. intros c Hc.
  rewrite forallb_forall in H. apply Nat.ltb_lt. exact (H c Hc).
Defined.

Lemma plain_check (s : string) :
  forallb (fun c => (nat_of_ascii c <? 128)%nat) (list_ascii_of_string s) = true ->
  len s <= max_text -> plain s /\ short s.
Proof.
  intros Hb Hl. pose proof (single_byte_check s Hb) as Hsb.
  split; split; try exact Hsb; try exact Hl.
  unfold max_text in Hl. unfold max_int. lia.
Defined.

Lemma sample_narrow : narrow_runes sample.narrow.
Proof. intros c. unfold sample.narrow. lia. Defined.

Lemma sample_short_git : short_texts sample.git.
Proof.
  split; [apply plain_check; [reflexivity|vm_compute; discriminate]|].
  repeat (constructor;
          [apply plain_check; [reflexivity|vm_compute; discriminate]|]).
  constructor.
Defined.

Lemma sample_short_veggies : short_texts sample.veggies.
Proof.
  split; [apply plain_check; [reflexivity|vm_compute; discriminate]|].
  repeat (constructor;
          [apply plain_check; [reflexivity|vm_compute; discriminate]|]).
  constructor.
Defined.

Lemma sample_plain_sections : plain_sections sample.sections.
Proof.
  constructor;
    [split; [exact sample_short_git|apply sample_keys_distinct; discriminate]|].
  constructor; [|constructor].
  split; [exact sample_short_veggies|].
  constructor; [intros []|constructor].
Defined.

Lemma sample_sections_small : small_texts sample.sections.
Proof.
  constructor; [vm_compute; discriminate|].
  constructor; [vm_compute; discriminate|constructor].
Defined.

Lemma sample_labels_fit : labels_fit 96 sample.sections.
Proof. repeat constructor; vm_compute; discriminate. Defined.

Lemma sample_short_digits : short_texts (mkSection "0123456789" []).
Proof.
  split; [apply plain_check; [reflexivity|vm_compute; discriminate]|].
  constructor.
Defined.

Lemma truncate_cuts_to_capacity_witness :
  plain "hello world" /\ plain "0123456789"
  /\ 0 <= 8 < len "hello world"
  /\ 4 <= sample.size_class 8 <= len "hello world" + 3
  /\ truncate sample.size_class "hello world" 8
     = Some ((substring 0 (Z.to_nat (sample.size_class 8 - 3)) "hello world"
              ++ "...")%string, None)
  /\ 0 <= 9 < len "0123456789"
  /\ 0 <= sample.size_class 9 <= max_int
  /\ len "0123456789" + 3 < sample.size_class 9
  /\ truncate sample.size_class "0123456789" 9 = None.
Proof.
  assert (plain "hello world") as Hp
      by (apply plain_check; [reflexivity|vm_compute; discriminate]).
  assert (plain "0123456789") as Hq
      by (apply plain_check; [reflexivity|vm_compute; discriminate]).
  assert (0 <= 8 < len "hello world") as Hw
      by (vm_compute; split; [discriminate|reflexivity]).
  assert (4 <= sample.size_class 8 <= len "hello world" + 3) as Hc
      by (vm_compute; split; discriminate).
  assert (0 <= 9 < len "0123456789") as Hw'
      by (vm_compute; split; [discriminate|reflexivity]).
  assert (0 <= sample.size_class 9 <= max_int) as Hc'
      by (vm_compute; split; discriminate).
  assert (len "0123456789" + 3 < sample.size_class 9) as Hover
      by (vm_compute; reflexivity).
  destruct (truncate_cuts_to_capacity sample.size_class "hello world" 8 Hp)
    as (_ & _ & Hmarked & _).
  destruct (truncate_cuts_to_capacity sample.size_class "0123456789" 9 Hq)
    as (_ & _ & _ & _ & Hpanic & _).
  split; [exact Hp|]. split; [exact Hq|]. split; [exact Hw|].
  split; [exact Hc|]. split; [exact (proj1 (Hmarked Hw Hc))|].
  split; [exact Hw'|]. split; [exact Hc'|]. split; [exact Hover|].
  exact (Hpanic Hw' Hc' (or_introl Hover)).
Defined.

Lemma truncate_idempotent_witness :
  plain "hello"
  /\ 0 <= sample.size_class 3 <= max_int
  /\ truncate sample.size_class "hello" 3 = Some ("hello..."%string, None)
  /\ truncate sample.size_class "hello..." 3 = Some ("hello..."%string, None).
Proof.
  assert (plain "hello") as Hp
      by (apply plain_check; [reflexivity|vm_compute; discriminate]).
  assert (0 <= sample.size_class 3 <= max_int) as Hc
      by (vm_compute; split; discriminate).
  assert (truncate sample.size_class "hello" 3
          = Some ("hello..."%string, None)) as Hr by (vm_compute; reflexivity).
  split; [exact Hp|]. split; [exact Hc|]. split; [exact Hr|].
  exact (truncate_idempotent sample.size_class "hello" "hello..." 3 Hp Hc Hr).
Defined.

Lemma drawTextBox_writes_truncated_text_witness :
  plain "gs: git status" /\ 1 <= 4 /\ 0 <= 2 /\ 2 * 4 <= max_int
  /\ truncate sample.size_class "gs: git status" (2 * 4)
     = Some ("gs: g..."%string, None)
  /\ exists tr,
      drawTextBox sample.narrow sample.size_class 0 0 4 2 ColorRed
                  "gs: git status"
      = Done tr None
      /\ written tr = runes "gs: g...".
Proof.
  assert (plain "gs: git status") as Hp
      by (apply plain_check; [reflexivity|vm_compute; discriminate]).
  assert (1 <= 4) as Hw by lia.
  assert (0 <= 2) as Hh by lia.
  assert (2 * 4 <= max_int) as Hhw by (vm_compute; discriminate).
  assert (truncate sample.size_class "gs: git status" (2 * 4)
          = Some ("gs: g..."%string, None)) as Hr by (vm_compute; reflexivity).
  split; [exact Hp|]. split; [exact Hw|]. split; [exact Hh|].
  split; [exact Hhw|]. split; [exact Hr|].
  exact (proj1 (drawTextBox_writes_truncated_text
                  sample.narrow sample.size_class 0 0 4 2 ColorRed
                  "gs: git status" Hp Hw Hh Hhw)
               "gs: g..."%string Hr).
Defined.

Lemma minHeight_rows_hold_the_text_witness :
  plain "abcdefghijklmnopqrstuvwxy"
  /\ minHeight 10 "abcdefghijklmnopqrstuvwxy" = Some 3
  /\ exists tr,
      drawTextBox sample.narrow sample.size_class 0 0 10 3 ColorRed
                  "abcdefghijklmnopqrstuvwxy"
      = Done tr None
      /\ written tr = runes "abcdefghijklmnopqrstuvwxy".
Proof.
  assert (plain "abcdefghijklmnopqrstuvwxy") as Hp
      by (apply plain_check; [reflexivity|vm_compute; discriminate]).
  assert (minHeight 10 "abcdefghijklmnopqrstuvwxy" = Some 3) as Hh
      by (vm_compute; reflexivity).
  assert (len "abcdefghijklmnopqrstuvwxy" + 10 <= max_int) as Hsum
      by (vm_compute; discriminate).
  split; [exact Hp|]. split; [exact Hh|].
  exact (proj2 (minHeight_rows_hold_the_text
                  sample.narrow sample.size_class 0 0 10 ColorRed
                  "abcdefghijklmnopqrstuvwxy" 3
                  Hp ltac:(lia) Hsum Hh)).
Defined.

Lemma drawTextBox_error_only_for_negative_size_witness :
  plain "gs: git status"
  /\ drawTextBox sample.narrow sample.size_class 0 0 (-1) 2 ColorRed
                 "gs: git status"
     = Done [] (Some "w and h cannot be negative"%string)
  /\ sample.size_class 0 = 0
  /\ drawTextBox sample.narrow sample.size_class 0 0 0 2 ColorRed
                 "gs: git status"
     = Done [] None
  /\ exists tr,
      drawTextBox sample.narrow sample.size_class 0 0 4 4 ColorRed
                  "gs: git status"
      = Done tr None
      /\ written tr = runes "gs: git status".
Proof.
  assert (plain "gs: git status") as Hp
      by (apply plain_check; [reflexivity|vm_compute; discriminate]).
  assert (sample.size_class 0 = 0) as Hcap by reflexivity.
  split; [exact Hp|].
  destruct (drawTextBox_error_only_for_negative_size
              sample.narrow sample.size_class 0 0 (-1) 2 ColorRed
              "gs: git status" Hp)
    as [Hneg _].
  destruct (drawTextBox_error_only_for_negative_size
              sample.narrow sample.size_class 0 0 0 2 ColorRed
              "gs: git status" Hp)
    as [_ Hzero].
  destruct (drawTextBox_error_only_for_negative_size
              sample.narrow sample.size_class 0 0 4 4 ColorRed
              "gs: git status" Hp)
    as [_ Hfits].
  split; [apply Hneg; left; lia|]. split; [exact Hcap|].
  destruct (Hzero ltac:(lia) ltac:(lia) ltac:(vm_compute; discriminate))
    as (_ & _ & Hnothing).
  split; [apply Hnothing; [left; reflexivity|exact Hcap]|].
  destruct (Hfits ltac:(lia) ltac:(lia) ltac:(vm_compute; discriminate))
    as (_ & Hall & _).
  apply Hall. vm_compute. discriminate.
Defined.

Lemma drawTextBox_stays_in_its_area_witness :
  narrow_runes sample.narrow /\ plain "gs: git status"
  /\ len "gs: git status" <= 4 * 4
  /\ within 3 5 4 4
            (trace (drawTextBox sample.narrow sample.size_class 3 5 4 4
                                ColorRed "gs: git status")).
Proof.
  assert (plain "gs: git status") as Hp
      by (apply plain_check; [reflexivity|vm_compute; discriminate]).
  assert (len "gs: git status" <= 4 * 4) as Hfit
      by (vm_compute; discriminate).
  split; [exact sample_narrow|]. split; [exact Hp|]. split; [exact Hfit|].
  apply (drawTextBox_stays_in_its_area
           sample.narrow sample.size_class 3 5 4 4 ColorRed "gs: git status"
           sample_narrow Hp Hfit);
    unfold in_int, min_int, max_int; lia.
Defined.

Lemma drawBox_leaves_a_frame_witness :
  exists tr,
    drawBox 1 1 4 3 ColorWhite = Done tr tt
    /\ cell tr 1 1 = Some RuneULCorner
    /\ cell tr 2 1 = Some RuneHLine
    /\ cell tr 4 2 = Some RuneVLine
    /\ cell tr 4 3 = Some RuneLRCorner
    /\ cell tr 2 2 = None.
Proof.
  destruct (drawBox_leaves_a_frame 1 1 4 3 ColorWhite
              ltac:(lia) ltac:(lia) ltac:(lia) ltac:(lia)
              ltac:(vm_compute; discriminate) ltac:(vm_compute; discriminate))
    as (tr & Hd & Hcell).
  exists tr. split; [exact Hd|].
  rewrite !Hcell. repeat split; reflexivity.
Defined.

Lemma drawSection_error_cases_witness :
  short_texts sample.git /\ short_texts (mkSection "0123456789" [])
  /\ drawSection sample.narrow sample.size_class (-1) 0 40 4 sample.git
     = Done [] (Some "x, y, w, and h cannot be negative"%string)
  /\ (exists tb,
         drawBox 0 0 3 4 ColorWhite = Done tb tt
         /\ drawSection sample.narrow sample.size_class 0 0 3 4 sample.git
            = Done (tb ++ [LogError "w cannot be negative"])
                   (Some "w cannot be negative"%string))
  /\ len (Label sample.git) <= 40 - 4
  /\ (exists tr,
         drawSection sample.narrow sample.size_class 0 0 40 4 sample.git
         = Done tr None
         /\ logged tr = [])
  /\ 13 - 4 < len "0123456789"
  /\ len "0123456789" + 3 < sample.size_class (13 - 4) <= max_int
  /\ exists tb,
      drawBox 2 2 13 8 ColorWhite = Done tb tt
      /\ drawSection sample.narrow sample.size_class 2 2 13 8
                     (mkSection "0123456789" [])
         = Panic tb.
Proof.
  assert (len (Label sample.git) <= 40 - 4) as Hfit
      by (vm_compute; discriminate).
  assert (13 - 4 < len "0123456789") as Hcut by (vm_compute; reflexivity).
  assert (len "0123456789" + 3 < sample.size_class (13 - 4) <= max_int)
    as Hcap by (vm_compute; split; [reflexivity|discriminate]).
  split; [exact sample_short_git|]. split; [exact sample_short_digits|].
  destruct (drawSection_error_cases sample.narrow sample.size_class
              (-1) 0 40 4 sample.git
              sample_short_git
              ltac:(vm_compute; discriminate) ltac:(vm_compute; discriminate)
              ltac:(vm_compute; discriminate) ltac:(vm_compute; discriminate))
    as (Hneg & _).
  destruct (drawSection_error_cases sample.narrow sample.size_class
              0 0 3 4 sample.git
              sample_short_git
              ltac:(vm_compute; discriminate) ltac:(vm_compute; discriminate)
              ltac:(vm_compute; discriminate) ltac:(vm_compute; discriminate))
    as (_ & Hnarrow & _).
  destruct (drawSection_error_cases sample.narrow sample.size_class
              0 0 40 4 sample.git
              sample_short_git
              ltac:(vm_compute; discriminate) ltac:(vm_compute; discriminate)
              ltac:(vm_compute; discriminate) ltac:(vm_compute; discriminate))
    as (_ & _ & Hwide & _).
  destruct (drawSection_error_cases sample.narrow sample.size_class
              2 2 13 8 (mkSection "0123456789" [])
              sample_short_digits
              ltac:(vm_compute; discriminate) ltac:(vm_compute; discriminate)
              ltac:(vm_compute; discriminate) ltac:(vm_compute; discriminate))
    as (_ & _ & _ & Hpanic & _).
  split; [apply Hneg; left; lia|].
  split; [apply Hnarrow; lia|].
  split; [exact Hfit|].
  split; [apply Hwide; try lia; exact Hfit|].
  split; [exact Hcut|]. split; [exact Hcap|].
  apply Hpanic; try lia; [exact Hcut|exact Hcap].
Defined.

Lemma drawSection_keeps_its_frame_witness :
  narrow_runes sample.narrow /\ short_texts sample.git
  /\ (4 <= 40 -> len (Label sample.git) <= 40 - 4)
  /\ cell (trace (drawSection sample.narrow sample.size_class 0 0 40 4
                              sample.git)) 0 0
     = Some RuneULCorner
  /\ cell (trace (drawSection sample.narrow sample.size_class 0 0 40 4
                              sample.git)) 39 2
     = Some RuneVLine
  /\ cell (trace (drawSection sample.narrow sample.size_class 0 0 40 4
                              sample.git)) 5 3
     = Some RuneHLine
  /\ cell (trace (drawSection sample.narrow sample.size_class 0 0 40 4
                              sample.git)) 40 2
     = None.
Proof.
  assert (4 <= 40 -> len (Label sample.git) <= 40 - 4) as Hfit
      by (intros _; vm_compute; discriminate).
  assert (forall cx cy,
             cx <= 0 \/ 0 + 40 - 1 <= cx \/ cy < 0 \/ 0 + 4 - 1 <= cy ->
             cell (trace (drawSection sample.narrow sample.size_class
                                      0 0 40 4 sample.git)) cx cy
             = frame_glyph 0 0 40 4 cx cy) as Hframe.
  { intros cx cy.
    apply (drawSection_keeps_its_frame sample.narrow sample.size_class
             0 0 40 4 sample.git cx cy
             sample_narrow sample_short_git);
      try exact Hfit; unfold max_coordinate; lia. }
  split; [exact sample_narrow|]. split; [exact sample_short_git|].
  split; [exact Hfit|].
  split; [rewrite Hframe by lia; reflexivity|].
  split; [rewrite Hframe by lia; reflexivity|].
  split; [rewrite Hframe by lia; reflexivity|].
  rewrite Hframe by lia. reflexivity.
Defined.

Lemma drawSection_shows_all_items_witness :
  short_texts sample.git /\ NoDup (keys (Aliases sample.git))
  /\ len (Label sample.git) <= 40 - 4
  /\ bodyHeight (sub 40 2) (Aliases sample.git) 0 = Some 2
  /\ exists tr,
      drawSection sample.narrow sample.size_class 0 0 40 (add 2 2) sample.git
      = Done tr None
      /\ logged tr = []
      /\ items tr = ["gl"; "gs"]%string.
Proof.
  assert (NoDup (keys (Aliases sample.git))) as Hnd
      by (apply sample_keys_distinct; discriminate).
  assert (len (Label sample.git) <= 40 - 4) as Hfit
      by (vm_compute; discriminate).
  assert (bodyHeight (sub 40 2) (Aliases sample.git) 0 = Some 2) as Hbh
      by (vm_compute; reflexivity).
  split; [exact sample_short_git|]. split; [exact Hnd|]. split; [exact Hfit|].
  split; [exact Hbh|].
  exact (drawSection_shows_all_items sample.narrow sample.size_class
           0 0 40 sample.git 2
           sample_short_git Hnd
           ltac:(vm_compute; discriminate)
           ltac:(unfold max_coordinate; lia)
           ltac:(unfold max_coordinate; lia)
           ltac:(unfold max_coordinate; lia) Hfit Hbh).
Defined.

Lemma drawPanels_shows_blocks_in_full_witness :
  small_texts sample.sections /\ plain_sections sample.sections
  /\ maxColumns 100 minPanelWidth maxPanelWidth = Some 1
  /\ maxColumnWidth 100 1 2 = Some 96
  /\ labels_fit 96 sample.sections
  /\ exists tr,
      drawPanels sample.narrow sample.size_class 100 30 sample.sections 2
      = Done tr tt
      /\ logged tr = []
      /\ Forall (shown_in_full sample.sections) (rendered tr).
Proof.
  assert (maxColumns 100 minPanelWidth maxPanelWidth = Some 1) as Hnc
      by (vm_compute; reflexivity).
  assert (maxColumnWidth 100 1 2 = Some 96) as Hpw by (vm_compute; reflexivity).
  split; [exact sample_sections_small|]. split; [exact sample_plain_sections|].
  split; [exact Hnc|]. split; [exact Hpw|]. split; [exact sample_labels_fit|].
  exact (drawPanels_shows_blocks_in_full
           sample.narrow sample.size_class 100 30 sample.sections 2 1 96
           ltac:(unfold max_dimension; lia) ltac:(unfold max_dimension; lia)
           ltac:(unfold max_dimension; lia)
           sample_sections_small sample_plain_sections Hnc Hpw ltac:(lia)
           sample_labels_fit).
Defined.

Lemma drawPanels_stays_on_screen_witness :
  narrow_runes sample.narrow
  /\ maxColumns 100 minPanelWidth maxPanelWidth = Some 1
  /\ maxColumnWidth 100 1 2 = Some 96
  /\ labels_fit 96 sample.sections
  /\ within 0 0 100 30
            (trace (drawPanels sample.narrow sample.size_class 100 30
                               sample.sections 2)).
Proof.
  assert (maxColumns 100 minPanelWidth maxPanelWidth = Some 1) as Hnc
      by (vm_compute; reflexivity).
  assert (maxColumnWidth 100 1 2 = Some 96) as Hpw by (vm_compute; reflexivity).
  split; [exact sample_narrow|]. split; [exact Hnc|]. split; [exact Hpw|].
  split; [exact sample_labels_fit|].
  exact (proj1 (drawPanels_stays_on_screen
                  sample.narrow sample.size_class 100 30 sample.sections
                  2 1 96 sample_narrow
                  ltac:(unfold max_dimension; lia)
                  ltac:(unfold max_dimension; lia)
                  ltac:(unfold max_dimension; lia)
                  sample_sections_small sample_plain_sections Hnc Hpw
                  ltac:(lia) sample_labels_fit)).
Defined.

Lemma drawPanels_help_text_left_of_narrow_window_witness :
  10 <= 12 < 20 /\ 10 <= 10
  /\ exists g comb tr,
      trace (drawPanels sample.narrow sample.size_class 12 10
                        sample.sections 2)
      = SetContent (12 - 20) 0 g comb ColorWhite :: tr
      /\ 12 - 20 < 0.
Proof.
  assert (10 <= 12 < 20) as Hw by lia.
  assert (10 <= 10) as Hh by lia.
  split; [exact Hw|]. split; [exact Hh|].
  exact (drawPanels_help_text_left_of_narrow_window
           sample.narrow sample.size_class 12 10 sample.sections 2 Hw Hh).
Defined.

Lemma earlier_revision_has_no_fewer_columns_witness :
  0 <= 100 <= max_int
  /\ exists np pw0 nc,
      panel0.maxPanels 100 2 = Some (np, pw0)
      /\ maxColumns 100 minPanelWidth maxPanelWidth = Some nc
      /\ np = 2 /\ nc = 1.
Proof.
  assert (0 <= 100 <= max_int) as Hw
      by (split; [lia|vm_compute; discriminate]).
  split; [exact Hw|].
  destruct (earlier_revision_has_no_fewer_columns 100 2 Hw)
    as (np & pw0 & nc & Hp & Hc & Hnp & Hnc & _).
  exists np, pw0, nc. split; [exact Hp|]. split; [exact Hc|].
  split; [rewrite Hnp; reflexivity|rewrite Hnc; reflexivity].
Defined.

Lemma drawPanels_of_no_sections_witness :
  10 <= 80 /\ 10 <= 24
  /\ drawPanels sample.narrow sample.size_class 80 24 [] 2
     = Done (emitRunes sample.narrow (sub 80 20) 0 ColorWhite
                       (runes "Press [Q]uit to exit") ++ [Show]) tt.
Proof.
  assert (10 <= 80) as Hw by lia.
  assert (10 <= 24) as Hh by lia.
  split; [exact Hw|]. split; [exact Hh|].
  exact (drawPanels_of_no_sections sample.narrow sample.size_class 80 24 2
                                   Hw Hh).
Defined.

Lemma drawPanels_places_all_in_one_column_witness :
  stackHeight 96 sample.sections (sortStrings (keys sample.sections)) = Some 7
  /\ 2 + 7 <= 30
  /\ labels_fit 96 sample.sections
  /\ exists tr,
      drawPanels sample.narrow sample.size_class 100 30 sample.sections 2
      = Done tr tt
      /\ map (fun p => (column p, block_label p)) (placements tr)
         = [(0, "Veggies"%string); (0, "git"%string)].
Proof.
  assert (maxColumns 100 minPanelWidth maxPanelWidth = Some 1) as Hnc
      by (vm_compute; reflexivity).
  assert (maxColumnWidth 100 1 2 = Some 96) as Hpw by (vm_compute; reflexivity).
  assert (stackHeight 96 sample.sections (sortStrings (keys sample.sections))
          = Some 7) as Hst by (vm_compute; reflexivity).
  assert (2 + 7 <= 30) as Hfit by lia.
  split; [exact Hst|]. split; [exact Hfit|]. split; [exact sample_labels_fit|].
  exact (drawPanels_places_all_in_one_column
           sample.narrow sample.size_class 100 30 sample.sections 2 1 96 7
           ltac:(unfold max_dimension; lia) ltac:(unfold max_dimension; lia)
           ltac:(unfold max_dimension; lia)
           sample_sections_small sample_plain_sections Hnc Hpw ltac:(lia)
           sample_labels_fit Hst Hfit).
Defined.

Lemma mergeSections_logs_each_redefinition_witness :
  NoDup (keys (Aliases sample.git_local))
  /\ trace (mergeSections sample.git sample.git_local)
     = [LogInfo "Redefined alias found: gs"].
Proof.
  assert (NoDup (keys (Aliases sample.git_local))) as Hnd
      by (apply sample_keys_distinct; discriminate).
  split; [exact Hnd|].
  rewrite (mergeSections_logs_each_redefinition sample.git sample.git_local Hnd).
  reflexivity.
Defined.

Lemma mergeSectionMaps_by_label_witness :
  NoDup (keys [("git"%string, sample.git_local)])
  /\ exists tr a',
      mergeSectionMaps sample.sections [("git"%string, sample.git_local)]
      = Done tr a'
      /\ lookup "Veggies" a' = Some sample.veggies
      /\ exists tr' s,
          mergeSections sample.git sample.git_local = Done tr' s
          /\ lookup "git" a' = Some s.
Proof.
  assert (NoDup (keys [("git"%string, sample.git_local)])) as Hnd
      by (constructor; [intros []|constructor]).
  split; [exact Hnd|].
  destruct (mergeSectionMaps_by_label
              sample.sections [("git"%string, sample.git_local)] Hnd)
    as (tr & a' & Hrun & Hlk).
  exists tr, a'. split; [exact Hrun|].
  split; [exact (Hlk "Veggies"%string)|exact (Hlk "git"%string)].
Defined.

Lemma mergeSectionMaps_has_the_labels_of_both_witness :
  NoDup (keys sample.sections)
  /\ exists tr a',
      mergeSectionMaps sample.sections sample.two_blocks = Done tr a'
      /\ NoDup (keys a')
      /\ In "git"%string (keys a') /\ In "B"%string (keys a').
Proof.
  assert (NoDup (keys sample.sections)) as Hnd
      by (apply sample_keys_distinct; discriminate).
  split; [exact Hnd|].
  destruct (mergeSectionMaps_has_the_labels_of_both
              sample.sections sample.two_blocks Hnd)
    as (tr & a' & Hrun & Hnd' & Hkeys).
  exists tr, a'. split; [exact Hrun|]. split; [exact Hnd'|].
  split; apply Hkeys; [left|right]; cbn; tauto.
Defined.

Lemma parseFiles_keeps_no_empty_section_witness :
  exists tr sm,
    parseFiles (fun f => if String.eqb f "a"
                         then Done [] sample.sections
                         else Done [] [("empty"%string, zeroSection)])
               ["a"; "b"]%string
    = Done tr sm
    /\ lookup "empty" sm = None
    /\ lookup "Veggies" sm = Some sample.veggies.
Proof.
  destruct (parseFiles_keeps_no_empty_section
              (fun f => if String.eqb f "a"
                        then Done [] sample.sections
                        else Done [] [("empty"%string, zeroSection)])
              ["a"; "b"]%string)
    as (trm & merged & tr & sm & Hm & Hp & Hlk & _).
  { intros f _. destruct (String.eqb f "a"); eexists; eexists; reflexivity. }
  exists tr, sm. split; [exact Hp|].
  vm_compute in Hm. injection Hm as _ <-.
  split; [rewrite Hlk; reflexivity|rewrite Hlk; reflexivity].
Defined.

Lemma sample_one_cell : one_cell_runes sample.narrow.
Proof. intros c. reflexivity. Defined.


